(** * IPv4 addressing engine: a shallow embedding of [src/utils/ip-utils.ts]

    The TypeScript module [IpUtils] is a set of pure functions over dotted-decimal
    text and JavaScript numbers; the calculator component
    ([subnet-calculator.component.ts]) derives what it shows from three input
    signals through those functions.  The chat and settings code of the
    component and the language-model service are asynchronous glue over the
    network and the browser store and are not embedded.  The embedding keeps
    the shape of the source:

    - a JavaScript string is a [string] (a sequence of code units below 256);
    - an integer-valued JavaScript number is a [Z]: prefix lengths and the row
      limit are integers, and every intermediate value reached from a valid
      address and a prefix length in [0,32] is below 2^53, where double
      arithmetic is exact;
    - [NaN], which [parseInt] produces, is [None] in an [option Z];
    - the 32-bit operators [<<], [>>>], [&], [|] and [~] are written out with
      their conversions [ToInt32] / [ToUint32] and the masking of the shift
      count to five bits. *)

From Stdlib Require Import ZArith Lia List Bool Ascii String.
From Stdlib Require Import Numbers.DecimalString.
Import ListNotations.

Open Scope string_scope.
Open Scope Z_scope.

(** ** JavaScript number primitives *)

Module JS.

Definition two32 : Z := 4294967296.
Definition two31 : Z := 2147483648.

(** [ToUint32]: reduction modulo 2^32. *)
Definition toUint32 (x : Z) : Z := x mod two32.

(** [ToInt32]: the signed representative of [x] modulo 2^32. *)
Definition toInt32 (x : Z) : Z :=
  let u := x mod two32 in
  if u <? two31 then u else u - two32.

(** The shift count of [<<] and [>>>] is [ToUint32(n) & 31]. *)
Definition shiftCount (n : Z) : Z := (toUint32 n) mod 32.

(** [a << n] *)
Definition shl (a n : Z) : Z := toInt32 (Z.shiftl (toInt32 a) (shiftCount n)).

(** [a >>> n] *)
Definition ushr (a n : Z) : Z := Z.shiftr (toUint32 a) (shiftCount n).

(** [a & b] *)
Definition band (a b : Z) : Z := toInt32 (Z.land (toInt32 a) (toInt32 b)).

(** [a | b] *)
Definition bor (a b : Z) : Z := toInt32 (Z.lor (toInt32 a) (toInt32 b)).

(** [~a] *)
Definition bnot (a : Z) : Z := toInt32 (Z.lnot (toInt32 a)).

(** [Math.pow(2, n)] for an integer [n >= 0].  For [n < 0] JavaScript yields
    the fraction 2^n, which has no counterpart in [Z]; the statements below
    only reach this function with [0 <= n]. *)
Definition pow2 (n : Z) : Z := 2 ^ n.

(** [Number.prototype.toString()] on an integer: its canonical decimal
    numeral (exact for the magnitudes below 10^21 that occur here). *)
Definition toString (n : Z) : string := NilZero.string_of_int (Z.to_int n).

(** [StrWhiteSpaceChar] restricted to code units below 256. *)
Definition isWhiteSpace (c : ascii) : bool :=
  let n := nat_of_ascii c in
  (Nat.eqb n 9 || Nat.eqb n 10 || Nat.eqb n 11 || Nat.eqb n 12 ||
   Nat.eqb n 13 || Nat.eqb n 32 || Nat.eqb n 160)%bool.

Fixpoint trimStart (s : string) : string :=
  match s with
  | String c r => if isWhiteSpace c then trimStart r else s
  | EmptyString => EmptyString
  end.

Definition digitValue (c : ascii) : option Z :=
  let n := nat_of_ascii c in
  if (Nat.leb 48 n && Nat.leb n 57)%bool then Some (Z.of_nat n - 48) else None.

(** The longest prefix of decimal digits of [s], read left to right with the
    value [acc] of the digits already consumed; [seen] tells whether a digit
    was consumed at all. *)
Fixpoint readDigits (s : string) (seen : bool) (acc : Z) : option Z :=
  match s with
  | String c r =>
      match digitValue c with
      | Some d => readDigits r true (10 * acc + d)
      | None => if seen then Some acc else None
      end
  | EmptyString => if seen then Some acc else None
  end.

(** [parseInt(s, 10)]: leading white space is skipped, one sign is accepted,
    the digits that follow are read up to the first other character, and the
    result is [NaN] ([None]) when there is no digit. *)
Definition parseInt (s : string) : option Z :=
  match trimStart s with
  | String "-" r => option_map Z.opp (readDigits r false 0)
  | String "+" r => readDigits r false 0
  | t => readDigits t false 0
  end.

(** [s.split(sep)] for a one-character separator. *)
Fixpoint split (sep : ascii) (s : string) : list string :=
  match s with
  | EmptyString => [EmptyString]
  | String c r =>
      if Ascii.eqb c sep then EmptyString :: split sep r
      else match split sep r with
           | h :: t => String c h :: t
           | [] => [String c EmptyString]
           end
  end.

(** [parts.join(sep)] *)
Fixpoint join (sep : string) (parts : list string) : string :=
  match parts with
  | [] => EmptyString
  | [p] => p
  | p :: rest => p ++ sep ++ join sep rest
  end.

End JS.

(** ** The data model of [ip-utils.ts] *)

Module SubnetDetails.
Record t : Type := mk {
  ip : string;
  cidr : Z;
  subnetMask : string;
  networkAddress : string;
  broadcastAddress : string;
  firstHost : string;
  lastHost : string;
  hostsPerSubnet : Z;
  hostBits : Z;
  borrowedBits : Z;
  subnetsCreated : Z;
  networkClass : string;
  defaultCidr : Z;
  baseCidr : Z;
  binaryIp : string;
  binaryMask : string;
  binaryNet : string;
  isValid : bool
}.
End SubnetDetails.

Module SubnetRow.
Record t : Type := mk {
  index : Z;
  networkAddress : string;
  range : string;
  broadcastAddress : string;
  isCurrent : bool
}.
End SubnetRow.

Inductive IpType : Type :=
| Private | Public | Loopback | LinkLocal | Multicast | Reserved | CGNAT | Unknown.

Module IpCategoryInfo.
Record t : Type := mk {
  type : IpType;
  rangeName : option string;
  minCidr : option Z;
  description : option string;
  isPrivate : bool
}.
End IpCategoryInfo.

Module PrivateRange.
Record t : Type := mk {
  start : Z;
  end_ : Z;
  name : string;
  minCidr : Z
}.
End PrivateRange.

Module SubnetTable.
Record t : Type := mk {
  rows : list SubnetRow.t;
  totalCount : Z;
  truncated : bool
}.
End SubnetTable.

Module NetworkClass.
Record t : Type := mk {
  char : string;
  defaultCidr : Z
}.
End NetworkClass.

(** ** The functions of [IpUtils] *)

Module IpUtils.

Definition PRIVATE_RANGES : list PrivateRange.t :=
  [ PrivateRange.mk 167772160 184549375 "10.0.0.0/8" 8;
    PrivateRange.mk 2886729728 2887778303 "172.16.0.0/12" 12;
    PrivateRange.mk 3232235520 3232301055 "192.168.0.0/16" 16 ].

(** The callback of [parts.every] in [isValidIp]. *)
Definition isValidPart (part : string) : bool :=
  match JS.parseInt part with
  | None => false
  | Some num =>
      (0 <=? num) && (num <=? 255) && String.eqb part (JS.toString num)
  end.

Definition isValidIp (ip : string) : bool :=
  let parts := JS.split "." ip in
  if negb (Nat.eqb (List.length parts) 4) then false
  else forallb isValidPart parts.

(** The reducer of [ipToLong]: [(acc << 8) + parseInt(octet, 10)].  A [NaN]
    accumulator shifts to 0, and adding [NaN] gives [NaN]. *)
Definition ipToLong_step (acc : option Z) (octet : string) : option Z :=
  let shifted := match acc with Some a => JS.shl a 8 | None => 0 end in
  match JS.parseInt octet with
  | Some n => Some (shifted + n)
  | None => None
  end.

Definition ipToLong (ip : string) : Z :=
  match fold_left ipToLong_step (JS.split "." ip) (Some 0) with
  | Some r => JS.ushr r 0
  | None => 0
  end.

Definition longToIp (long : Z) : string :=
  JS.join "."
    [ JS.toString (JS.band (JS.ushr long 24) 255);
      JS.toString (JS.band (JS.ushr long 16) 255);
      JS.toString (JS.band (JS.ushr long 8) 255);
      JS.toString (JS.band long 255) ].

(** [n.toString(2)] for [0 <= n]: binary digits, most significant first. *)
Fixpoint toBinaryDigits (fuel : nat) (n : Z) (acc : string) : string :=
  match fuel with
  | O => acc
  | S f =>
      let acc' := String (if Z.odd n then "1"%char else "0"%char) acc in
      if n / 2 =? 0 then acc' else toBinaryDigits f (n / 2) acc'
  end.

Fixpoint repeatChar (n : nat) (c : ascii) : string :=
  match n with
  | O => EmptyString
  | S k => String c (repeatChar k c)
  end.

(** [s.padStart(len, fill)] for a one-character [fill]. *)
Definition padStart (len : nat) (fill : ascii) (s : string) : string :=
  repeatChar (len - String.length s) fill ++ s.

Definition toBinaryString (num : Z) : string :=
  padStart 32 "0"%char (toBinaryDigits 32 (JS.ushr num 0) EmptyString).

(** The line terminators (below 256) that '.' of a regular expression does
    not match. *)
Definition isLineTerminator (c : ascii) : bool :=
  let n := nat_of_ascii c in (Nat.eqb n 10 || Nat.eqb n 13)%bool.

Definition flushChunk (cur : string) : list string :=
  match cur with
  | EmptyString => []
  | _ => [cur]
  end.

(** [binary.match(/.{1,8}/g)]: the successive greedy matches of one to eight
    characters other than line terminators.  [cur] is the match in progress
    and [room] the number of characters it may still take; a line terminator
    ends the match in progress and is skipped. *)
Fixpoint matchChunks (s : string) (cur : string) (room : nat) : list string :=
  match s with
  | EmptyString => flushChunk cur
  | String c r =>
      if isLineTerminator c then (flushChunk cur ++ matchChunks r EmptyString 8)%list
      else
        match room with
        | O => cur :: matchChunks r (String c EmptyString) 7
        | S k => matchChunks r (cur ++ String c EmptyString) k
        end
  end.

(** [binary.match(/.{1,8}/g)?.join('.') || '']: no match gives [null] and
    the empty string. *)
Definition formatBinary (binary : string) : string :=
  match matchChunks binary EmptyString 8 with
  | [] => ""
  | parts => JS.join "." parts
  end.

Definition getNetworkClass (firstOctet : Z) : NetworkClass.t :=
  if (firstOctet >=? 0) && (firstOctet <=? 127) then NetworkClass.mk "A" 8
  else if (firstOctet >=? 128) && (firstOctet <=? 191) then NetworkClass.mk "B" 16
  else if (firstOctet >=? 192) && (firstOctet <=? 223) then NetworkClass.mk "C" 24
  else if (firstOctet >=? 224) && (firstOctet <=? 239) then NetworkClass.mk "D" 0
  else NetworkClass.mk "E" 0.

Definition inRange (long : Z) (range : PrivateRange.t) : bool :=
  (long >=? PrivateRange.start range) && (long <=? PrivateRange.end_ range).

Definition getIpCategory (ip : string) : IpCategoryInfo.t :=
  if negb (isValidIp ip) then IpCategoryInfo.mk Unknown None None None false
  else
    let long := ipToLong ip in
    match find (inRange long) PRIVATE_RANGES with
    | Some range =>
        IpCategoryInfo.mk Private (Some (PrivateRange.name range))
          (Some (PrivateRange.minCidr range)) (Some "RFC 1918 Private") true
    | None =>
        if (long >=? 2130706432) && (long <=? 2147483647) then
          IpCategoryInfo.mk Loopback None None (Some "Loopback Address") false
        else if (long >=? 2851995648) && (long <=? 2852061183) then
          IpCategoryInfo.mk LinkLocal None None (Some "APIPA / Link-Local") false
        else if (long >=? 1681915904) && (long <=? 1686110207) then
          IpCategoryInfo.mk CGNAT None None (Some "Carrier-Grade NAT") false
        else if (long >=? 3758096384) && (long <=? 4026531839) then
          IpCategoryInfo.mk Multicast None None (Some "Multicast") false
        else if (long >=? 4026531840) && (long <=? 4294967295) then
          IpCategoryInfo.mk Reserved None None (Some "Reserved") false
        else
          IpCategoryInfo.mk Public None None (Some "Public Internet Address") false
    end.

(** The locals of [checkPrivateOverlap]. *)
Definition overlap_maskLong (cidr : Z) : Z := JS.ushr (JS.shl (-1) (32 - cidr)) 0.
Definition overlap_networkStart (ip : string) (cidr : Z) : Z :=
  JS.ushr (JS.band (ipToLong ip) (overlap_maskLong cidr)) 0.
Definition overlap_networkEnd (ip : string) (cidr : Z) : Z :=
  JS.ushr (JS.bor (overlap_networkStart ip cidr) (JS.bnot (overlap_maskLong cidr))) 0.

Definition intersects (networkStart networkEnd : Z) (range : PrivateRange.t) : bool :=
  (networkStart <=? PrivateRange.end_ range) && (networkEnd >=? PrivateRange.start range).

Definition checkPrivateOverlap (ip : string) (cidr : Z) : option string :=
  if negb (isValidIp ip) then None
  else
    let networkStart := overlap_networkStart ip cidr in
    let networkEnd := overlap_networkEnd ip cidr in
    match find (intersects networkStart networkEnd) PRIVATE_RANGES with
    | Some range => Some (PrivateRange.name range)
    | None => None
    end.

(** The locals of [calculateSubnet]; [maskLong] stays a signed 32-bit value
    there, the source applies no [>>> 0] to it. *)
Definition calc_maskLong (cidr : Z) : Z := JS.shl (-1) (32 - cidr).
Definition calc_networkLong (ip : string) (cidr : Z) : Z :=
  JS.ushr (JS.band (ipToLong ip) (calc_maskLong cidr)) 0.
Definition calc_broadcastLong (ip : string) (cidr : Z) : Z :=
  JS.ushr (JS.bor (calc_networkLong ip cidr) (JS.bnot (calc_maskLong cidr))) 0.

(** [getNetworkClass(parseInt(ip.split('.')[0], 10))]; a [NaN] first octet
    fails every comparison and falls through to class E. *)
Definition calc_netClass (ip : string) : NetworkClass.t :=
  match JS.parseInt (hd EmptyString (JS.split "." ip)) with
  | Some firstOctet => getNetworkClass firstOctet
  | None => NetworkClass.mk "E" 0
  end.

Definition calculateSubnet (ip : string) (cidr : Z) (parentCidr : option Z)
  : SubnetDetails.t :=
  if negb (isValidIp ip) then
    SubnetDetails.mk ip cidr "" "" "" "" "" 0 0 0 0 "-" 0 0 "" "" "" false
  else
    let ipLong := ipToLong ip in
    let maskLong := calc_maskLong cidr in
    let networkLong := calc_networkLong ip cidr in
    let broadcastLong := calc_broadcastLong ip cidr in
    let hostBits := 32 - cidr in
    let hostsPerSubnet := if hostBits >? 0 then JS.pow2 hostBits - 2 else 0 in
    let netClass := calc_netClass ip in
    let baseCidr :=
      match parentCidr with
      | Some p => p
      | None => NetworkClass.defaultCidr netClass
      end in
    let borrowedBits :=
      if (baseCidr >? 0) && (cidr >=? baseCidr) then cidr - baseCidr else 0 in
    let subnetsCreated := JS.pow2 borrowedBits in
    let firstHostLong := JS.ushr (networkLong + 1) 0 in
    let lastHostLong := JS.ushr (broadcastLong - 1) 0 in
    SubnetDetails.mk
      ip
      cidr
      (longToIp maskLong)
      (longToIp networkLong)
      (longToIp broadcastLong)
      (if cidr <? 31 then longToIp firstHostLong else "N/A")
      (if cidr <? 31 then longToIp lastHostLong else "N/A")
      (if hostsPerSubnet >? 0 then hostsPerSubnet else 0)
      hostBits
      borrowedBits
      subnetsCreated
      (NetworkClass.char netClass)
      (NetworkClass.defaultCidr netClass)
      baseCidr
      (toBinaryString ipLong)
      (toBinaryString maskLong)
      (toBinaryString networkLong)
      true.

(** The locals of [generateSubnetTable]. *)
Definition table_baseNetworkLong (ip : string) (baseCidr : Z) : Z :=
  let baseMaskLong := JS.ushr (JS.shl (-1) (32 - baseCidr)) 0 in
  JS.ushr (JS.band (ipToLong ip) baseMaskLong) 0.
Definition table_increment (cidr : Z) : Z := JS.pow2 (32 - cidr).
Definition table_currentNet (ip : string) (cidr baseCidr i : Z) : Z :=
  JS.ushr (table_baseNetworkLong ip baseCidr + i * table_increment cidr) 0.
Definition table_currentBroadcast (ip : string) (cidr baseCidr i : Z) : Z :=
  JS.ushr (table_currentNet ip cidr baseCidr i + table_increment cidr - 1) 0.

(** One turn of the loop of [generateSubnetTable], for the counter [i]. *)
Definition table_row (ip : string) (cidr baseCidr i : Z) : SubnetRow.t :=
  let ipLong := ipToLong ip in
  let currentNet := table_currentNet ip cidr baseCidr i in
  let currentBroadcast := table_currentBroadcast ip cidr baseCidr i in
  let startHost := JS.ushr (currentNet + 1) 0 in
  let endHost := JS.ushr (currentBroadcast - 1) 0 in
  let isCurrent := (ipLong >=? currentNet) && (ipLong <=? currentBroadcast) in
  let rangeStr :=
    if cidr <? 31 then longToIp startHost ++ " - " ++ longToIp endHost
    else "N/A" in
  SubnetRow.mk (i + 1) (longToIp currentNet) rangeStr
    (longToIp currentBroadcast) isCurrent.

(** [for (let i = 0; i < loopLimit; i++) rows.push(...)]: the counter runs
    over 0, 1, ... while it is below [loopLimit]. *)
Definition table_rows (ip : string) (cidr baseCidr loopLimit : Z)
  : list SubnetRow.t :=
  map (fun i => table_row ip cidr baseCidr (Z.of_nat i))
      (seq 0 (Z.to_nat loopLimit)).

Definition generateSubnetTable (ip : string) (cidr baseCidr : Z)
    (limit : option Z) : SubnetTable.t :=
  let limit := match limit with Some l => l | None => 256 end in
  if negb (isValidIp ip) || (cidr <? baseCidr) then
    SubnetTable.mk [] 0 false
  else
    let borrowedBits := cidr - baseCidr in
    let totalCount := JS.pow2 borrowedBits in
    let loopLimit := Z.min totalCount limit in
    SubnetTable.mk (table_rows ip cidr baseCidr loopLimit) totalCount
      (totalCount >? limit).

End IpUtils.

Import IpUtils.

(** ** The calculator component ([subnet-calculator.component.ts])

    The component derives everything it shows from three input signals; its
    computed values are functions of the state of those signals. *)

Module SubnetCalculatorComponent.

Record State : Type := mkState {
  ipInput : string;
  cidrInput : Z;
  parentCidrInput : Z
}.

Record ConfigError : Type := mkConfigError {
  isError : bool;
  message : string;
  detail : string
}.

Inductive BitType : Type := network | subnet | host.

Record BitDetail : Type := mkBitDetail {
  value : string;
  type : BitType
}.

(** [Array.from({ length: 32 }, (_, i) => i + 1)] *)
Definition cidrValues : list Z := map (fun i => Z.of_nat i + 1) (seq 0 32).

Definition ipInfo (st : State) : IpCategoryInfo.t :=
  IpUtils.getIpCategory (ipInput st).

(** A template literal prints a missing optional field as "undefined". *)
Definition showString (o : option string) : string :=
  match o with Some v => v | None => "undefined" end.
Definition showNumber (o : option Z) : string :=
  match o with Some v => JS.toString v | None => "undefined" end.

(** Truthiness of an optional number and of an optional string. *)
Definition truthyNumber (o : option Z) : bool :=
  match o with Some v => negb (v =? 0) | None => false end.
Definition truthyString (o : option string) : bool :=
  match o with Some EmptyString => false | Some _ => true | None => false end.

Definition isPrivateType (t : IpType) : bool :=
  match t with Private => true | _ => false end.
Definition isPublicType (t : IpType) : bool :=
  match t with Public => true | _ => false end.

Definition configError (st : State) : option ConfigError :=
  let info := ipInfo st in
  let parentCidr := parentCidrInput st in
  let ip := ipInput st in
  if isPrivateType (IpCategoryInfo.type info)
     && truthyNumber (IpCategoryInfo.minCidr info)
     && match IpCategoryInfo.minCidr info with
        | Some m => parentCidr <? m
        | None => false
        end
  then
    Some (mkConfigError true "Invalid Mask for Private IP"
            ("The " ++ showString (IpCategoryInfo.rangeName info)
             ++ " range requires a mask of /"
             ++ showNumber (IpCategoryInfo.minCidr info)
             ++ " or higher to stay private."))
  else if isPublicType (IpCategoryInfo.type info) then
    let overlap := IpUtils.checkPrivateOverlap ip parentCidr in
    if truthyString overlap then
      Some (mkConfigError true "Public IP Overlaps Private Range"
              ("This configuration creates a network that overlaps with the private "
               ++ showString overlap ++ " range."))
    else None
  else None.

Definition result (st : State) : SubnetDetails.t :=
  IpUtils.calculateSubnet (ipInput st) (cidrInput st) (Some (parentCidrInput st)).

Definition isValid (st : State) : bool :=
  let res := result st in
  if negb (SubnetDetails.isValid res) then false
  else if match configError st with Some _ => true | None => false end then false
  else cidrInput st >=? parentCidrInput st.

Definition subnetTable (st : State) : SubnetTable.t :=
  let res := result st in
  if negb (isValid st) then SubnetTable.mk [] 0 false
  else
    IpUtils.generateSubnetTable (ipInput st) (cidrInput st)
      (SubnetDetails.baseCidr res) None.

(** [text.split('')]: the characters, each as a string. *)
Fixpoint splitChars (s : string) : list string :=
  match s with
  | EmptyString => []
  | String c r => String c EmptyString :: splitChars r
  end.

(** [chars.map((bit, index) => ...)] of [bitVisuals], from [index] on. *)
Fixpoint bitDetails (chars : list string) (index : Z) (cidr baseCidr : Z)
  : list BitDetail :=
  match chars with
  | [] => []
  | bit :: rest =>
      mkBitDetail bit
        (if index <? baseCidr then network
         else if index <? cidr then subnet
         else host)
      :: bitDetails rest (index + 1) cidr baseCidr
  end.

Definition bitVisuals (st : State) : list BitDetail :=
  let res := result st in
  if negb (SubnetDetails.isValid res) then []
  else
    bitDetails (splitChars (SubnetDetails.binaryIp res)) 0
      (cidrInput st) (SubnetDetails.baseCidr res).

Definition maskVisuals (st : State) : list string :=
  let res := result st in
  if SubnetDetails.isValid res then splitChars (SubnetDetails.binaryMask res)
  else [].

(** [xs.slice(from, to)] for [0 <= from <= to]. *)
Definition slice {A : Type} (xs : list A) (from to : nat) : list A :=
  firstn (to - from) (skipn from xs).

Definition visualRows (st : State)
  : option (list (list BitDetail) * list (list string)) :=
  let ip := bitVisuals st in
  let mask := maskVisuals st in
  if (Nat.ltb (List.length ip) 32 || Nat.ltb (List.length mask) 32)%bool then None
  else Some ([slice ip 0 16; slice ip 16 32], [slice mask 0 16; slice mask 16 32]).

(** [updateIp]: the text of the input element becomes the address. *)
Definition updateIp (st : State) (value : string) : State :=
  mkState value (cidrInput st) (parentCidrInput st).

(** [updateCidr] and [updateParentCidr] store [parseInt(value, 10)].  A value
    without digits would store [NaN], which the integer fields of [State] do
    not hold: the result is then [None]. *)
Definition updateCidr (st : State) (value : string) : option State :=
  match JS.parseInt value with
  | Some v => Some (mkState (ipInput st) v (parentCidrInput st))
  | None => None
  end.

Definition updateParentCidr (st : State) (value : string) : option State :=
  match JS.parseInt value with
  | Some v =>
      let st1 := mkState (ipInput st) (cidrInput st) v in
      Some (if cidrInput st1 <? v
            then mkState (ipInput st1) v (parentCidrInput st1)
            else st1)
  | None => None
  end.

End SubnetCalculatorComponent.

(** ** Reference definitions

    The notions the documentation of the engine is written in, stated
    independently of the code above and compared with it below. *)

Module Ref.

(** The 256 octet values. *)
Definition octets : list Z := map Z.of_nat (seq 0 256).

(** The 33 prefix lengths. *)
Definition prefixes : list Z := map Z.of_nat (seq 0 33).

(** The integer of four octets, most significant first. *)
Definition quad (a b c d : Z) : Z := a * 16777216 + b * 65536 + c * 256 + d.

(** A prefix length counts the leading one-bits of its mask: all ones
    shifted left by [32 - p] bits, kept to 32 bits; no bit is left at
    [p = 0]. *)
Definition mask (p : Z) : Z := Z.shiftl (Z.ones 32) (32 - p) mod JS.two32.

(** Bitwise NOT on 32 bits. *)
Definition not32 (m : Z) : Z := Z.lxor m (Z.ones 32).

(** A non-empty string of decimal digits and its value. *)
Fixpoint decimalDigits (s : string) (acc : Z) : option Z :=
  match s with
  | EmptyString => Some acc
  | String c r =>
      match JS.digitValue c with
      | Some d => decimalDigits r (10 * acc + d)
      | None => None
      end
  end.

Definition decimalValue (s : string) : option Z :=
  match s with
  | EmptyString => None
  | _ => decimalDigits s 0
  end.

(** A part is a decimal integer in [0,255] whose canonical decimal
    rendering is the part itself. *)
Definition canonicalOctet (part : string) : bool :=
  match decimalValue part with
  | Some n => (0 <=? n) && (n <=? 255) && String.eqb (JS.toString n) part
  | None => false
  end.

(** Splitting on '.' yields exactly four canonical parts. *)
Definition dottedQuad (text : string) : bool :=
  match JS.split "." text with
  | [p1; p2; p3; p4] =>
      canonicalOctet p1 && canonicalOctet p2 && canonicalOctet p3 && canonicalOctet p4
  | _ => false
  end.

Definition isDigit (c : ascii) : bool :=
  match JS.digitValue c with Some _ => true | None => false end.

Fixpoint allDigits (s : string) : bool :=
  match s with
  | EmptyString => true
  | String c r => isDigit c && allDigits r
  end.

(** No leading zero other than in the literal "0". *)
Definition noLeadingZero (s : string) : bool :=
  match s with
  | String "0" (String _ _) => false
  | _ => true
  end.

Fixpoint allBinary (s : string) : bool :=
  match s with
  | EmptyString => true
  | String c r => (Ascii.eqb c "0" || Ascii.eqb c "1") && allBinary r
  end.

(** Membership of the CIDR block [base/p]: the [2^(32-p)] addresses from
    [base] on. *)
Definition inBlock (long base p : Z) : bool :=
  (base <=? long) && (long <? base + 2 ^ (32 - p)).

(** The RFC 1918 blocks in their fixed order: base, prefix, name. *)
Definition rfc1918 : list (Z * Z * string) :=
  [ (quad 10 0 0 0, 8, "10.0.0.0/8");
    (quad 172 16 0 0, 12, "172.16.0.0/12");
    (quad 192 168 0 0, 16, "192.168.0.0/16") ].

(** The classification by priority: type, range name, minimum prefix. *)
Definition classify (long : Z) : IpType * option string * option Z :=
  match find (fun '(base, p, _) => inBlock long base p) rfc1918 with
  | Some (_, p, name) => (Private, Some name, Some p)
  | None =>
      if inBlock long (quad 127 0 0 0) 8 then (Loopback, None, None)
      else if inBlock long (quad 169 254 0 0) 16 then (LinkLocal, None, None)
      else if inBlock long (quad 100 64 0 0) 10 then (CGNAT, None, None)
      else if inBlock long (quad 224 0 0 0) 4 then (Multicast, None, None)
      else if inBlock long (quad 240 0 0 0) 4 then (Reserved, None, None)
      else (Public, None, None)
  end.

(** What [getIpCategory] reports, as type, range name and minimum prefix. *)
Definition categoryOf (ip : string) : IpType * option string * option Z :=
  let info := IpUtils.getIpCategory ip in
  (IpCategoryInfo.type info, IpCategoryInfo.rangeName info,
   IpCategoryInfo.minCidr info).

(** The span of the network of [a] under prefix [p]. *)
Definition spanStart (a p : Z) : Z := Z.land a (mask p).
Definition spanEnd (a p : Z) : Z := Z.lor (spanStart a p) (not32 (mask p)).

(** The first RFC 1918 block meeting the span [start, end]. *)
Definition firstOverlap (start end_ : Z) : option string :=
  match find (fun '(base, p, _) =>
                (start <=? base + 2 ^ (32 - p) - 1) && (end_ >=? base)) rfc1918 with
  | Some (_, _, name) => Some name
  | None => None
  end.

(** The default prefix of the legacy class of a first octet. *)
Definition classDefaultPrefix (firstOctet : Z) : Z :=
  if (0 <=? firstOctet) && (firstOctet <=? 127) then 8          (* A *)
  else if (128 <=? firstOctet) && (firstOctet <=? 191) then 16  (* B *)
  else if (192 <=? firstOctet) && (firstOctet <=? 223) then 24  (* C *)
  else if (224 <=? firstOctet) && (firstOctet <=? 239) then 0   (* D *)
  else if (240 <=? firstOctet) && (firstOctet <=? 255) then 0   (* E *)
  else 0.

(** The first octet of an address. *)
Definition firstOctet (a : Z) : Z := a / 16777216.

(** The invalid-input record as the documentation words it: validity false,
    every numeric field zero, every string field empty. *)
Definition zeroedDetails (d : SubnetDetails.t) : Prop :=
  SubnetDetails.isValid d = false /\
  SubnetDetails.cidr d = 0 /\ SubnetDetails.hostsPerSubnet d = 0 /\
  SubnetDetails.hostBits d = 0 /\ SubnetDetails.borrowedBits d = 0 /\
  SubnetDetails.subnetsCreated d = 0 /\ SubnetDetails.defaultCidr d = 0 /\
  SubnetDetails.baseCidr d = 0 /\
  SubnetDetails.ip d = "" /\ SubnetDetails.subnetMask d = "" /\
  SubnetDetails.networkAddress d = "" /\ SubnetDetails.broadcastAddress d = "" /\
  SubnetDetails.firstHost d = "" /\ SubnetDetails.lastHost d = "" /\
  SubnetDetails.networkClass d = "" /\ SubnetDetails.binaryIp d = "" /\
  SubnetDetails.binaryMask d = "" /\ SubnetDetails.binaryNet d = "".

Definition emptyTable : SubnetTable.t := SubnetTable.mk [] 0 false.

(** The number of rows marked current. *)
Definition currentCount (rows : list SubnetRow.t) : nat :=
  List.length (filter SubnetRow.isCurrent rows).

(** The value of a string of binary digits, most significant first, on top
    of the value [acc] of the digits already read. *)
Definition bitOf (c : ascii) : Z := if Ascii.eqb c "1" then 1 else 0.

Fixpoint binaryValue (s : string) (acc : Z) : Z :=
  match s with
  | EmptyString => acc
  | String c r => binaryValue r (2 * acc + bitOf c)
  end.

(** The first [n] characters of a string. *)
Fixpoint takeChars (n : nat) (s : string) : string :=
  match n, s with
  | S k, String c r => String c (takeChars k r)
  | _, _ => EmptyString
  end.

(** The four octets of the low 32 bits of a number, most significant first. *)
Definition octetsOf (long : Z) : list Z :=
  let u := long mod 4294967296 in
  [u / 16777216 mod 256; u / 65536 mod 256; u / 256 mod 256; u mod 256].

(** An octet as eight binary digits. *)
Definition octetBits (o : Z) : string :=
  IpUtils.padStart 8 "0" (IpUtils.toBinaryDigits 8 o EmptyString).

(** The position, from 0, of the subnet of [a] among the [/cidr] subnets of
    its [/baseCidr] network. *)
Definition subnetIndex (a baseCidr cidr : Z) : Z :=
  (a - Z.land a (mask baseCidr)) / 2 ^ (32 - cidr).

(** The colouring of the 32 address bits: network, then subnet, then host. *)
Definition bitLayout (parent cidr : Z) : list SubnetCalculatorComponent.BitType :=
  (repeat SubnetCalculatorComponent.network (Z.to_nat parent)
   ++ repeat SubnetCalculatorComponent.subnet (Z.to_nat (cidr - parent))
   ++ repeat SubnetCalculatorComponent.host (Z.to_nat (32 - cidr)))%list.

(** The address interval of a row, read back from its two texts. *)
Definition rowStart (row : SubnetRow.t) : Z :=
  IpUtils.ipToLong (SubnetRow.networkAddress row).
Definition rowEnd (row : SubnetRow.t) : Z :=
  IpUtils.ipToLong (SubnetRow.broadcastAddress row).

(** The network interval of a calculation, read back from its two texts. *)
Definition networkOf (d : SubnetDetails.t) : Z :=
  IpUtils.ipToLong (SubnetDetails.networkAddress d).
Definition broadcastOf (d : SubnetDetails.t) : Z :=
  IpUtils.ipToLong (SubnetDetails.broadcastAddress d).

(** An address is private when it lies in one of the three RFC 1918 ranges
    of the table of the source. *)
Definition inPrivateRange (long : Z) : bool :=
  existsb (IpUtils.inRange long) IpUtils.PRIVATE_RANGES.

End Ref.

Import Ref.

(** * Properties *)

(** Linear arithmetic with division and remainder by literals. *)
Ltac dlia := Z.div_mod_to_equations; lia.

(** ** The embedding on concrete inputs *)

Example parseInt_examples :
  JS.parseInt "10" = Some 10 /\ JS.parseInt "04" = Some 4 /\
  JS.parseInt " 7" = Some 7 /\ JS.parseInt "+7" = Some 7 /\
  JS.parseInt "-0" = Some 0 /\ JS.parseInt "12ab" = Some 12 /\
  JS.parseInt "" = None /\ JS.parseInt "a" = None /\ JS.parseInt "- 1" = None.
Proof. vm_compute. repeat split. Qed.

Example split_examples :
  JS.split "." "" = [""] /\ JS.split "." "1..2." = ["1"; ""; "2"; ""] /\
  JS.split "." "192.168.1.10" = ["192"; "168"; "1"; "10"].
Proof. vm_compute. repeat split. Qed.

(** The third shift of [ipToLong] on 192.168.1.10 leaves the 32-bit signed
    range; [>>> 0] brings the sum back. *)
Example ipToLong_example :
  JS.shl 12625921 8 = -1062731520 /\
  JS.ushr (-1062731520 + 10) 0 = 3232235786 /\
  ipToLong "192.168.1.10" = 3232235786 /\
  longToIp 3232235786 = "192.168.1.10".
Proof. vm_compute. repeat split. Qed.

Example shift_count_examples :
  JS.shl (-1) 8 = -256 /\ JS.ushr (JS.shl (-1) 8) 0 = 4294967040 /\
  JS.shl (-1) 32 = -1 /\ JS.shl (-1) 0 = -1 /\ JS.bnot (-256) = 255.
Proof. vm_compute. repeat split. Qed.

Example calculateSubnet_example :
  calculateSubnet "192.168.1.10" 26 (Some 24) =
  SubnetDetails.mk "192.168.1.10" 26 "255.255.255.192" "192.168.1.0"
    "192.168.1.63" "192.168.1.1" "192.168.1.62" 62 6 2 4 "C" 24 24
    "11000000101010000000000100001010" "11111111111111111111111111000000"
    "11000000101010000000000100000000" true.
Proof. vm_compute. reflexivity. Qed.

(** ** The 32-bit operators in arithmetic terms *)

Section JsArith.

Lemma toUint32_range x : 0 <= JS.toUint32 x < JS.two32.
Proof. unfold JS.toUint32, JS.two32. apply Z.mod_pos_bound. lia. Qed.

Lemma toUint32_small x : 0 <= x < JS.two32 -> JS.toUint32 x = x.
Proof. unfold JS.toUint32. intros. now apply Z.mod_small. Qed.

Lemma toUint32_toInt32 x : JS.toUint32 (JS.toInt32 x) = JS.toUint32 x.
Proof.
  unfold JS.toUint32, JS.toInt32, JS.two32, JS.two31.
  destruct (Z.ltb_spec (x mod 4294967296) 2147483648); dlia.
Qed.

Lemma toInt32_small x : - JS.two31 <= x < JS.two31 -> JS.toInt32 x = x.
Proof.
  unfold JS.toInt32, JS.two32, JS.two31. intros.
  destruct (Z.ltb_spec (x mod 4294967296) 2147483648); dlia.
Qed.

Lemma ushr_0 x : JS.ushr x 0 = JS.toUint32 x.
Proof. unfold JS.ushr. now rewrite Z.shiftr_0_r. Qed.

Lemma land_255 x : Z.land x 255 = x mod 256.
Proof. change 255 with (Z.ones 8). rewrite Z.land_ones by lia. reflexivity. Qed.

Lemma toUint32_land_ones x : JS.toUint32 x = Z.land x (Z.ones 32).
Proof. rewrite Z.land_ones by lia. reflexivity. Qed.

Lemma toUint32_band a b :
  JS.toUint32 (JS.band a b) = Z.land (JS.toUint32 a) (JS.toUint32 b).
Proof.
  unfold JS.band. rewrite toUint32_toInt32.
  rewrite <- (toUint32_toInt32 a), <- (toUint32_toInt32 b).
  rewrite !toUint32_land_ones.
  apply Z.bits_inj'. intros n Hn. rewrite !Z.land_spec.
  destruct (Z.testbit (JS.toInt32 a) n), (Z.testbit (JS.toInt32 b) n),
    (Z.testbit (Z.ones 32) n); reflexivity.
Qed.

Lemma toUint32_bor a b :
  JS.toUint32 (JS.bor a b) = Z.lor (JS.toUint32 a) (JS.toUint32 b).
Proof.
  unfold JS.bor. rewrite toUint32_toInt32.
  rewrite <- (toUint32_toInt32 a), <- (toUint32_toInt32 b).
  rewrite !toUint32_land_ones.
  apply Z.bits_inj'. intros n Hn. rewrite !Z.land_spec, !Z.lor_spec, !Z.land_spec.
  destruct (Z.testbit (JS.toInt32 a) n), (Z.testbit (JS.toInt32 b) n),
    (Z.testbit (Z.ones 32) n); reflexivity.
Qed.

Lemma toUint32_bnot a :
  JS.toUint32 (JS.bnot a) = JS.two32 - 1 - JS.toUint32 a.
Proof.
  unfold JS.bnot. rewrite toUint32_toInt32.
  rewrite <- (toUint32_toInt32 a).
  unfold JS.toUint32, JS.two32, Z.lnot, Z.pred. dlia.
Qed.

(** The unsigned value of [-1 << (32 - cidr)]. *)
Lemma mask_uint32 cidr :
  1 <= cidr <= 32 ->
  JS.toUint32 (JS.shl (-1) (32 - cidr)) = JS.two32 - 2 ^ (32 - cidr).
Proof.
  intros H.
  assert (Hc : In cidr (map Z.of_nat (seq 1 32))).
  { apply in_map_iff. exists (Z.to_nat cidr). split; [lia|].
    apply in_seq. lia. }
  cbv [seq map] in Hc. simpl in Hc.
  repeat (destruct Hc as [<- | Hc]; [vm_compute; reflexivity|]).
  destruct Hc.
Qed.

(** A shift by 32 is a shift by 0: at [cidr = 0] the mask is all ones. *)
Lemma mask_uint32_0 : JS.toUint32 (JS.shl (-1) (32 - 0)) = JS.two32 - 1.
Proof. reflexivity. Qed.

Lemma land_high_mask a k :
  0 <= a < JS.two32 -> 0 <= k <= 32 ->
  Z.land a (JS.two32 - 2 ^ k) = a - a mod 2 ^ k.
Proof.
  intros Ha Hk.
  assert (Hpk : 0 < 2 ^ k) by (apply Z.pow_pos_nonneg; lia).
  replace (JS.two32 - 2 ^ k) with (Z.ones 32 - Z.ones k)
    by (rewrite !Z.ones_equiv; unfold JS.two32; change (2 ^ 32) with 4294967296; lia).
  rewrite Z.sub_nocarry_ldiff.
  2:{ apply Z.bits_inj'. intros n Hn. rewrite Z.ldiff_spec, Z.bits_0.
      destruct (Z.ltb_spec n k).
      - rewrite (Z.ones_spec_low 32 n) by lia. now rewrite andb_false_r.
      - rewrite (Z.ones_spec_high k n) by lia. reflexivity. }
  assert (E : Z.land a (Z.ldiff (Z.ones 32) (Z.ones k)) = Z.ldiff a (Z.ones k)).
  { rewrite <- (toUint32_small a Ha) at 2. rewrite toUint32_land_ones.
    apply Z.bits_inj'. intros n Hn.
    rewrite !Z.land_spec, !Z.ldiff_spec, Z.land_spec.
    destruct (Z.testbit a n), (Z.testbit (Z.ones 32) n),
      (Z.testbit (Z.ones k) n); reflexivity. }
  rewrite E, Z.ldiff_ones_r by lia.
  rewrite Z.shiftr_div_pow2, Z.shiftl_mul_pow2 by lia.
  pose proof (Z.div_mod a (2 ^ k)). lia.
Qed.

Lemma lor_low_ones n k :
  0 <= k -> n mod 2 ^ k = 0 -> Z.lor n (2 ^ k - 1) = n + 2 ^ k - 1.
Proof.
  intros Hk Hn.
  replace (2 ^ k - 1) with (Z.ones k) by (rewrite Z.ones_equiv; lia).
  assert (Hd : Z.land n (Z.ones k) = 0) by (rewrite Z.land_ones by lia; exact Hn).
  rewrite <- Z.lxor_lor by exact Hd.
  rewrite <- Z.add_nocarry_lxor by exact Hd.
  rewrite Z.ones_equiv. lia.
Qed.

End JsArith.

(** ** The address codec *)

Section Codec.

Lemma in_octets n : 0 <= n <= 255 -> In n octets.
Proof.
  intros H. apply in_map_iff. exists (Z.to_nat n). split; [lia|].
  apply in_seq. lia.
Qed.

Lemma octets_forallb (P : Z -> bool) :
  forallb P octets = true -> forall n, 0 <= n <= 255 -> P n = true.
Proof.
  intros H n Hn. rewrite forallb_forall in H. apply H, in_octets, Hn.
Qed.

Lemma isValidPart_toString n :
  0 <= n <= 255 -> isValidPart (JS.toString n) = true.
Proof.
  apply (octets_forallb (fun n => isValidPart (JS.toString n))).
  vm_compute. reflexivity.
Qed.

Lemma isValidPart_inv part :
  isValidPart part = true ->
  exists n, 0 <= n <= 255 /\ JS.parseInt part = Some n /\ part = JS.toString n.
Proof.
  unfold isValidPart. destruct (JS.parseInt part) as [num|]; [|discriminate].
  intros H. apply andb_prop in H as [H He]. apply andb_prop in H as [H0 H1].
  exists num. repeat split; try lia. now apply String.eqb_eq.
Qed.

Lemma toString_inj_check :
  forallb (fun n =>
    forallb (fun m => negb (String.eqb (JS.toString n) (JS.toString m))
                      || (n =? m)) octets) octets = true.
Proof. vm_compute. reflexivity. Qed.

Lemma toString_inj n m :
  0 <= n <= 255 -> 0 <= m <= 255 -> JS.toString n = JS.toString m -> n = m.
Proof.
  intros Hn Hm He.
  pose proof (octets_forallb _ toString_inj_check n Hn) as G. cbv beta in G.
  pose proof (octets_forallb _ G m Hm) as G'. cbv beta in G'.
  rewrite He, String.eqb_refl in G'. simpl in G'. lia.
Qed.

Lemma parseInt_toString n :
  0 <= n <= 255 -> JS.parseInt (JS.toString n) = Some n.
Proof.
  intros Hn.
  destruct (isValidPart_inv _ (isValidPart_toString n Hn)) as (m & Hm & Hp & He).
  rewrite Hp. f_equal. symmetry. now apply toString_inj.
Qed.

Lemma split_not_nil sep s : JS.split sep s <> [].
Proof.
  destruct s as [|c r]; simpl; [discriminate|].
  destruct (Ascii.eqb c sep); [discriminate|].
  destruct (JS.split sep r); discriminate.
Qed.

(** Joining the parts of a split with the separator gives the text back. *)
Lemma join_split sep s :
  JS.join (String sep EmptyString) (JS.split sep s) = s.
Proof.
  induction s as [|c r IH]; simpl; [reflexivity|].
  destruct (Ascii.eqb_spec c sep) as [->|Hne].
  - pose proof (split_not_nil sep r) as Hnn.
    destruct (JS.split sep r) as [|h t] eqn:E; [contradiction|].
    simpl. f_equal. exact IH.
  - pose proof (split_not_nil sep r) as Hnn.
    destruct (JS.split sep r) as [|h t] eqn:E; [contradiction|].
    destruct t as [|h' t']; simpl in *; now rewrite IH.
Qed.

Lemma isValidIp_inv ip :
  isValidIp ip = true ->
  exists a b c d,
    (0 <= a <= 255 /\ 0 <= b <= 255 /\ 0 <= c <= 255 /\ 0 <= d <= 255) /\
    JS.split "." ip = [JS.toString a; JS.toString b; JS.toString c; JS.toString d].
Proof.
  unfold isValidIp.
  destruct (JS.split "." ip) as [|p1 [|p2 [|p3 [|p4 [|p5 t]]]]]; simpl;
    try discriminate.
  intros H.
  apply andb_prop in H as [H1 H]. apply andb_prop in H as [H2 H].
  apply andb_prop in H as [H3 H]. apply andb_prop in H as [H4 _].
  apply isValidPart_inv in H1 as (a & Ha & _ & ->).
  apply isValidPart_inv in H2 as (b & Hb & _ & ->).
  apply isValidPart_inv in H3 as (c & Hc & _ & ->).
  apply isValidPart_inv in H4 as (d & Hd & _ & ->).
  exists a, b, c, d. auto.
Qed.

Lemma isValidIp_intro ip a b c d :
  0 <= a <= 255 -> 0 <= b <= 255 -> 0 <= c <= 255 -> 0 <= d <= 255 ->
  JS.split "." ip = [JS.toString a; JS.toString b; JS.toString c; JS.toString d] ->
  isValidIp ip = true.
Proof.
  intros Ha Hb Hc Hd E. unfold isValidIp. rewrite E. simpl.
  now rewrite !isValidPart_toString by assumption.
Qed.

Lemma shl_8 x : JS.shl x 8 = JS.toInt32 (JS.toInt32 x * 256).
Proof. unfold JS.shl. change (JS.shiftCount 8) with 8. now rewrite Z.shiftl_mul_pow2. Qed.

Lemma ipToLong_quad ip a b c d :
  0 <= a <= 255 -> 0 <= b <= 255 -> 0 <= c <= 255 -> 0 <= d <= 255 ->
  JS.split "." ip = [JS.toString a; JS.toString b; JS.toString c; JS.toString d] ->
  ipToLong ip = quad a b c d.
Proof.
  intros Ha Hb Hc Hd E. unfold ipToLong. rewrite E. simpl.
  unfold ipToLong_step. rewrite !parseInt_toString by assumption.
  rewrite ushr_0, !shl_8.
  rewrite (toInt32_small 0) by (unfold JS.two31; lia).
  rewrite (toInt32_small (0 * 256)) by (unfold JS.two31; lia).
  rewrite (toInt32_small (0 * 256 + a)) by (unfold JS.two31; lia).
  rewrite (toInt32_small ((0 * 256 + a) * 256)) by (unfold JS.two31; lia).
  rewrite (toInt32_small ((0 * 256 + a) * 256 + b)) by (unfold JS.two31; lia).
  rewrite (toInt32_small (((0 * 256 + a) * 256 + b) * 256)) by (unfold JS.two31; lia).
  rewrite (toInt32_small (((0 * 256 + a) * 256 + b) * 256 + c)) by (unfold JS.two31; lia).
  unfold quad, JS.toUint32, JS.toInt32, JS.two32, JS.two31.
  destruct (Z.ltb_spec (((((0 * 256 + a) * 256 + b) * 256 + c) * 256) mod 4294967296)
              2147483648); dlia.
Qed.

Lemma ipToLong_range ip : 0 <= ipToLong ip < JS.two32.
Proof.
  unfold ipToLong. destruct (fold_left _ _ _).
  - rewrite ushr_0. apply toUint32_range.
  - unfold JS.two32. lia.
Qed.

Lemma band_255 x : JS.band x 255 = x mod 256.
Proof.
  unfold JS.band. rewrite (toInt32_small 255) by (unfold JS.two31; lia).
  rewrite land_255.
  rewrite toInt32_small.
  - unfold JS.toInt32, JS.two32, JS.two31.
    destruct (Z.ltb_spec (x mod 4294967296) 2147483648); dlia.
  - unfold JS.two31. dlia.
Qed.

Lemma ushr_div x k :
  0 <= k < 32 -> JS.ushr x k = JS.toUint32 x / 2 ^ k.
Proof.
  intros Hk. unfold JS.ushr.
  replace (JS.shiftCount k) with k.
  - apply Z.shiftr_div_pow2. lia.
  - unfold JS.shiftCount, JS.toUint32, JS.two32. dlia.
Qed.

(** [longToIp] reads the four octets of the low 32 bits of its argument. *)
Lemma longToIp_octets long :
  longToIp long =
  JS.join "." [ JS.toString (JS.toUint32 long / 16777216 mod 256);
                JS.toString (JS.toUint32 long / 65536 mod 256);
                JS.toString (JS.toUint32 long / 256 mod 256);
                JS.toString (JS.toUint32 long mod 256) ].
Proof.
  unfold longToIp. rewrite !band_255, !ushr_div by lia.
  replace (long mod 256) with (JS.toUint32 long mod 256)
    by (unfold JS.toUint32, JS.two32; dlia).
  reflexivity.
Qed.

Lemma longToIp_quad a b c d :
  0 <= a <= 255 -> 0 <= b <= 255 -> 0 <= c <= 255 -> 0 <= d <= 255 ->
  longToIp (quad a b c d) =
  JS.join "." [JS.toString a; JS.toString b; JS.toString c; JS.toString d].
Proof.
  intros Ha Hb Hc Hd. rewrite longToIp_octets.
  rewrite toUint32_small by (unfold quad, JS.two32; lia).
  unfold quad.
  replace ((a * 16777216 + b * 65536 + c * 256 + d) / 16777216 mod 256) with a by dlia.
  replace ((a * 16777216 + b * 65536 + c * 256 + d) / 65536 mod 256) with b by dlia.
  replace ((a * 16777216 + b * 65536 + c * 256 + d) / 256 mod 256) with c by dlia.
  replace ((a * 16777216 + b * 65536 + c * 256 + d) mod 256) with d by dlia.
  reflexivity.
Qed.

Lemma longToIp_toUint32 long : longToIp (JS.toUint32 long) = longToIp long.
Proof.
  rewrite !longToIp_octets.
  rewrite (toUint32_small (JS.toUint32 long)) by apply toUint32_range.
  reflexivity.
Qed.

Lemma longToIp_ipToLong ip : isValidIp ip = true -> longToIp (ipToLong ip) = ip.
Proof.
  intros H. destruct (isValidIp_inv ip H) as (a & b & c & d & (Ha & Hb & Hc & Hd) & E).
  rewrite (ipToLong_quad ip a b c d) by assumption.
  rewrite longToIp_quad by assumption.
  rewrite <- E. apply (join_split "."%char).
Qed.

Lemma split_digits_dot p r :
  allDigits p = true ->
  JS.split "." (p ++ String "." r) = p :: JS.split "." r.
Proof.
  induction p as [|c p IH]; intros H; [reflexivity|].
  simpl in H. apply andb_prop in H as [Hc Hp].
  cbn [append JS.split].
  destruct (Ascii.eqb_spec c ".") as [->|_]; [discriminate Hc|].
  now rewrite IH.
Qed.

Lemma split_digits p : allDigits p = true -> JS.split "." p = [p].
Proof.
  induction p as [|c p IH]; intros H; [reflexivity|].
  simpl in H. apply andb_prop in H as [Hc Hp].
  cbn [JS.split].
  destruct (Ascii.eqb_spec c ".") as [->|_]; [discriminate Hc|].
  now rewrite IH.
Qed.

Lemma toBinaryDigits_shape fuel : forall n acc,
  0 <= n < 2 ^ Z.of_nat fuel ->
  (String.length (toBinaryDigits fuel n acc) <= String.length acc + fuel)%nat /\
  (allBinary acc = true -> allBinary (toBinaryDigits fuel n acc) = true).
Proof.
  induction fuel as [|f IH]; intros n acc Hn; [simpl; split; [lia | auto]|].
  cbn [toBinaryDigits].
  destruct (Z.eqb_spec (n / 2) 0) as [Hz|Hz].
  - split; [simpl; lia|]. intros Hacc. cbn [allBinary]. rewrite Hacc.
    now destruct (Z.odd n).
  - assert (Hh : 0 <= n / 2 < 2 ^ Z.of_nat f).
    { rewrite Nat2Z.inj_succ, Z.pow_succ_r in Hn by lia. dlia. }
    destruct (IH (n / 2) (String (if Z.odd n then "1"%char else "0"%char) acc) Hh)
      as [Hl Hb].
    split; [simpl in Hl; lia|].
    intros Hacc. apply Hb. cbn [allBinary]. rewrite Hacc. now destruct (Z.odd n).
Qed.

Lemma repeatChar_length n c : String.length (repeatChar n c) = n.
Proof. induction n; simpl; congruence. Qed.

Lemma string_length_app s t :
  String.length (s ++ t) = (String.length s + String.length t)%nat.
Proof. induction s; simpl; congruence. Qed.

Lemma allBinary_app s t :
  allBinary s = true -> allBinary t = true -> allBinary (s ++ t) = true.
Proof.
  induction s as [|c s IH]; intros Hs Ht; [exact Ht|].
  simpl in *. apply andb_prop in Hs as [Hc Hs]. now rewrite Hc, IH.
Qed.

Lemma allBinary_repeat0 n : allBinary (repeatChar n "0") = true.
Proof. induction n; simpl; auto. Qed.

End Codec.

(** ** The parser against the grammar of dotted-decimal text *)

Section Grammar.

Lemma canonicalOctet_toString n :
  0 <= n <= 255 -> canonicalOctet (JS.toString n) = true.
Proof.
  apply (octets_forallb (fun n => canonicalOctet (JS.toString n))).
  vm_compute. reflexivity.
Qed.

Lemma canonicalOctet_inv part :
  canonicalOctet part = true -> exists n, 0 <= n <= 255 /\ part = JS.toString n.
Proof.
  unfold canonicalOctet. destruct (decimalValue part) as [n|]; [|discriminate].
  intros H. apply andb_prop in H as [H He]. apply andb_prop in H as [H0 H1].
  apply String.eqb_eq in He. exists n. split; [lia | now symmetry].
Qed.

(** The callback of the parser and the grammar accept the same parts. *)
Lemma isValidPart_canonicalOctet part : isValidPart part = canonicalOctet part.
Proof.
  destruct (isValidPart part) eqn:Ev, (canonicalOctet part) eqn:Ec;
    try reflexivity.
  - apply isValidPart_inv in Ev as (n & Hn & _ & ->).
    now rewrite canonicalOctet_toString in Ec.
  - apply canonicalOctet_inv in Ec as (n & Hn & ->).
    now rewrite isValidPart_toString in Ev.
Qed.

Lemma isValidIp_dottedQuad text : isValidIp text = dottedQuad text.
Proof.
  unfold isValidIp, dottedQuad.
  destruct (JS.split "." text) as [|p1 [|p2 [|p3 [|p4 [|p5 t]]]]]; simpl;
    try reflexivity.
  rewrite !isValidPart_canonicalOctet, andb_true_r, !andb_assoc. reflexivity.
Qed.

Lemma allDigits_toString n : 0 <= n <= 255 -> allDigits (JS.toString n) = true.
Proof.
  apply (octets_forallb (fun n => allDigits (JS.toString n))).
  vm_compute. reflexivity.
Qed.

Lemma noLeadingZero_toString n :
  0 <= n <= 255 -> noLeadingZero (JS.toString n) = true.
Proof.
  apply (octets_forallb (fun n => noLeadingZero (JS.toString n))).
  vm_compute. reflexivity.
Qed.

Lemma valid_parts_digits text part :
  isValidIp text = true -> In part (JS.split "." text) ->
  allDigits part = true /\ noLeadingZero part = true.
Proof.
  intros H Hin.
  destruct (isValidIp_inv text H) as (a & b & c & d & (Ha & Hb & Hc & Hd) & E).
  rewrite E in Hin. simpl in Hin.
  destruct Hin as [<-|[<-|[<-|[<-|[]]]]];
    split; auto using allDigits_toString, noLeadingZero_toString.
Qed.

End Grammar.

(** C4. Round trip: for every dotted-decimal string [S] the parser accepts,
    converting it to its 32-bit integer with [ipToLong] and rendering that
    integer with [longToIp] gives exactly [S] back. *)
Theorem longToIp_ipToLong_roundtrip (S : string) :
  isValidIp S = true -> longToIp (ipToLong S) = S.
Proof.
  intros H.
  destruct (isValidIp_inv S H) as (a & b & c & d & (Ha & Hb & Hc & Hd) & E).
  (* the integer is the four octets, and they render as the four parts *)
  rewrite (ipToLong_quad S a b c d Ha Hb Hc Hd E).
  rewrite (longToIp_quad a b c d Ha Hb Hc Hd).
  rewrite <- E. apply (join_split "."%char).
Qed.

Lemma longToIp_ipToLong_roundtrip_witness :
  isValidIp "192.168.1.10" = true /\
  longToIp (ipToLong "192.168.1.10") = "192.168.1.10".
Proof.
  split; [reflexivity | apply (longToIp_ipToLong_roundtrip "192.168.1.10"); reflexivity].
Defined.

(** C5. The parser accepts a text if and only if splitting it on '.' yields
    exactly four parts, each a decimal integer in [0,255] whose canonical
    decimal rendering is the part itself.  It rejects "256.1.1.1", "1.2.3",
    "1.2.3.04", "1.2.3.4.5" and "a.b.c.d"; every part of an accepted text
    consists of decimal digits only (no white space, no sign) and has no
    leading zero.  The parser is a total function: it answers on every text. *)
Theorem isValidIp_iff_dottedQuad :
  (forall text, isValidIp text = true <-> dottedQuad text = true) /\
  isValidIp "256.1.1.1" = false /\
  isValidIp "1.2.3" = false /\
  isValidIp "1.2.3.04" = false /\
  isValidIp "1.2.3.4.5" = false /\
  isValidIp "a.b.c.d" = false /\
  isValidIp "1.2.3. 4" = false /\
  isValidIp "1.2.3.+4" = false /\
  isValidIp "-1.2.3.4" = false /\
  (forall text part,
      isValidIp text = true -> In part (JS.split "." text) ->
      allDigits part = true /\ noLeadingZero part = true).
Proof.
  split; [intros text; now rewrite isValidIp_dottedQuad|].
  repeat (split; [reflexivity|]).
  exact valid_parts_digits.
Qed.

(** ** Rendering: the inverse direction and the binary form *)

Section Rendering.

Lemma split_join_octets a b c d :
  0 <= a <= 255 -> 0 <= b <= 255 -> 0 <= c <= 255 -> 0 <= d <= 255 ->
  JS.split "." (JS.join "." [JS.toString a; JS.toString b; JS.toString c; JS.toString d])
  = [JS.toString a; JS.toString b; JS.toString c; JS.toString d].
Proof.
  intros Ha Hb Hc Hd. cbn [JS.join append].
  rewrite !split_digits_dot by now apply allDigits_toString.
  now rewrite split_digits by now apply allDigits_toString.
Qed.

Lemma longToIp_valid long :
  isValidIp (longToIp long) = true /\
  ipToLong (longToIp long) = JS.toUint32 long.
Proof.
  pose proof (toUint32_range long) as Hr. unfold JS.two32 in Hr.
  assert (Ha : 0 <= JS.toUint32 long / 16777216 mod 256 <= 255) by dlia.
  assert (Hb : 0 <= JS.toUint32 long / 65536 mod 256 <= 255) by dlia.
  assert (Hc : 0 <= JS.toUint32 long / 256 mod 256 <= 255) by dlia.
  assert (Hd : 0 <= JS.toUint32 long mod 256 <= 255) by dlia.
  pose proof (split_join_octets _ _ _ _ Ha Hb Hc Hd) as E.
  rewrite <- longToIp_octets in E.
  split.
  - exact (isValidIp_intro _ _ _ _ _ Ha Hb Hc Hd E).
  - rewrite (ipToLong_quad _ _ _ _ _ Ha Hb Hc Hd E). unfold quad. dlia.
Qed.

Lemma toBinaryString_shape num :
  String.length (toBinaryString num) = 32%nat /\
  allBinary (toBinaryString num) = true.
Proof.
  unfold toBinaryString, padStart. rewrite ushr_0.
  pose proof (toUint32_range num) as Hr.
  destruct (toBinaryDigits_shape 32 (JS.toUint32 num) EmptyString Hr) as [Hl Hb].
  change (String.length EmptyString) with 0%nat in Hl.
  split.
  - rewrite string_length_app, repeatChar_length. lia.
  - apply allBinary_app; [apply allBinary_repeat0 | now apply Hb].
Qed.

End Rendering.

(** X4.  [longToIp] renders every number as a text the parser accepts, and
    [ipToLong] reads that text back as the low 32 bits of the number: on
    32-bit addresses the two conversions are inverse in this direction too. *)
Theorem ipToLong_longToIp_roundtrip long :
  isValidIp (longToIp long) = true /\
  ipToLong (longToIp long) = long mod 4294967296 /\
  (0 <= long < 4294967296 -> ipToLong (longToIp long) = long).
Proof.
  destruct (longToIp_valid long) as [Hv He].
  split; [exact Hv|]. split; [exact He|].
  intros Hr. rewrite He. now apply toUint32_small.
Qed.

(** X5.  [toBinaryString] renders every number as exactly 32 characters, each
    '0' or '1'; the address 192.168.1.10 reads
    11000000101010000000000100001010 and 0 reads as 32 zeros. *)
Theorem toBinaryString_32_bits num :
  String.length (toBinaryString num) = 32%nat /\
  allBinary (toBinaryString num) = true /\
  toBinaryString 3232235786 = "11000000101010000000000100001010" /\
  toBinaryString 0 = "00000000000000000000000000000000" /\
  toBinaryString (-256) = "11111111111111111111111100000000".
Proof.
  destruct (toBinaryString_shape num) as [Hl Hb].
  split; [exact Hl|]. split; [exact Hb|]. repeat split.
Qed.

(** ** The classifier *)

Section Classifier.

(** The comparison pair the source writes for one range is membership of
    the block with that base and prefix. *)
Lemma range_inBlock long lo hi base p :
  lo = base -> hi = base + 2 ^ (32 - p) - 1 ->
  (long >=? lo) && (long <=? hi) = inBlock long base p.
Proof.
  intros -> ->. unfold inBlock. rewrite Z.geb_leb. f_equal.
  destruct (Z.leb_spec long (base + 2 ^ (32 - p) - 1)),
    (Z.ltb_spec long (base + 2 ^ (32 - p))); lia || reflexivity.
Qed.

Lemma categoryOf_classify ip :
  categoryOf ip =
  if isValidIp ip then classify (ipToLong ip) else (Unknown, None, None).
Proof.
  unfold categoryOf, getIpCategory.
  destruct (isValidIp ip); simpl; [|reflexivity].
  generalize (ipToLong ip). intros long.
  unfold classify, rfc1918, PRIVATE_RANGES, inRange. cbn [find PrivateRange.start PrivateRange.end_].
  rewrite (range_inBlock long 167772160 184549375 (quad 10 0 0 0) 8) by reflexivity.
  rewrite (range_inBlock long 2886729728 2887778303 (quad 172 16 0 0) 12) by reflexivity.
  rewrite (range_inBlock long 3232235520 3232301055 (quad 192 168 0 0) 16) by reflexivity.
  rewrite (range_inBlock long 2130706432 2147483647 (quad 127 0 0 0) 8) by reflexivity.
  rewrite (range_inBlock long 2851995648 2852061183 (quad 169 254 0 0) 16) by reflexivity.
  rewrite (range_inBlock long 1681915904 1686110207 (quad 100 64 0 0) 10) by reflexivity.
  rewrite (range_inBlock long 3758096384 4026531839 (quad 224 0 0 0) 4) by reflexivity.
  rewrite (range_inBlock long 4026531840 4294967295 (quad 240 0 0 0) 4) by reflexivity.
  destruct (inBlock long (quad 10 0 0 0) 8); [reflexivity|].
  destruct (inBlock long (quad 172 16 0 0) 12); [reflexivity|].
  destruct (inBlock long (quad 192 168 0 0) 16); [reflexivity|].
  destruct (inBlock long (quad 127 0 0 0) 8); [reflexivity|].
  destruct (inBlock long (quad 169 254 0 0) 16); [reflexivity|].
  destruct (inBlock long (quad 100 64 0 0) 10); [reflexivity|].
  destruct (inBlock long (quad 224 0 0 0) 4); [reflexivity|].
  destruct (inBlock long (quad 240 0 0 0) 4); reflexivity.
Qed.

End Classifier.

(** C6. [getIpCategory] classifies an address text by the fixed priority
    order RFC 1918 private (10.0.0.0/8 with minimum prefix 8, 172.16.0.0/12
    with 12, 192.168.0.0/16 with 16), loopback 127.0.0.0/8, link-local
    169.254.0.0/16, CGNAT 100.64.0.0/10, multicast 224.0.0.0/4, reserved
    240.0.0.0/4, and Public otherwise; a text the parser rejects is Unknown.
    10.5.0.1 is Private in 10.0.0.0/8 with minimum prefix 8, 8.8.8.8 is
    Public, 127.0.0.1 Loopback, 169.254.1.1 Link-Local, 100.64.0.1 CGNAT and
    224.0.0.1 Multicast. *)
Theorem getIpCategory_priority_order :
  (forall ip,
      categoryOf ip =
      if isValidIp ip then classify (ipToLong ip) else (Unknown, None, None)) /\
  (forall ip, IpCategoryInfo.isPrivate (getIpCategory ip) = true <->
              IpCategoryInfo.type (getIpCategory ip) = Private) /\
  categoryOf "10.5.0.1" = (Private, Some "10.0.0.0/8", Some 8) /\
  categoryOf "8.8.8.8" = (Public, None, None) /\
  categoryOf "127.0.0.1" = (Loopback, None, None) /\
  categoryOf "169.254.1.1" = (LinkLocal, None, None) /\
  categoryOf "100.64.0.1" = (CGNAT, None, None) /\
  categoryOf "224.0.0.1" = (Multicast, None, None) /\
  categoryOf "10.5.0.01" = (Unknown, None, None).
Proof.
  split; [exact categoryOf_classify|].
  split; [|repeat split; reflexivity].
  intros ip. unfold getIpCategory.
  destruct (isValidIp ip); cbn [negb]; [|split; discriminate].
  unfold PRIVATE_RANGES; cbn [find].
  repeat match goal with
         | |- context [if ?c then _ else _] => destruct c
         end; cbn; split; intros H; first [reflexivity | discriminate H].
Qed.

(** ** The subnet calculator *)

Section Calculator.

Lemma prefixes_forallb (P : Z -> bool) :
  forallb P prefixes = true -> forall p, 0 <= p <= 32 -> P p = true.
Proof.
  intros H p Hp. rewrite forallb_forall in H. apply H.
  apply in_map_iff. exists (Z.to_nat p). split; [lia|]. apply in_seq. lia.
Qed.

Lemma mask_value p : 0 <= p <= 32 -> mask p = JS.two32 - 2 ^ (32 - p).
Proof.
  intros Hp. apply Z.eqb_eq. revert p Hp.
  apply (prefixes_forallb (fun p => mask p =? JS.two32 - 2 ^ (32 - p))).
  vm_compute. reflexivity.
Qed.

Lemma not32_mask_value p : 0 <= p <= 32 -> not32 (mask p) = 2 ^ (32 - p) - 1.
Proof.
  intros Hp. apply Z.eqb_eq. revert p Hp.
  apply (prefixes_forallb (fun p => not32 (mask p) =? 2 ^ (32 - p) - 1)).
  vm_compute. reflexivity.
Qed.

Lemma spanStart_arith a p :
  0 <= a < JS.two32 -> 0 <= p <= 32 -> spanStart a p = a - a mod 2 ^ (32 - p).
Proof.
  intros Ha Hp. unfold spanStart. rewrite mask_value by assumption.
  apply land_high_mask; [assumption | lia].
Qed.

Lemma spanEnd_arith a p :
  0 <= a < JS.two32 -> 0 <= p <= 32 ->
  spanEnd a p = spanStart a p + 2 ^ (32 - p) - 1.
Proof.
  intros Ha Hp. unfold spanEnd. rewrite not32_mask_value by assumption.
  apply lor_low_ones; [lia|].
  rewrite spanStart_arith by assumption.
  assert (0 < 2 ^ (32 - p)) by (apply Z.pow_pos_nonneg; lia).
  rewrite Zminus_mod_idemp_r, Z.sub_diag. now apply Z.mod_0_l, Z.neq_sym, Z.lt_neq.
Qed.

Lemma span_bounds a p :
  0 <= a < JS.two32 -> 0 <= p <= 32 ->
  0 <= spanStart a p <= a /\ a <= spanEnd a p < JS.two32.
Proof.
  intros Ha Hp. rewrite spanEnd_arith, spanStart_arith by assumption.
  assert (Hk : 0 < 2 ^ (32 - p)) by (apply Z.pow_pos_nonneg; lia).
  pose proof (Z.mod_pos_bound a _ Hk) as Hm.
  pose proof (Z.mod_le a _ (proj1 Ha) Hk) as Hle.
  assert (Hd : JS.two32 mod 2 ^ (32 - p) = 0).
  { unfold JS.two32. change 4294967296 with (2 ^ 32).
    replace 32 with ((32 - p) + p) at 1 by lia.
    rewrite Z.pow_add_r by lia. rewrite Z.mul_comm. apply Z.mod_mul. lia. }
  repeat split; try lia.
  (* the block of [a] ends below 2^32: both ends are multiples of its size *)
  pose proof (Z.div_mod a (2 ^ (32 - p)) ltac:(lia)) as Ea.
  pose proof (Z.div_mod JS.two32 (2 ^ (32 - p)) ltac:(lia)) as Et.
  rewrite Hd in Et.
  assert (a / 2 ^ (32 - p) < JS.two32 / 2 ^ (32 - p)) by nia.
  nia.
Qed.

Lemma calc_mask_uint cidr :
  1 <= cidr <= 32 -> JS.toUint32 (calc_maskLong cidr) = mask cidr.
Proof.
  intros H. unfold calc_maskLong. rewrite mask_uint32, mask_value by lia.
  reflexivity.
Qed.

Lemma calc_networkLong_land ip cidr :
  calc_networkLong ip cidr =
  Z.land (ipToLong ip) (JS.toUint32 (calc_maskLong cidr)).
Proof.
  unfold calc_networkLong. rewrite ushr_0, toUint32_band.
  now rewrite (toUint32_small (ipToLong ip)) by apply ipToLong_range.
Qed.

Lemma calc_networkLong_range ip cidr : 0 <= calc_networkLong ip cidr < JS.two32.
Proof. unfold calc_networkLong. rewrite ushr_0. apply toUint32_range. Qed.

Lemma calc_broadcastLong_lor ip cidr :
  calc_broadcastLong ip cidr =
  Z.lor (calc_networkLong ip cidr)
        (JS.two32 - 1 - JS.toUint32 (calc_maskLong cidr)).
Proof.
  unfold calc_broadcastLong. rewrite ushr_0, toUint32_bor, toUint32_bnot.
  now rewrite (toUint32_small (calc_networkLong ip cidr))
    by apply calc_networkLong_range.
Qed.

(** For a prefix of 1 to 32 the source's network and broadcast are the ends of
    the span of the address under the mask of that prefix. *)
Lemma calc_networkLong_span ip cidr :
  1 <= cidr <= 32 -> calc_networkLong ip cidr = spanStart (ipToLong ip) cidr.
Proof.
  intros H. rewrite calc_networkLong_land, calc_mask_uint by assumption.
  reflexivity.
Qed.

Lemma calc_broadcastLong_span ip cidr :
  1 <= cidr <= 32 -> calc_broadcastLong ip cidr = spanEnd (ipToLong ip) cidr.
Proof.
  intros H. rewrite calc_broadcastLong_lor, calc_networkLong_span by assumption.
  rewrite calc_mask_uint by assumption. unfold spanEnd.
  rewrite not32_mask_value, mask_value by lia. f_equal. lia.
Qed.

(** At prefix 0 the shift count 32 is taken modulo 32: the mask is all ones,
    and network and broadcast are both the address itself. *)
Lemma calc_prefix0 ip :
  JS.toUint32 (calc_maskLong 0) = 4294967295 /\
  calc_networkLong ip 0 = ipToLong ip /\
  calc_broadcastLong ip 0 = ipToLong ip.
Proof.
  assert (Hm : JS.toUint32 (calc_maskLong 0) = 4294967295) by reflexivity.
  assert (Hn : calc_networkLong ip 0 = ipToLong ip).
  { rewrite calc_networkLong_land, Hm. change 4294967295 with (Z.ones 32).
    rewrite <- toUint32_land_ones. apply toUint32_small, ipToLong_range. }
  repeat split; try assumption.
  rewrite calc_broadcastLong_lor, Hn, Hm. apply Z.lor_0_r.
Qed.

Lemma calculateSubnet_valid ip cidr parentCidr :
  isValidIp ip = true ->
  calculateSubnet ip cidr parentCidr =
  let hostBits := 32 - cidr in
  let hostsPerSubnet := if hostBits >? 0 then JS.pow2 hostBits - 2 else 0 in
  let netClass := calc_netClass ip in
  let baseCidr :=
    match parentCidr with
    | Some p => p
    | None => NetworkClass.defaultCidr netClass
    end in
  let borrowedBits :=
    if (baseCidr >? 0) && (cidr >=? baseCidr) then cidr - baseCidr else 0 in
  SubnetDetails.mk ip cidr
    (longToIp (calc_maskLong cidr))
    (longToIp (calc_networkLong ip cidr))
    (longToIp (calc_broadcastLong ip cidr))
    (if cidr <? 31 then longToIp (calc_networkLong ip cidr + 1) else "N/A")
    (if cidr <? 31 then longToIp (calc_broadcastLong ip cidr - 1) else "N/A")
    (if hostsPerSubnet >? 0 then hostsPerSubnet else 0)
    hostBits borrowedBits (JS.pow2 borrowedBits)
    (NetworkClass.char netClass) (NetworkClass.defaultCidr netClass) baseCidr
    (toBinaryString (ipToLong ip)) (toBinaryString (calc_maskLong cidr))
    (toBinaryString (calc_networkLong ip cidr)) true.
Proof.
  intros H. unfold calculateSubnet. rewrite H. cbn [negb].
  now rewrite !ushr_0, !longToIp_toUint32.
Qed.

Lemma calculateSubnet_invalid ip cidr parentCidr :
  isValidIp ip = false ->
  calculateSubnet ip cidr parentCidr =
  SubnetDetails.mk ip cidr "" "" "" "" "" 0 0 0 0 "-" 0 0 "" "" "" false.
Proof. intros H. unfold calculateSubnet. now rewrite H. Qed.

Lemma hostsPerSubnet_max hostBits :
  0 <= hostBits ->
  (let h := if hostBits >? 0 then JS.pow2 hostBits - 2 else 0 in
   if h >? 0 then h else 0) = Z.max 0 (2 ^ hostBits - 2).
Proof.
  intros H. unfold JS.pow2. cbv zeta.
  destruct (Z.gtb_spec hostBits 0) as [Hp|Hp].
  - assert (2 ^ 1 <= 2 ^ hostBits) by (apply Z.pow_le_mono_r; lia).
    change (2 ^ 1) with 2 in *.
    destruct (Z.gtb_spec (2 ^ hostBits - 2) 0); lia.
  - replace hostBits with 0 by lia. reflexivity.
Qed.

Lemma getNetworkClass_default firstOctet :
  NetworkClass.defaultCidr (getNetworkClass firstOctet) =
  classDefaultPrefix firstOctet.
Proof.
  unfold getNetworkClass, classDefaultPrefix. rewrite !Z.geb_leb.
  repeat match goal with
         | |- context [if ?c then _ else _] => destruct c; cbn
         end; reflexivity.
Qed.

Lemma calc_netClass_valid ip :
  isValidIp ip = true ->
  calc_netClass ip = getNetworkClass (firstOctet (ipToLong ip)) /\
  0 <= firstOctet (ipToLong ip) <= 255.
Proof.
  intros H. destruct (isValidIp_inv ip H) as (a & b & c & d & (Ha & Hb & Hc & Hd) & E).
  rewrite (ipToLong_quad ip a b c d) by assumption.
  unfold calc_netClass. rewrite E. cbn [hd].
  rewrite parseInt_toString by assumption.
  replace (firstOctet (quad a b c d)) with a by (unfold firstOctet, quad; dlia).
  split; [reflexivity | lia].
Qed.

End Calculator.

(** C1, at prefix 0.  The documentation gives prefix 0 the mask 0, the network
    0.0.0.0 and the broadcast 255.255.255.255.  [calculateSubnet] on
    192.168.1.10 with prefix 0 reports the mask 255.255.255.255 and the address
    itself as network and as broadcast: the shift [-1 << 32] is a shift by 0. *)
Theorem calculateSubnet_prefix0_all_ones :
  let d := calculateSubnet "192.168.1.10" 0 None in
  isValidIp "192.168.1.10" = true /\
  SubnetDetails.subnetMask d = "255.255.255.255" /\
  SubnetDetails.networkAddress d = "192.168.1.10" /\
  SubnetDetails.broadcastAddress d = "192.168.1.10" /\
  longToIp (mask 0) = "0.0.0.0" /\
  longToIp (spanStart (ipToLong "192.168.1.10") 0) = "0.0.0.0" /\
  longToIp (spanEnd (ipToLong "192.168.1.10") 0) = "255.255.255.255".
Proof. vm_compute. repeat split. Qed.

(** X1 (C1 on prefixes 1 to 32).  For every valid address [a] and prefix length in
    [1,32], [calculateSubnet] reports the mask of all ones shifted left by
    [32 - cidr] bits as an unsigned 32-bit value, the network [a AND mask] and
    the broadcast [network OR NOT mask]; they satisfy
    [network <= a <= broadcast] and [network AND NOT mask = 0]. *)
Theorem calculateSubnet_mask_network_broadcast ip cidr parentCidr :
  isValidIp ip = true -> 1 <= cidr <= 32 ->
  let d := calculateSubnet ip cidr parentCidr in
  let a := ipToLong ip in
  let network := Z.land a (mask cidr) in
  let broadcast := Z.lor network (not32 (mask cidr)) in
  SubnetDetails.isValid d = true /\
  SubnetDetails.subnetMask d = longToIp (mask cidr) /\
  SubnetDetails.networkAddress d = longToIp network /\
  SubnetDetails.broadcastAddress d = longToIp broadcast /\
  0 <= network <= a /\ a <= broadcast < 4294967296 /\
  Z.land network (not32 (mask cidr)) = 0.
Proof.
  intros H Hc. cbv zeta. rewrite calculateSubnet_valid by assumption.
  cbn [SubnetDetails.isValid SubnetDetails.subnetMask
       SubnetDetails.networkAddress SubnetDetails.broadcastAddress].
  rewrite calc_networkLong_span, calc_broadcastLong_span by assumption.
  rewrite <- (longToIp_toUint32 (calc_maskLong cidr)), calc_mask_uint by assumption.
  fold (spanStart (ipToLong ip) cidr). fold (spanEnd (ipToLong ip) cidr).
  pose proof (span_bounds (ipToLong ip) cidr (ipToLong_range ip) ltac:(lia)) as Hb.
  change JS.two32 with 4294967296 in Hb.
  repeat split; try reflexivity; try lia.
  rewrite not32_mask_value by lia.
  assert (0 < 2 ^ (32 - cidr)) by (apply Z.pow_pos_nonneg; lia).
  replace (2 ^ (32 - cidr) - 1) with (Z.ones (32 - cidr)) by (rewrite Z.ones_equiv; lia).
  rewrite Z.land_ones by lia.
  rewrite spanStart_arith by (apply ipToLong_range || lia).
  rewrite Zminus_mod_idemp_r, Z.sub_diag. apply Z.mod_0_l. lia.
Qed.

Lemma calculateSubnet_mask_network_broadcast_witness :
  let d := calculateSubnet "192.168.1.10" 26 (Some 24) in
  SubnetDetails.subnetMask d = longToIp (mask 26) /\
  SubnetDetails.networkAddress d = "192.168.1.0" /\
  SubnetDetails.broadcastAddress d = "192.168.1.63".
Proof.
  pose proof (calculateSubnet_mask_network_broadcast "192.168.1.10" 26 (Some 24)
                eq_refl ltac:(lia)) as H.
  cbv zeta in H. destruct H as (_ & Hm & Hn & Hb & _).
  cbv zeta. split; [exact Hm|].
  split; [rewrite Hn | rewrite Hb]; reflexivity.
Defined.

(** C3, as documented: on an invalid address every numeric field is zero and
    every string field is empty.  On the rejected text "256.1.1.1" with prefix
    24 the record echoes the text and the prefix and carries the class "-". *)
Lemma calculateSubnet_invalid_not_zeroed :
  isValidIp "256.1.1.1" = false /\
  ~ zeroedDetails (calculateSubnet "256.1.1.1" 24 None).
Proof.
  split; [reflexivity|].
  intros (_ & Hc & _). vm_compute in Hc. discriminate Hc.
Qed.

(** C3, amended.  For every text the parser rejects, [calculateSubnet] returns
    (it never throws) the record with [isValid = false], the input text and
    prefix echoed in [ip] and [cidr], the class "-", every other numeric field
    zero and every other string field empty; [generateSubnetTable] returns no
    rows, [totalCount = 0] and [truncated = false].  [generateSubnetTable]
    returns that same empty result whenever [cidr < baseCidr], also for a valid
    address. *)
Theorem invalid_input_results ip cidr parentCidr baseCidr limit :
  (isValidIp ip = false ->
     calculateSubnet ip cidr parentCidr =
       SubnetDetails.mk ip cidr "" "" "" "" "" 0 0 0 0 "-" 0 0 "" "" "" false /\
     generateSubnetTable ip cidr baseCidr limit = emptyTable) /\
  (cidr < baseCidr -> generateSubnetTable ip cidr baseCidr limit = emptyTable).
Proof.
  split.
  - intros H. split; [now apply calculateSubnet_invalid|].
    unfold generateSubnetTable. now rewrite H.
  - intros H. unfold generateSubnetTable.
    destruct (Z.ltb_spec cidr baseCidr); [|lia].
    now rewrite orb_true_r.
Qed.

Lemma invalid_input_results_witness :
  calculateSubnet "a.b.c.d" 24 None =
    SubnetDetails.mk "a.b.c.d" 24 "" "" "" "" "" 0 0 0 0 "-" 0 0 "" "" "" false /\
  generateSubnetTable "a.b.c.d" 26 24 None = emptyTable /\
  generateSubnetTable "192.168.1.10" 24 26 None = emptyTable.
Proof.
  destruct (invalid_input_results "a.b.c.d" 24 None 24 None) as [H1 _].
  destruct (invalid_input_results "a.b.c.d" 26 None 24 None) as [H2 _].
  destruct (invalid_input_results "192.168.1.10" 24 None 26 None) as [_ H3].
  split; [apply H1; reflexivity|].
  split; [apply H2; reflexivity | apply H3; lia].
Defined.

(** C8, at prefix 0.  The documentation gives the network of prefix 0 the
    first host 0.0.0.1, one after the network address 0.0.0.0, and the last
    host 255.255.255.254, one before the broadcast address 255.255.255.255.
    [calculateSubnet] on 192.168.1.10 with prefix 0 takes the address itself
    as network and as broadcast (its mask [-1 << 32] is all ones) and reports
    the first host 192.168.1.11 and the last host 192.168.1.9; on
    255.255.255.255 the first host wraps to 0.0.0.0.  [hostBits] and
    [hostsPerSubnet] are as documented, 32 and [2^32 - 2]. *)
Theorem calculateSubnet_prefix0_hosts :
  let d := calculateSubnet "192.168.1.10" 0 None in
  let a := ipToLong "192.168.1.10" in
  isValidIp "192.168.1.10" = true /\
  SubnetDetails.hostBits d = 32 /\
  SubnetDetails.hostsPerSubnet d = Z.max 0 (2 ^ 32 - 2) /\
  SubnetDetails.firstHost d = "192.168.1.11" /\
  SubnetDetails.lastHost d = "192.168.1.9" /\
  longToIp (spanStart a 0 + 1) = "0.0.0.1" /\
  longToIp (spanEnd a 0 - 1) = "255.255.255.254" /\
  SubnetDetails.firstHost (calculateSubnet "255.255.255.255" 0 None) = "0.0.0.0" /\
  SubnetDetails.lastHost (calculateSubnet "0.0.0.0" 0 None) = "255.255.255.255".
Proof. vm_compute. repeat split. Qed.

(** X23 (C8 on prefixes 1 to 32).  For every valid address [a] and prefix
    length in [1,32], [calculateSubnet] sets [hostBits = 32 - cidr] and
    [hostsPerSubnet = max(0, 2^hostBits - 2)].  With [network = a AND mask]
    and [broadcast = network OR NOT mask], it reports [firstHost] as the
    dotted-decimal text of [network + 1] and [lastHost] as that of
    [broadcast - 1] when [cidr < 31], both inside the 32-bit range and in
    order, and "N/A" for both when [cidr >= 31].  Prefix 24 gives 254 hosts,
    prefix 31 gives 0 hosts, and prefix 32 gives network = broadcast = [a]. *)
Theorem calculateSubnet_hosts ip cidr parentCidr :
  isValidIp ip = true -> 1 <= cidr <= 32 ->
  let d := calculateSubnet ip cidr parentCidr in
  let a := ipToLong ip in
  let network := Z.land a (mask cidr) in
  let broadcast := Z.lor network (not32 (mask cidr)) in
  SubnetDetails.hostBits d = 32 - cidr /\
  SubnetDetails.hostsPerSubnet d = Z.max 0 (2 ^ (32 - cidr) - 2) /\
  (cidr < 31 ->
     SubnetDetails.firstHost d = longToIp (network + 1) /\
     SubnetDetails.lastHost d = longToIp (broadcast - 1) /\
     0 <= network /\ network + 1 <= broadcast - 1 /\ broadcast < 4294967296) /\
  (31 <= cidr ->
     SubnetDetails.firstHost d = "N/A" /\ SubnetDetails.lastHost d = "N/A") /\
  (cidr = 24 -> SubnetDetails.hostsPerSubnet d = 254) /\
  (cidr = 31 -> SubnetDetails.hostsPerSubnet d = 0) /\
  (cidr = 32 ->
     SubnetDetails.networkAddress d = ip /\ SubnetDetails.broadcastAddress d = ip).
Proof.
  intros H Hc. cbv zeta.
  fold (spanStart (ipToLong ip) cidr). fold (spanEnd (ipToLong ip) cidr).
  rewrite calculateSubnet_valid by assumption. cbv zeta.
  cbn [SubnetDetails.hostBits SubnetDetails.hostsPerSubnet
       SubnetDetails.networkAddress SubnetDetails.broadcastAddress
       SubnetDetails.firstHost SubnetDetails.lastHost].
  pose proof (hostsPerSubnet_max (32 - cidr) ltac:(lia)) as Hh. cbv zeta in Hh.
  rewrite Hh.
  rewrite calc_networkLong_span, calc_broadcastLong_span by assumption.
  pose proof (ipToLong_range ip) as Ha.
  pose proof (span_bounds (ipToLong ip) cidr Ha ltac:(lia)) as (Hs & He).
  pose proof (spanEnd_arith (ipToLong ip) cidr Ha ltac:(lia)) as Ee.
  change JS.two32 with 4294967296 in He.
  split; [reflexivity|]. split; [reflexivity|].
  split; [|split; [|split; [|split]]].
  - intros Hlt. destruct (Z.ltb_spec cidr 31); [|lia].
    assert (4 <= 2 ^ (32 - cidr)).
    { change 4 with (2 ^ 2). apply Z.pow_le_mono_r; lia. }
    repeat split; try reflexivity; lia.
  - intros Hge. destruct (Z.ltb_spec cidr 31); [lia | split; reflexivity].
  - intros ->. reflexivity.
  - intros ->. reflexivity.
  - intros ->.
    rewrite Ee, spanStart_arith by (assumption || lia).
    change (2 ^ (32 - 32)) with 1. rewrite Z.mod_1_r.
    replace (ipToLong ip - 0 + 1 - 1) with (ipToLong ip) by lia.
    replace (ipToLong ip - 0) with (ipToLong ip) by lia.
    split; now apply longToIp_ipToLong.
Qed.

Lemma calculateSubnet_hosts_witness :
  let d := calculateSubnet "192.168.1.10" 24 None in
  SubnetDetails.hostBits d = 8 /\
  SubnetDetails.hostsPerSubnet d = 254 /\
  SubnetDetails.firstHost d = "192.168.1.1" /\
  SubnetDetails.lastHost d = "192.168.1.254".
Proof.
  pose proof (calculateSubnet_hosts "192.168.1.10" 24 None eq_refl ltac:(lia)) as H.
  cbv zeta in H. destruct H as (Hb & _ & Hf & _ & Hh & _).
  destruct (Hf ltac:(lia)) as (Hf1 & Hf2 & _).
  cbv zeta. split; [exact Hb|]. split; [exact (Hh eq_refl)|].
  split; [rewrite Hf1 | rewrite Hf2]; reflexivity.
Defined.

(** C9.  For every valid address [a] and prefix length [cidr],
    [calculateSubnet] sets [baseCidr] to [parentCidr] when it is supplied and
    otherwise to the default prefix of the legacy class of [a]'s first octet
    (A: [0,127] gives 8, B: [128,191] gives 16, C: [192,223] gives 24,
    D: [224,239] gives 0, E: [240,255] gives 0); [borrowedBits] is
    [cidr - baseCidr] when [baseCidr > 0] and [cidr >= baseCidr], and 0
    otherwise; [subnetsCreated] is [2^borrowedBits]. *)
Theorem calculateSubnet_base_and_borrowed ip cidr parentCidr :
  isValidIp ip = true ->
  let d := calculateSubnet ip cidr parentCidr in
  let base :=
    match parentCidr with
    | Some p => p
    | None => classDefaultPrefix (firstOctet (ipToLong ip))
    end in
  0 <= firstOctet (ipToLong ip) <= 255 /\
  SubnetDetails.baseCidr d = base /\
  SubnetDetails.defaultCidr d = classDefaultPrefix (firstOctet (ipToLong ip)) /\
  (0 < base /\ base <= cidr -> SubnetDetails.borrowedBits d = cidr - base) /\
  (~ (0 < base /\ base <= cidr) -> SubnetDetails.borrowedBits d = 0) /\
  0 <= SubnetDetails.borrowedBits d /\
  SubnetDetails.subnetsCreated d = 2 ^ SubnetDetails.borrowedBits d.
Proof.
  intros H. cbv zeta. rewrite calculateSubnet_valid by assumption.
  cbv zeta.
  cbn [SubnetDetails.baseCidr SubnetDetails.defaultCidr
       SubnetDetails.borrowedBits SubnetDetails.subnetsCreated].
  destruct (calc_netClass_valid ip H) as [-> Hfo].
  rewrite getNetworkClass_default.
  set (base := match parentCidr with
               | Some p => p
               | None => classDefaultPrefix (firstOctet (ipToLong ip))
               end).
  rewrite Z.geb_leb.
  split; [exact Hfo|]. split; [reflexivity|]. split; [reflexivity|].
  destruct (Z.gtb_spec base 0), (Z.leb_spec base cidr); cbn [andb];
    repeat split; intros; try reflexivity; lia.
Qed.

Lemma calculateSubnet_base_and_borrowed_witness :
  let d := calculateSubnet "192.168.1.10" 26 None in
  SubnetDetails.baseCidr d = 24 /\
  SubnetDetails.borrowedBits d = 2 /\
  SubnetDetails.subnetsCreated d = 4.
Proof.
  pose proof (calculateSubnet_base_and_borrowed "192.168.1.10" 26 None eq_refl) as H.
  cbv zeta in H. destruct H as (_ & Hb & _ & Hbb & _ & _ & Hs).
  cbv zeta. split; [rewrite Hb; reflexivity|].
  assert (Hbits : SubnetDetails.borrowedBits (calculateSubnet "192.168.1.10" 26 None) = 2).
  { rewrite Hbb; [reflexivity | vm_compute; split; [reflexivity | discriminate]]. }
  split; [exact Hbits | rewrite Hs, Hbits; reflexivity].
Defined.

(** ** The private-overlap check *)

Section Overlap.

Lemma overlap_networkStart_calc ip cidr :
  overlap_networkStart ip cidr = calc_networkLong ip cidr.
Proof.
  unfold overlap_networkStart, overlap_maskLong, calc_networkLong.
  rewrite !ushr_0, !toUint32_band. fold (calc_maskLong cidr).
  now rewrite (toUint32_small (JS.toUint32 _)) by apply toUint32_range.
Qed.

Lemma overlap_networkEnd_calc ip cidr :
  overlap_networkEnd ip cidr = calc_broadcastLong ip cidr.
Proof.
  unfold overlap_networkEnd, calc_broadcastLong.
  rewrite overlap_networkStart_calc.
  rewrite !ushr_0, !toUint32_bor, !toUint32_bnot.
  unfold overlap_maskLong. rewrite ushr_0. fold (calc_maskLong cidr).
  now rewrite (toUint32_small (JS.toUint32 _)) by apply toUint32_range.
Qed.

(** The table [PRIVATE_RANGES] holds the three RFC 1918 blocks: the first
    range met by a span is the first block met by it. *)
Lemma find_private_firstOverlap networkStart networkEnd :
  match find (intersects networkStart networkEnd) PRIVATE_RANGES with
  | Some range => Some (PrivateRange.name range)
  | None => None
  end = firstOverlap networkStart networkEnd.
Proof.
  unfold firstOverlap, rfc1918, PRIVATE_RANGES, intersects.
  cbn [find PrivateRange.start PrivateRange.end_ PrivateRange.name].
  change (quad 10 0 0 0 + 2 ^ (32 - 8) - 1) with 184549375.
  change (quad 172 16 0 0 + 2 ^ (32 - 12) - 1) with 2887778303.
  change (quad 192 168 0 0 + 2 ^ (32 - 16) - 1) with 3232301055.
  change (quad 10 0 0 0) with 167772160.
  change (quad 172 16 0 0) with 2886729728.
  change (quad 192 168 0 0) with 3232235520.
  repeat match goal with
         | |- context [if ?c then _ else _] => destruct c
         end; reflexivity.
Qed.

Lemma checkPrivateOverlap_valid ip cidr :
  isValidIp ip = true ->
  checkPrivateOverlap ip cidr =
  firstOverlap (calc_networkLong ip cidr) (calc_broadcastLong ip cidr).
Proof.
  intros H. unfold checkPrivateOverlap. rewrite H. cbn [negb]. cbv zeta.
  rewrite find_private_firstOverlap.
  now rewrite overlap_networkStart_calc, overlap_networkEnd_calc.
Qed.

End Overlap.

(** C7, at prefix 0.  The network of 8.8.8.8 under prefix 0 spans every
    address, from 0.0.0.0 to 255.255.255.255, and meets 10.0.0.0/8.
    [checkPrivateOverlap] computes the span from 8.8.8.8 to 8.8.8.8 (its mask
    at prefix 0 is all ones) and reports no overlap. *)
Theorem checkPrivateOverlap_prefix0_none :
  isValidIp "8.8.8.8" = true /\
  overlap_networkStart "8.8.8.8" 0 = ipToLong "8.8.8.8" /\
  overlap_networkEnd "8.8.8.8" 0 = ipToLong "8.8.8.8" /\
  checkPrivateOverlap "8.8.8.8" 0 = None /\
  spanStart (ipToLong "8.8.8.8") 0 = 0 /\
  spanEnd (ipToLong "8.8.8.8") 0 = 4294967295 /\
  firstOverlap 0 4294967295 = Some "10.0.0.0/8".
Proof. vm_compute. repeat split. Qed.

(** X3 (C7 on prefixes 1 to 32).  For every valid address and prefix length in
    [1,32], [checkPrivateOverlap] takes the span of the candidate network from
    [address AND mask] to its broadcast and returns the name of the first of
    10.0.0.0/8, 172.16.0.0/12 and 192.168.0.0/16 whose span meets it
    ([start <= otherEnd] and [end >= otherStart]), and none when none does;
    11.0.0.1 with prefix 7 overlaps 10.0.0.0/8. *)
Theorem checkPrivateOverlap_first_match ip cidr :
  isValidIp ip = true -> 1 <= cidr <= 32 ->
  checkPrivateOverlap ip cidr =
    firstOverlap (spanStart (ipToLong ip) cidr) (spanEnd (ipToLong ip) cidr) /\
  checkPrivateOverlap "11.0.0.1" 7 = Some "10.0.0.0/8".
Proof.
  intros H Hc. split; [|reflexivity].
  rewrite checkPrivateOverlap_valid by assumption.
  now rewrite calc_networkLong_span, calc_broadcastLong_span by assumption.
Qed.

Lemma checkPrivateOverlap_first_match_witness :
  checkPrivateOverlap "11.0.0.1" 7 =
    firstOverlap (spanStart (ipToLong "11.0.0.1") 7) (spanEnd (ipToLong "11.0.0.1") 7).
Proof.
  apply (checkPrivateOverlap_first_match "11.0.0.1" 7); [reflexivity | lia].
Defined.

(** ** The subnet enumerator *)

Section Enumerator.

Lemma table_baseNetworkLong_calc ip baseCidr :
  table_baseNetworkLong ip baseCidr = calc_networkLong ip baseCidr.
Proof.
  unfold table_baseNetworkLong. cbv zeta.
  exact (overlap_networkStart_calc ip baseCidr).
Qed.

Lemma table_rows_length ip cidr baseCidr loopLimit :
  List.length (table_rows ip cidr baseCidr loopLimit) = Z.to_nat loopLimit.
Proof. unfold table_rows. now rewrite length_map, length_seq. Qed.

Lemma table_rows_nth ip cidr baseCidr loopLimit i :
  (i < Z.to_nat loopLimit)%nat ->
  nth_error (table_rows ip cidr baseCidr loopLimit) i =
  Some (table_row ip cidr baseCidr (Z.of_nat i)).
Proof.
  intros H. unfold table_rows.
  rewrite nth_error_map, nth_error_seq.
  destruct (Nat.ltb_spec i (Z.to_nat loopLimit)); [reflexivity | lia].
Qed.

Lemma table_rows_nth_inv ip cidr baseCidr loopLimit i row :
  nth_error (table_rows ip cidr baseCidr loopLimit) i = Some row ->
  (i < Z.to_nat loopLimit)%nat /\ row = table_row ip cidr baseCidr (Z.of_nat i).
Proof.
  intros H.
  assert (Hi : (i < Z.to_nat loopLimit)%nat).
  { rewrite <- (table_rows_length ip cidr baseCidr). apply nth_error_Some.
    now rewrite H. }
  split; [exact Hi|]. rewrite table_rows_nth in H by exact Hi. congruence.
Qed.

Lemma generateSubnetTable_valid ip cidr baseCidr limit :
  isValidIp ip = true -> baseCidr <= cidr ->
  generateSubnetTable ip cidr baseCidr limit =
  let lim := match limit with Some l => l | None => 256 end in
  let totalCount := 2 ^ (cidr - baseCidr) in
  SubnetTable.mk (table_rows ip cidr baseCidr (Z.min totalCount lim))
    totalCount (totalCount >? lim).
Proof.
  intros H Hc. unfold generateSubnetTable. rewrite H. cbn [negb orb].
  destruct (Z.ltb_spec cidr baseCidr); [lia | reflexivity].
Qed.

(** Rows of one table lie on the circle of 2^32 addresses in steps of
    [inc]; two of them that both hold an address [x] are the same row. *)
Lemma wrapped_rows_disjoint B inc W T i j x :
  0 < inc -> 0 < W -> T <= W -> 0 <= i < T -> 0 <= j < T ->
  let M := inc * W in
  let ni := (B + i * inc) mod M in
  let nj := (B + j * inc) mod M in
  ni <= x <= (ni + inc - 1) mod M ->
  nj <= x <= (nj + inc - 1) mod M ->
  i = j.
Proof.
  intros Hinc HW HT Hi Hj M ni nj Hxi Hxj.
  assert (HM : 0 < M) by (subst M; nia).
  assert (HincM : inc <= M) by (subst M; nia).
  assert (Hni : 0 <= ni < M) by (apply Z.mod_pos_bound; exact HM).
  assert (Hnj : 0 <= nj < M) by (apply Z.mod_pos_bound; exact HM).
  assert (Hwrap : forall n, 0 <= n < M -> n <= x <= (n + inc - 1) mod M ->
                            n <= x < n + inc).
  { intros n Hn Hx. destruct (Z_lt_ge_dec (n + inc - 1) M) as [Hs|Hb].
    - rewrite Z.mod_small in Hx by lia. lia.
    - assert (E : (n + inc - 1) mod M = n + inc - 1 - M).
      { symmetry. apply Z.mod_unique_pos with (q := 1); lia. }
      rewrite E in Hx. lia. }
  apply Hwrap in Hxi; [|exact Hni]. apply Hwrap in Hxj; [|exact Hnj].
  pose proof (Z.div_mod (B + i * inc) M ltac:(lia)) as Ei.
  pose proof (Z.div_mod (B + j * inc) M ltac:(lia)) as Ej.
  fold ni in Ei. fold nj in Ej.
  set (qi := (B + i * inc) / M) in *. set (qj := (B + j * inc) / M) in *.
  set (u := (i - j) - W * (qi - qj)).
  assert (Eu : ni - nj = inc * u) by (subst u M; nia).
  assert (Hu : u = 0) by nia.
  assert (Eij : i - j = W * (qi - qj)) by (subst u; lia).
  assert (qi - qj = 0) by nia.
  nia.
Qed.

Lemma pow2_split a b : 0 <= a -> 0 <= b -> 2 ^ (a + b) = 2 ^ a * 2 ^ b.
Proof. intros. now apply Z.pow_add_r. Qed.

(** Any two rows of a table over prefix lengths in [0,32] that both hold an
    address are the same row. *)
Lemma table_rows_disjoint ip cidr baseCidr i j x :
  0 <= baseCidr -> baseCidr <= cidr -> cidr <= 32 ->
  0 <= i < 2 ^ (cidr - baseCidr) -> 0 <= j < 2 ^ (cidr - baseCidr) ->
  table_currentNet ip cidr baseCidr i <= x <= table_currentBroadcast ip cidr baseCidr i ->
  table_currentNet ip cidr baseCidr j <= x <= table_currentBroadcast ip cidr baseCidr j ->
  i = j.
Proof.
  intros Hb Hbc Hc Hi Hj.
  unfold table_currentBroadcast, table_currentNet, table_increment, JS.pow2.
  rewrite !ushr_0. unfold JS.toUint32.
  assert (EM : JS.two32 = 2 ^ (32 - cidr) * 2 ^ cidr).
  { rewrite <- pow2_split by lia. now replace (32 - cidr + cidr) with 32 by lia. }
  rewrite EM. intros Hxi Hxj.
  apply (wrapped_rows_disjoint (table_baseNetworkLong ip baseCidr)
           (2 ^ (32 - cidr)) (2 ^ cidr) (2 ^ (cidr - baseCidr)) i j x);
    try assumption.
  - apply Z.pow_pos_nonneg; lia.
  - apply Z.pow_pos_nonneg; lia.
  - apply Z.pow_le_mono_r; lia.
Qed.

Lemma filter_none {A : Type} (f : A -> bool) (l : list A) :
  (forall y, In y l -> f y = false) -> filter f l = [].
Proof.
  induction l as [|a l IH]; intros H; simpl; [reflexivity|].
  rewrite (H a (or_introl eq_refl)). apply IH. intros y Hy. apply H. now right.
Qed.

Lemma filter_at_most_one {A : Type} (f : A -> bool) (l : list A) :
  (forall i j x y, nth_error l i = Some x -> nth_error l j = Some y ->
                   f x = true -> f y = true -> i = j) ->
  (List.length (filter f l) <= 1)%nat.
Proof.
  induction l as [|a l IH]; intros H; simpl; [lia|].
  destruct (f a) eqn:Ea.
  - assert (E : filter f l = []).
    { apply filter_none. intros y Hy.
      destruct (f y) eqn:Ey; [|reflexivity].
      apply In_nth_error in Hy as [j Hj].
      specialize (H 0%nat (S j) a y eq_refl Hj Ea Ey). discriminate H. }
    rewrite E. simpl. lia.
  - apply IH. intros i j x y Hi Hj Hx Hy.
    specialize (H (S i) (S j) x y Hi Hj Hx Hy). lia.
Qed.

Lemma table_row_isCurrent ip cidr baseCidr i :
  SubnetRow.isCurrent (table_row ip cidr baseCidr i) = true <->
  table_currentNet ip cidr baseCidr i <= ipToLong ip
    <= table_currentBroadcast ip cidr baseCidr i.
Proof.
  unfold table_row. cbv zeta. cbn [SubnetRow.isCurrent].
  rewrite Z.geb_leb, andb_true_iff, !Z.leb_le. reflexivity.
Qed.

(** With a base prefix of 1 to 32 no row wraps around 2^32: row [i] runs from
    [baseNetwork + i * increment] over [increment] addresses. *)
Lemma table_row_bounds ip cidr baseCidr i :
  1 <= baseCidr -> baseCidr <= cidr -> cidr <= 32 ->
  0 <= i < 2 ^ (cidr - baseCidr) ->
  let network := spanStart (ipToLong ip) baseCidr + i * 2 ^ (32 - cidr) in
  table_currentNet ip cidr baseCidr i = network /\
  table_currentBroadcast ip cidr baseCidr i = network + 2 ^ (32 - cidr) - 1 /\
  0 <= network /\ network + 2 ^ (32 - cidr) - 1 < JS.two32.
Proof.
  intros Hb Hbc Hc Hi. cbv zeta.
  pose proof (span_bounds (ipToLong ip) baseCidr (ipToLong_range ip) ltac:(lia))
    as (Hs & He).
  rewrite spanEnd_arith in He by (apply ipToLong_range || lia).
  assert (Hinc : 0 < 2 ^ (32 - cidr)) by (apply Z.pow_pos_nonneg; lia).
  assert (EK : 2 ^ (32 - baseCidr) = 2 ^ (cidr - baseCidr) * 2 ^ (32 - cidr)).
  { rewrite <- pow2_split by lia. f_equal. lia. }
  assert (Hstep : (i + 1) * 2 ^ (32 - cidr) <= 2 ^ (32 - baseCidr)).
  { rewrite EK. apply Z.mul_le_mono_nonneg_r; lia. }
  assert (Hlo : 0 <= i * 2 ^ (32 - cidr)) by (apply Z.mul_nonneg_nonneg; lia).
  assert (En : table_currentNet ip cidr baseCidr i =
               spanStart (ipToLong ip) baseCidr + i * 2 ^ (32 - cidr)).
  { unfold table_currentNet, table_increment, JS.pow2.
    rewrite ushr_0, table_baseNetworkLong_calc, calc_networkLong_span by lia.
    apply toUint32_small. lia. }
  split; [exact En|]. split; [|lia].
  unfold table_currentBroadcast, table_increment, JS.pow2.
  rewrite En, ushr_0. apply toUint32_small. lia.
Qed.

End Enumerator.

(** C2, at base prefix 0.  The documentation takes the base network of
    192.168.1.10 under base prefix 0 to be 0.0.0.0, so that target prefix 1
    gives the rows 0.0.0.0 - 127.255.255.255 and 128.0.0.0 - 255.255.255.255
    in ascending order.  [generateSubnetTable] starts from the address itself
    (its base mask at prefix 0 is all ones) and wraps around 2^32: its rows
    are 192.168.1.10 - 64.168.1.9 and 64.168.1.10 - 192.168.1.9.  The
    increment at target prefix 0 is 2^32, not 0. *)
Theorem generateSubnetTable_base0_rows :
  let t := generateSubnetTable "192.168.1.10" 1 0 None in
  isValidIp "192.168.1.10" = true /\
  SubnetTable.totalCount t = 2 /\
  map SubnetRow.networkAddress (SubnetTable.rows t) =
    ["192.168.1.10"; "64.168.1.10"] /\
  map SubnetRow.broadcastAddress (SubnetTable.rows t) =
    ["64.168.1.9"; "192.168.1.9"] /\
  longToIp (Z.land (ipToLong "192.168.1.10") (mask 0)) = "0.0.0.0" /\
  longToIp (Z.land (ipToLong "192.168.1.10") (mask 0) + 1 * 2 ^ (32 - 1)) =
    "128.0.0.0" /\
  table_increment 0 = 4294967296.
Proof. vm_compute. repeat split. Qed.

(** X2 (C2 on base prefixes 1 to 32).  For every valid address [a] and prefix
    lengths [1 <= baseCidr <= cidr <= 32], and a limit that is not negative,
    [generateSubnetTable] returns exactly [min(totalCount, limit)] rows with
    [totalCount = 2^(cidr - baseCidr)]; row [i] (from 0) has index [i + 1],
    network [baseNetwork + i * increment] and broadcast
    [network + increment - 1], where [baseNetwork = a AND mask(baseCidr)] and
    [increment = 2^(32 - cidr)], so the rows ascend; its range is the text of
    [network + 1] and [broadcast - 1], or "N/A" when [cidr >= 31]; it is
    current exactly when [network <= a <= broadcast]; [truncated] holds iff
    [totalCount] exceeds the limit.  Base prefix 8 and target prefix 30 with
    limit 256 give 256 rows, [truncated = true] and [totalCount = 4194304]. *)
Theorem generateSubnetTable_rows ip cidr baseCidr limit :
  isValidIp ip = true -> 1 <= baseCidr -> baseCidr <= cidr -> cidr <= 32 ->
  let lim := match limit with Some l => l | None => 256 end in
  0 <= lim ->
  let t := generateSubnetTable ip cidr baseCidr limit in
  let totalCount := 2 ^ (cidr - baseCidr) in
  let baseNetwork := Z.land (ipToLong ip) (mask baseCidr) in
  let increment := 2 ^ (32 - cidr) in
  SubnetTable.totalCount t = totalCount /\
  (SubnetTable.truncated t = true <-> lim < totalCount) /\
  Z.of_nat (List.length (SubnetTable.rows t)) = Z.min totalCount lim /\
  (forall i, 0 <= i < Z.min totalCount lim ->
     exists row,
       nth_error (SubnetTable.rows t) (Z.to_nat i) = Some row /\
       let network := baseNetwork + i * increment in
       let broadcast := network + increment - 1 in
       0 <= network /\ network <= broadcast /\ broadcast < 4294967296 /\
       SubnetRow.index row = i + 1 /\
       SubnetRow.networkAddress row = longToIp network /\
       SubnetRow.broadcastAddress row = longToIp broadcast /\
       SubnetRow.range row =
         (if cidr <? 31
          then longToIp (network + 1) ++ " - " ++ longToIp (broadcast - 1)
          else "N/A") /\
       (SubnetRow.isCurrent row = true <-> network <= ipToLong ip <= broadcast)) /\
  (baseCidr = 8 -> cidr = 30 -> lim = 256 ->
     List.length (SubnetTable.rows t) = 256%nat /\
     SubnetTable.truncated t = true /\ SubnetTable.totalCount t = 4194304).
Proof.
  intros H Hb Hbc Hc lim Hlim. cbv zeta.
  rewrite generateSubnetTable_valid by assumption. cbv zeta. fold lim.
  cbn [SubnetTable.totalCount SubnetTable.truncated SubnetTable.rows].
  assert (HT : 0 < 2 ^ (cidr - baseCidr)) by (apply Z.pow_pos_nonneg; lia).
  assert (Hinc : 0 < 2 ^ (32 - cidr)) by (apply Z.pow_pos_nonneg; lia).
  split; [reflexivity|].
  split; [rewrite Z.gtb_ltb, Z.ltb_lt; reflexivity|].
  split; [rewrite table_rows_length; lia|].
  split.
  - intros i Hi. exists (table_row ip cidr baseCidr i).
    split; [rewrite table_rows_nth by lia; f_equal; f_equal; lia|].
    destruct (table_row_bounds ip cidr baseCidr i Hb Hbc Hc ltac:(lia))
      as (En & Ebc & Hlo & Hhi).
    fold (spanStart (ipToLong ip) baseCidr). cbv zeta.
    change JS.two32 with 4294967296 in Hhi.
    split; [exact Hlo|]. split; [lia|]. split; [exact Hhi|].
    split; [reflexivity|].
    rewrite <- En. split; [reflexivity|].
    replace (table_currentNet ip cidr baseCidr i + 2 ^ (32 - cidr) - 1)
      with (table_currentBroadcast ip cidr baseCidr i) by lia.
    split; [reflexivity|].
    split; [|apply table_row_isCurrent].
    unfold table_row. cbv zeta. cbn [SubnetRow.range].
    now rewrite !ushr_0, !longToIp_toUint32.
  - intros -> -> Hl. rewrite Hl, table_rows_length.
    change (2 ^ (30 - 8)) with 4194304. repeat split.
Qed.

Lemma generateSubnetTable_rows_witness :
  let t := generateSubnetTable "192.168.1.10" 26 24 None in
  SubnetTable.totalCount t = 4 /\
  List.length (SubnetTable.rows t) = 4%nat /\
  ~ SubnetTable.truncated t = true.
Proof.
  pose proof (generateSubnetTable_rows "192.168.1.10" 26 24 None eq_refl
                ltac:(lia) ltac:(lia) ltac:(lia) ltac:(lia)) as H.
  cbv zeta in H. destruct H as (Ht & Htr & Hlen & _).
  cbv zeta. split; [exact Ht|]. split.
  - apply Nat2Z.inj. rewrite Hlen. reflexivity.
  - intros Hx. apply Htr in Hx. vm_compute in Hx. discriminate Hx.
Defined.

(** C10.  In every result of [generateSubnetTable] at most one returned row
    has [isCurrent = true]: a row is current exactly when its interval from
    network to broadcast holds the input address, and the intervals of two
    different rows share no address.  A truncated result may mark no row: the
    subnet of 10.255.0.1 among the /30 subnets of 10.0.0.0/8 lies beyond the
    first 256 rows. *)
Theorem generateSubnetTable_at_most_one_current ip cidr baseCidr limit :
  0 <= baseCidr <= 32 -> 0 <= cidr <= 32 ->
  let rows := SubnetTable.rows (generateSubnetTable ip cidr baseCidr limit) in
  let network i := table_currentNet ip cidr baseCidr (Z.of_nat i) in
  let broadcast i := table_currentBroadcast ip cidr baseCidr (Z.of_nat i) in
  (currentCount rows <= 1)%nat /\
  (forall i row, nth_error rows i = Some row ->
     SubnetRow.networkAddress row = longToIp (network i) /\
     SubnetRow.broadcastAddress row = longToIp (broadcast i) /\
     (SubnetRow.isCurrent row = true <-> network i <= ipToLong ip <= broadcast i)) /\
  (forall i j x, (i < List.length rows)%nat -> (j < List.length rows)%nat ->
     network i <= x <= broadcast i -> network j <= x <= broadcast j -> i = j) /\
  (let t := generateSubnetTable "10.255.0.1" 30 8 None in
   SubnetTable.truncated t = true /\ currentCount (SubnetTable.rows t) = 0%nat).
Proof.
  intros Hb Hc. cbv zeta.
  assert (Hex : SubnetTable.truncated (generateSubnetTable "10.255.0.1" 30 8 None) = true /\
                currentCount (SubnetTable.rows (generateSubnetTable "10.255.0.1" 30 8 None)) = 0%nat)
    by (vm_compute; split; reflexivity).
  destruct (isValidIp ip) eqn:Hv; [destruct (Z_lt_ge_dec cidr baseCidr) as [Hlt|Hge]|].
  - (* cidr < baseCidr: no rows *)
    assert (E : generateSubnetTable ip cidr baseCidr limit = emptyTable).
    { unfold generateSubnetTable. rewrite Hv. cbn [negb orb].
      destruct (Z.ltb_spec cidr baseCidr); [reflexivity | lia]. }
    rewrite E. unfold emptyTable. cbn [SubnetTable.rows].
    split; [cbn; lia|].
    split; [intros [|i] row Hn; discriminate Hn|].
    split; [intros i j x Hi; cbn in Hi; lia | exact Hex].
  - rewrite generateSubnetTable_valid by (assumption || lia). cbv zeta.
    cbn [SubnetTable.rows].
    set (lim := match limit with Some l => l | None => 256 end).
    set (T := 2 ^ (cidr - baseCidr)).
    assert (Hrow : forall i row,
               nth_error (table_rows ip cidr baseCidr (Z.min T lim)) i = Some row ->
               0 <= Z.of_nat i < T /\ row = table_row ip cidr baseCidr (Z.of_nat i)).
    { intros i row Hn. apply table_rows_nth_inv in Hn as [Hi ->].
      split; [lia | reflexivity]. }
    assert (Hdis : forall i j x,
               0 <= Z.of_nat i < T -> 0 <= Z.of_nat j < T ->
               table_currentNet ip cidr baseCidr (Z.of_nat i) <= x
                 <= table_currentBroadcast ip cidr baseCidr (Z.of_nat i) ->
               table_currentNet ip cidr baseCidr (Z.of_nat j) <= x
                 <= table_currentBroadcast ip cidr baseCidr (Z.of_nat j) ->
               i = j).
    { intros i j x Hi Hj Hxi Hxj. apply Nat2Z.inj.
      apply (table_rows_disjoint ip cidr baseCidr _ _ x); (assumption || lia). }
    split; [|split; [|split]].
    + apply filter_at_most_one. intros i j ri rj Hi Hj Hci Hcj.
      apply Hrow in Hi as [Hi ->]. apply Hrow in Hj as [Hj ->].
      apply table_row_isCurrent in Hci, Hcj.
      exact (Hdis i j (ipToLong ip) Hi Hj Hci Hcj).
    + intros i row Hn. apply Hrow in Hn as [_ ->].
      split; [reflexivity|]. split; [reflexivity|]. apply table_row_isCurrent.
    + intros i j x Hi Hj. rewrite table_rows_length in Hi, Hj.
      apply Hdis; lia.
    + exact Hex.
  - (* invalid address: no rows *)
    assert (E : generateSubnetTable ip cidr baseCidr limit = emptyTable).
    { unfold generateSubnetTable. now rewrite Hv. }
    rewrite E. unfold emptyTable. cbn [SubnetTable.rows].
    split; [cbn; lia|].
    split; [intros [|i] row Hn; discriminate Hn|].
    split; [intros i j x Hi; cbn in Hi; lia | exact Hex].
Qed.

Lemma generateSubnetTable_at_most_one_current_witness :
  (currentCount (SubnetTable.rows (generateSubnetTable "192.168.1.10" 26 24 None)) <= 1)%nat.
Proof.
  pose proof (generateSubnetTable_at_most_one_current "192.168.1.10" 26 24 None
                ltac:(lia) ltac:(lia)) as H.
  cbv zeta in H. exact (proj1 H).
Defined.

(** The sibling subnets of 192.168.1.10 at target prefix 26 under base
    prefix 24: four rows, [totalCount = 4], not truncated, and the row of
    192.168.1.0 - 192.168.1.63 is the current one. *)
Theorem generateSubnetTable_example_26_under_24 :
  generateSubnetTable "192.168.1.10" 26 24 None =
  SubnetTable.mk
    [ SubnetRow.mk 1 "192.168.1.0" "192.168.1.1 - 192.168.1.62" "192.168.1.63" true;
      SubnetRow.mk 2 "192.168.1.64" "192.168.1.65 - 192.168.1.126" "192.168.1.127" false;
      SubnetRow.mk 3 "192.168.1.128" "192.168.1.129 - 192.168.1.190" "192.168.1.191" false;
      SubnetRow.mk 4 "192.168.1.192" "192.168.1.193 - 192.168.1.254" "192.168.1.255" false ]
    4 false.
Proof. vm_compute. reflexivity. Qed.

(** [getNetworkClass] maps a first octet to its legacy class and default
    prefix: A for [0,127] with 8, B for [128,191] with 16, C for [192,223]
    with 24, D for [224,239] with 0 and E for [240,255] with 0. *)
Theorem getNetworkClass_ranges firstOctet :
  (0 <= firstOctet <= 127 -> getNetworkClass firstOctet = NetworkClass.mk "A" 8) /\
  (128 <= firstOctet <= 191 -> getNetworkClass firstOctet = NetworkClass.mk "B" 16) /\
  (192 <= firstOctet <= 223 -> getNetworkClass firstOctet = NetworkClass.mk "C" 24) /\
  (224 <= firstOctet <= 239 -> getNetworkClass firstOctet = NetworkClass.mk "D" 0) /\
  (240 <= firstOctet <= 255 -> getNetworkClass firstOctet = NetworkClass.mk "E" 0).
Proof.
  unfold getNetworkClass. rewrite !Z.geb_leb.
  repeat split; intros H;
    repeat match goal with
           | |- context [?a <=? ?b] => destruct (Z.leb_spec a b); try lia
           end; reflexivity.
Qed.

(** ** Binary renderings *)

Section Binary.

Lemma binaryValue_acc s : forall acc,
  binaryValue s acc = acc * 2 ^ Z.of_nat (String.length s) + binaryValue s 0.
Proof.
  induction s as [|c r IH]; intros acc; cbn [binaryValue String.length].
  - change (2 ^ Z.of_nat 0) with 1. lia.
  - rewrite (IH (2 * acc + bitOf c)), (IH (2 * 0 + bitOf c)).
    rewrite Nat2Z.inj_succ, Z.pow_succ_r by lia. lia.
Qed.

Lemma binaryValue_app s t : forall acc,
  binaryValue (s ++ t) acc = binaryValue t (binaryValue s acc).
Proof. induction s as [|c r IH]; intros acc; cbn; [reflexivity | apply IH]. Qed.

Lemma binaryValue_bound s :
  0 <= binaryValue s 0 < 2 ^ Z.of_nat (String.length s).
Proof.
  induction s as [|c r IH]; cbn [binaryValue String.length].
  - change (2 ^ Z.of_nat 0) with 1. lia.
  - rewrite binaryValue_acc, Nat2Z.inj_succ, Z.pow_succ_r by lia.
    assert (0 <= bitOf c <= 1) by (unfold bitOf; destruct (Ascii.eqb c "1"); lia).
    nia.
Qed.

Lemma binaryValue_zeros n acc : binaryValue (repeatChar n "0") acc = acc * 2 ^ Z.of_nat n.
Proof.
  revert acc. induction n as [|n IH]; intros acc; cbn [repeatChar binaryValue].
  - change (2 ^ Z.of_nat 0) with 1. lia.
  - rewrite IH, Nat2Z.inj_succ, Z.pow_succ_r by lia.
    change (bitOf "0") with 0. ring.
Qed.

Lemma toBinaryDigits_value fuel : forall n acc,
  0 <= n < 2 ^ Z.of_nat fuel ->
  binaryValue (toBinaryDigits fuel n acc) 0 =
  n * 2 ^ Z.of_nat (String.length acc) + binaryValue acc 0.
Proof.
  induction fuel as [|f IH]; intros n acc Hn.
  - change (2 ^ Z.of_nat 0) with 1 in Hn. cbn [toBinaryDigits].
    replace n with 0 by lia. lia.
  - cbn [toBinaryDigits].
    assert (Hbit : bitOf (if Z.odd n then "1"%char else "0"%char) = n mod 2).
    { rewrite Zmod_odd. now destruct (Z.odd n). }
    assert (Hh : 0 <= n / 2 < 2 ^ Z.of_nat f).
    { rewrite Nat2Z.inj_succ, Z.pow_succ_r in Hn by lia. dlia. }
    destruct (Z.eqb_spec (n / 2) 0) as [Hz|Hz].
    + cbn [binaryValue]. rewrite binaryValue_acc, Hbit. dlia.
    + rewrite IH by exact Hh. cbn [String.length binaryValue].
      rewrite (binaryValue_acc acc (2 * 0 + _)), Hbit.
      rewrite Nat2Z.inj_succ, Z.pow_succ_r by lia.
      pose proof (Z.div_mod n 2 ltac:(lia)). nia.
Qed.

Lemma toBinaryString_value num :
  binaryValue (toBinaryString num) 0 = JS.toUint32 num.
Proof.
  unfold toBinaryString, padStart. rewrite ushr_0.
  rewrite binaryValue_app, binaryValue_zeros. cbn [Z.mul].
  rewrite toBinaryDigits_value by apply toUint32_range.
  cbn. lia.
Qed.

(** Two strings of binary digits of one length and one value are equal. *)
Lemma binaryValue_inj s : forall t,
  String.length s = String.length t ->
  allBinary s = true -> allBinary t = true ->
  binaryValue s 0 = binaryValue t 0 -> s = t.
Proof.
  induction s as [|c r IH]; intros [|c' r'] Hl Hs Ht Hv; try discriminate Hl;
    [reflexivity|].
  cbn [String.length] in Hl. injection Hl as Hl.
  cbn [allBinary] in Hs, Ht.
  apply andb_prop in Hs as [Hc Hr]. apply andb_prop in Ht as [Hc' Hr'].
  cbn [binaryValue] in Hv.
  rewrite (binaryValue_acc r), (binaryValue_acc r'), <- Hl in Hv.
  pose proof (binaryValue_bound r) as Br. pose proof (binaryValue_bound r') as Br'.
  rewrite <- Hl in Br'.
  assert (Hb : bitOf c = bitOf c' /\ binaryValue r 0 = binaryValue r' 0).
  { assert (Hc1 : bitOf c = 0 \/ bitOf c = 1)
      by (unfold bitOf; destruct (Ascii.eqb c "1"); auto).
    assert (Hc2 : bitOf c' = 0 \/ bitOf c' = 1)
      by (unfold bitOf; destruct (Ascii.eqb c' "1"); auto).
    destruct Hc1 as [E1|E1], Hc2 as [E2|E2]; rewrite E1, E2 in *; lia. }
  destruct Hb as [Hb Hv'].
  f_equal; [|now apply IH].
  unfold bitOf in Hb. apply orb_prop in Hc, Hc'.
  destruct (Ascii.eqb_spec c "1"), (Ascii.eqb_spec c' "1"); try congruence;
    try discriminate Hb.
  destruct Hc as [Hc|Hc], Hc' as [Hc'|Hc']; try discriminate.
  apply Ascii.eqb_eq in Hc, Hc'. congruence.
Qed.

Lemma toBinaryString_toUint32 num :
  toBinaryString (JS.toUint32 num) = toBinaryString num.
Proof.
  unfold toBinaryString. rewrite !ushr_0.
  now rewrite (toUint32_small (JS.toUint32 num)) by apply toUint32_range.
Qed.

Lemma takeChars_split k : forall s,
  (k <= String.length s)%nat ->
  exists t, s = takeChars k s ++ t /\
            String.length (takeChars k s) = k /\
            String.length t = (String.length s - k)%nat.
Proof.
  induction k as [|k IH]; intros s Hk.
  - exists s. destruct s; cbn; repeat split; lia.
  - destruct s as [|c r]; [cbn in Hk; lia|].
    cbn [String.length] in Hk. destruct (IH r ltac:(lia)) as (t & E & L1 & L2).
    exists t. cbn [takeChars append String.length]. rewrite <- E, L1, L2.
    repeat split; lia.
Qed.

Lemma allBinary_takeChars k : forall s,
  allBinary s = true -> allBinary (takeChars k s) = true.
Proof.
  induction k as [|k IH]; intros [|c r] H; cbn; try reflexivity.
  cbn in H. apply andb_prop in H as [Hc Hr]. now rewrite Hc, IH.
Qed.

Lemma allBinary_repeat1 n : allBinary (repeatChar n "1") = true.
Proof. induction n; simpl; auto. Qed.

(** The value of the first [k] digits is the value of the string without its
    last digits. *)
Lemma binaryValue_takeChars k s :
  (k <= String.length s)%nat ->
  binaryValue (takeChars k s) 0 =
  binaryValue s 0 / 2 ^ Z.of_nat (String.length s - k).
Proof.
  intros Hk. destruct (takeChars_split k s Hk) as (t & E & L1 & L2).
  pose proof (binaryValue_bound t) as Bt.
  assert (Ev : binaryValue s 0 =
               binaryValue (takeChars k s) 0 * 2 ^ Z.of_nat (String.length t)
               + binaryValue t 0).
  { rewrite E at 1. rewrite binaryValue_app. apply binaryValue_acc. }
  rewrite Ev, <- L2.
  apply Z.div_unique with (r := binaryValue t 0); lia.
Qed.

Lemma octetBits_check :
  forallb (fun o =>
    Nat.eqb (String.length (octetBits o)) 8 && allBinary (octetBits o)
    && (binaryValue (octetBits o) 0 =? o)) octets = true.
Proof. vm_compute. reflexivity. Qed.

Lemma octetBits_shape o :
  0 <= o <= 255 ->
  String.length (octetBits o) = 8%nat /\ allBinary (octetBits o) = true /\
  binaryValue (octetBits o) 0 = o.
Proof.
  intros Ho. pose proof (octets_forallb _ octetBits_check o Ho) as H.
  cbv beta in H. apply andb_prop in H as [H Hv]. apply andb_prop in H as [Hl Hb].
  apply Nat.eqb_eq in Hl. apply Z.eqb_eq in Hv. auto.
Qed.

Lemma octetsOf_range long :
  Forall (fun o => 0 <= o <= 255) (octetsOf long).
Proof.
  unfold octetsOf. cbv zeta.
  repeat apply Forall_cons; try apply Forall_nil; dlia.
Qed.

(** The 32 digits of a number are the digits of its four octets. *)
Lemma toBinaryString_octets long :
  toBinaryString long =
  match octetsOf long with
  | [a; b; c; d] => octetBits a ++ octetBits b ++ octetBits c ++ octetBits d
  | _ => toBinaryString long
  end.
Proof.
  pose proof (octetsOf_range long) as Hr. unfold octetsOf in *.
  cbv beta iota zeta in *.
  set (u := long mod 4294967296) in *.
  inversion_clear Hr as [|? ? Ha Hr1]. inversion_clear Hr1 as [|? ? Hb Hr2].
  inversion_clear Hr2 as [|? ? Hc Hr3]. inversion_clear Hr3 as [|? ? Hd _].
  destruct (octetBits_shape _ Ha) as (La & Ba & Va).
  destruct (octetBits_shape _ Hb) as (Lb & Bb & Vb).
  destruct (octetBits_shape _ Hc) as (Lc & Bc & Vc).
  destruct (octetBits_shape _ Hd) as (Ld & Bd & Vd).
  destruct (toBinaryString_shape long) as [Ll Lbin].
  apply binaryValue_inj.
  - rewrite Ll, !string_length_app, La, Lb, Lc, Ld. reflexivity.
  - exact Lbin.
  - apply allBinary_app; [exact Ba|]. apply allBinary_app; [exact Bb|].
    apply allBinary_app; assumption.
  - rewrite toBinaryString_value, !binaryValue_app.
    rewrite (binaryValue_acc (octetBits (u mod 256))), Ld, Vd.
    rewrite (binaryValue_acc (octetBits (u / 256 mod 256))), Lc, Vc.
    rewrite (binaryValue_acc (octetBits (u / 65536 mod 256))), Lb, Vb.
    rewrite Va. change (2 ^ Z.of_nat 8) with 256.
    unfold JS.toUint32, JS.two32. fold u.
    assert (0 <= u < 4294967296) by (subst u; dlia).
    dlia.
Qed.

Lemma allBinary_no_terminator s :
  allBinary s = true ->
  forall a rest cur room,
    s = a -> String.length a = room ->
    matchChunks (a ++ rest) cur room = matchChunks rest (cur ++ a) 0.
Proof.
  intros Hs a. revert Hs. intros Hs rest cur room <-. revert Hs cur room.
  induction s as [|c r IH]; intros Hs cur room Hl.
  - cbn in Hl. subst room. cbn [append].
    replace (cur ++ "") with cur; [reflexivity|].
    clear. induction cur; cbn; congruence.
  - cbn [String.length] in Hl. destruct room as [|k]; [discriminate Hl|].
    injection Hl as Hl.
    cbn [allBinary] in Hs. apply andb_prop in Hs as [Hc Hr].
    cbn [append matchChunks].
    assert (Ht : isLineTerminator c = false).
    { apply orb_prop in Hc. destruct Hc as [Hc|Hc]; apply Ascii.eqb_eq in Hc;
        subst c; reflexivity. }
    rewrite Ht, (IH Hr _ _ Hl).
    f_equal. clear. induction cur; cbn; congruence.
Qed.

Lemma matchChunks_full rest cur :
  cur <> EmptyString ->
  matchChunks rest cur 0 = cur :: matchChunks rest EmptyString 8.
Proof.
  intros Hc. destruct rest as [|c r]; cbn [matchChunks].
  - destruct cur; [contradiction | reflexivity].
  - destruct (isLineTerminator c).
    + destruct cur; [contradiction | reflexivity].
    + reflexivity.
Qed.

Lemma matchChunks_group a rest :
  allBinary a = true -> String.length a = 8%nat ->
  matchChunks (a ++ rest) EmptyString 8 = a :: matchChunks rest EmptyString 8.
Proof.
  intros Ha Hl.
  rewrite (allBinary_no_terminator a Ha a rest EmptyString 8 eq_refl Hl).
  cbn [append]. apply matchChunks_full.
  destruct a; [discriminate Hl | discriminate].
Qed.

End Binary.

(** X8.  Reading the 32 digits of [toBinaryString] back as a binary number
    gives the low 32 bits of the input: two numbers have the same rendering
    exactly when they agree modulo 2^32. *)
Theorem toBinaryString_reads_back num :
  binaryValue (toBinaryString num) 0 = num mod 4294967296 /\
  (forall other,
      toBinaryString num = toBinaryString other <->
      num mod 4294967296 = other mod 4294967296).
Proof.
  split; [apply toBinaryString_value|].
  intros other. split; intros H.
  - change (JS.toUint32 num = JS.toUint32 other).
    rewrite <- (toBinaryString_value num), <- (toBinaryString_value other).
    now rewrite H.
  - change (JS.toUint32 num = JS.toUint32 other) in H.
    rewrite <- (toBinaryString_toUint32 num), <- (toBinaryString_toUint32 other).
    now rewrite H.
Qed.

(** X9.  [formatBinary] of the 32 digits of a number is four groups of eight
    digits joined by dots, and the groups are the binary forms of the four
    octets that [longToIp] prints in decimal for the same number. *)
Theorem formatBinary_toBinaryString_octets long :
  formatBinary (toBinaryString long) = JS.join "." (map octetBits (octetsOf long)) /\
  longToIp long = JS.join "." (map JS.toString (octetsOf long)) /\
  Forall (fun o => 0 <= o <= 255 /\ String.length (octetBits o) = 8%nat /\
                   binaryValue (octetBits o) 0 = o) (octetsOf long).
Proof.
  split; [|split].
  - rewrite toBinaryString_octets.
    pose proof (octetsOf_range long) as Hr. unfold octetsOf in *.
    cbv beta iota zeta in *.
    inversion_clear Hr as [|? ? Ha Hr1]. inversion_clear Hr1 as [|? ? Hb Hr2].
    inversion_clear Hr2 as [|? ? Hc Hr3]. inversion_clear Hr3 as [|? ? Hd _].
    destruct (octetBits_shape _ Ha) as (La & Ba & _).
    destruct (octetBits_shape _ Hb) as (Lb & Bb & _).
    destruct (octetBits_shape _ Hc) as (Lc & Bc & _).
    destruct (octetBits_shape _ Hd) as (Ld & Bd & _).
    unfold formatBinary.
    rewrite matchChunks_group by assumption.
    rewrite matchChunks_group by assumption.
    rewrite matchChunks_group by assumption.
    replace (octetBits (long mod 4294967296 mod 256))
      with (octetBits (long mod 4294967296 mod 256) ++ "") at 1
      by (generalize (octetBits (long mod 4294967296 mod 256));
          intros s; induction s; cbn; congruence).
    rewrite matchChunks_group by assumption.
    reflexivity.
  - rewrite longToIp_octets. reflexivity.
  - eapply Forall_impl; [|apply octetsOf_range].
    intros o Ho. destruct (octetBits_shape o Ho) as (L & _ & V). auto.
Qed.

(** ** The calculation read back from its texts *)

Section ReadBack.

Lemma ipToLong_longToIp_small n :
  0 <= n < JS.two32 -> ipToLong (longToIp n) = n.
Proof.
  intros Hn. destruct (longToIp_valid n) as [_ E]. rewrite E.
  now apply toUint32_small.
Qed.

Lemma longToIp_inj n m :
  0 <= n < JS.two32 -> 0 <= m < JS.two32 -> longToIp n = longToIp m -> n = m.
Proof.
  intros Hn Hm E.
  rewrite <- (ipToLong_longToIp_small n Hn), <- (ipToLong_longToIp_small m Hm).
  now rewrite E.
Qed.

(** Network and broadcast of a prefix of 1 to 32, in arithmetic. *)
Lemma calc_span_arith ip cidr :
  1 <= cidr <= 32 ->
  let a := ipToLong ip in
  let K := 2 ^ (32 - cidr) in
  0 < K /\
  calc_networkLong ip cidr = a - a mod K /\
  calc_broadcastLong ip cidr = a - a mod K + K - 1 /\
  0 <= a - a mod K <= a /\ a <= a - a mod K + K - 1 < JS.two32.
Proof.
  intros Hc. cbv zeta.
  assert (HK : 0 < 2 ^ (32 - cidr)) by (apply Z.pow_pos_nonneg; lia).
  pose proof (ipToLong_range ip) as Ha.
  pose proof (span_bounds (ipToLong ip) cidr Ha ltac:(lia)) as Hb.
  rewrite calc_networkLong_span, calc_broadcastLong_span by assumption.
  rewrite spanEnd_arith, spanStart_arith in * by (assumption || lia).
  repeat split; lia.
Qed.

Lemma block_of_member a b K :
  0 < K -> a - a mod K <= b <= a - a mod K + K - 1 -> b - b mod K = a - a mod K.
Proof.
  intros HK Hb.
  pose proof (Z.div_mod a K ltac:(lia)) as Ea.
  pose proof (Z.div_mod b K ltac:(lia)) as Eb.
  pose proof (Z.mod_pos_bound a K HK). pose proof (Z.mod_pos_bound b K HK).
  assert (b / K = a / K) by nia.
  nia.
Qed.

Lemma calc_fields_valid ip cidr parentCidr :
  isValidIp ip = true -> 1 <= cidr <= 32 ->
  let d := calculateSubnet ip cidr parentCidr in
  networkOf d = calc_networkLong ip cidr /\
  broadcastOf d = calc_broadcastLong ip cidr /\
  isValidIp (SubnetDetails.networkAddress d) = true /\
  isValidIp (SubnetDetails.broadcastAddress d) = true.
Proof.
  intros H Hc. cbv zeta. unfold networkOf, broadcastOf.
  rewrite calculateSubnet_valid by assumption. cbv zeta.
  cbn [SubnetDetails.networkAddress SubnetDetails.broadcastAddress].
  destruct (calc_span_arith ip cidr Hc) as (HK & En & Eb & Hn & Hb).
  rewrite !ipToLong_longToIp_small by (rewrite ?En, ?Eb; lia).
  repeat split; apply longToIp_valid.
Qed.

End ReadBack.

(** X10.  Two valid addresses have the same network address under a prefix of
    1 to 32 exactly when the second lies between the network and the
    broadcast address computed for the first; they then have the same
    broadcast address too.  In particular the network address is itself a
    valid address whose network is itself. *)
Theorem same_network_iff_in_range ip other cidr parentCidr otherParent :
  isValidIp ip = true -> isValidIp other = true -> 1 <= cidr <= 32 ->
  let d := calculateSubnet ip cidr parentCidr in
  let d' := calculateSubnet other cidr otherParent in
  (networkOf d <= ipToLong other <= broadcastOf d <->
   SubnetDetails.networkAddress d' = SubnetDetails.networkAddress d) /\
  (SubnetDetails.networkAddress d' = SubnetDetails.networkAddress d ->
   SubnetDetails.broadcastAddress d' = SubnetDetails.broadcastAddress d) /\
  isValidIp (SubnetDetails.networkAddress d) = true /\
  SubnetDetails.networkAddress
    (calculateSubnet (SubnetDetails.networkAddress d) cidr otherParent) =
  SubnetDetails.networkAddress d.
Proof.
  intros H H' Hc. cbv zeta.
  destruct (calc_fields_valid ip cidr parentCidr H Hc) as (En & Eb & Vn & _).
  cbv zeta in En, Eb, Vn.
  destruct (calc_span_arith ip cidr Hc) as (HK & An & Ab & Hn & Hb).
  destruct (calc_span_arith other cidr Hc) as (_ & An' & Ab' & Hn' & Hb').
  cbv zeta in *.
  assert (Key : forall x pc, isValidIp x = true ->
            (networkOf (calculateSubnet ip cidr parentCidr) <= ipToLong x
               <= broadcastOf (calculateSubnet ip cidr parentCidr) <->
             SubnetDetails.networkAddress (calculateSubnet x cidr pc) =
             SubnetDetails.networkAddress (calculateSubnet ip cidr parentCidr))).
  { intros x pc Hx. rewrite En, Eb, An, Ab.
    destruct (calc_span_arith x cidr Hc) as (_ & Ax & _ & Hxn & Hxb).
    cbv zeta in *.
    rewrite !calculateSubnet_valid by assumption. cbv zeta.
    cbn [SubnetDetails.networkAddress]. rewrite Ax, An. split.
    - intros Hr. f_equal. now apply block_of_member.
    - intros E. apply longToIp_inj in E; lia. }
  split; [apply Key; exact H'|]. split; [|split; [exact Vn|]].
  - rewrite !calculateSubnet_valid by assumption. cbv zeta.
    cbn [SubnetDetails.networkAddress SubnetDetails.broadcastAddress].
    rewrite An, An', Ab, Ab'. intros E. apply longToIp_inj in E; [|lia|lia].
    f_equal. lia.
  - apply Key; [exact Vn|]. rewrite En, Eb, An, Ab.
    fold (networkOf (calculateSubnet ip cidr parentCidr)).
    rewrite En, An. lia.
Qed.

Lemma same_network_iff_in_range_witness :
  SubnetDetails.networkAddress (calculateSubnet "192.168.1.62" 26 None) =
  SubnetDetails.networkAddress (calculateSubnet "192.168.1.10" 26 None).
Proof.
  pose proof (same_network_iff_in_range "192.168.1.10" "192.168.1.62" 26 None None
                eq_refl eq_refl ltac:(lia)) as H.
  cbv zeta in H. destruct H as (Hiff & _).
  apply Hiff. vm_compute. split; discriminate.
Defined.

(** X11.  For a valid address and a prefix of 1 to 32 the network holds
    [2^hostBits] addresses from its network address to its broadcast
    address.  Up to prefix 30 the first and last host are valid addresses,
    one after the network address and one before the broadcast address, and
    [hostsPerSubnet] is the number of addresses from the first to the last
    host.  From prefix 31 on the two host fields are not addresses. *)
Theorem host_range_counts ip cidr parentCidr :
  isValidIp ip = true -> 1 <= cidr <= 32 ->
  let d := calculateSubnet ip cidr parentCidr in
  broadcastOf d - networkOf d + 1 = 2 ^ SubnetDetails.hostBits d /\
  (cidr <= 30 ->
     isValidIp (SubnetDetails.firstHost d) = true /\
     isValidIp (SubnetDetails.lastHost d) = true /\
     ipToLong (SubnetDetails.firstHost d) = networkOf d + 1 /\
     ipToLong (SubnetDetails.lastHost d) = broadcastOf d - 1 /\
     SubnetDetails.hostsPerSubnet d =
       ipToLong (SubnetDetails.lastHost d) - ipToLong (SubnetDetails.firstHost d) + 1) /\
  (31 <= cidr ->
     isValidIp (SubnetDetails.firstHost d) = false /\
     isValidIp (SubnetDetails.lastHost d) = false /\
     SubnetDetails.hostsPerSubnet d = 0).
Proof.
  intros H Hc. cbv zeta.
  destruct (calc_fields_valid ip cidr parentCidr H Hc) as (En & Eb & _).
  cbv zeta in En, Eb. rewrite En, Eb.
  destruct (calc_span_arith ip cidr Hc) as (HK & An & Ab & Hn & Hb).
  cbv zeta in *. rewrite An, Ab.
  rewrite calculateSubnet_valid by assumption. cbv zeta.
  cbn [SubnetDetails.hostBits SubnetDetails.firstHost SubnetDetails.lastHost
       SubnetDetails.hostsPerSubnet].
  pose proof (hostsPerSubnet_max (32 - cidr) ltac:(lia)) as Hh. cbv zeta in Hh.
  rewrite Hh, An, Ab.
  split; [lia|]. split.
  - intros Hle. destruct (Z.ltb_spec cidr 31); [|lia].
    assert (4 <= 2 ^ (32 - cidr)).
    { change 4 with (2 ^ 2). apply Z.pow_le_mono_r; lia. }
    rewrite !ipToLong_longToIp_small by lia.
    repeat split; try apply longToIp_valid; lia.
  - intros Hge. destruct (Z.ltb_spec cidr 31); [lia|].
    assert (2 ^ (32 - cidr) <= 2).
    { change 2 with (2 ^ 1) at 2. apply Z.pow_le_mono_r; lia. }
    repeat split; try reflexivity. lia.
Qed.

Lemma host_range_counts_witness :
  let d := calculateSubnet "192.168.1.10" 26 None in
  broadcastOf d - networkOf d + 1 = 64 /\
  SubnetDetails.hostsPerSubnet d =
    ipToLong (SubnetDetails.lastHost d) - ipToLong (SubnetDetails.firstHost d) + 1.
Proof.
  pose proof (host_range_counts "192.168.1.10" 26 None eq_refl ltac:(lia)) as H.
  cbv zeta in H. destruct H as (H1 & H2 & _).
  destruct (H2 ltac:(lia)) as (_ & _ & _ & _ & H3).
  cbv zeta. split; [rewrite H1; reflexivity | exact H3].
Defined.

Lemma binaryMask_check :
  forallb (fun p =>
    (p =? 0) ||
    String.eqb (toBinaryString (calc_maskLong p))
      (repeatChar (Z.to_nat p) "1" ++ repeatChar (32 - Z.to_nat p) "0"))
    prefixes = true.
Proof. vm_compute. reflexivity. Qed.

(** X12.  For a valid address and a prefix of 1 to 32, [binaryMask] is
    [cidr] ones followed by zeros, and [binaryNet] is the first [cidr] digits
    of [binaryIp] followed by zeros; read as binary numbers, [binaryIp] is the
    address and [binaryNet] the network address. *)
Theorem binary_fields_shape ip cidr parentCidr :
  isValidIp ip = true -> 1 <= cidr <= 32 ->
  let d := calculateSubnet ip cidr parentCidr in
  let n := Z.to_nat cidr in
  SubnetDetails.binaryMask d = repeatChar n "1" ++ repeatChar (32 - n) "0" /\
  SubnetDetails.binaryNet d =
    takeChars n (SubnetDetails.binaryIp d) ++ repeatChar (32 - n) "0" /\
  binaryValue (SubnetDetails.binaryIp d) 0 = ipToLong ip /\
  binaryValue (SubnetDetails.binaryNet d) 0 = networkOf d.
Proof.
  intros H Hc. cbv zeta.
  destruct (calc_fields_valid ip cidr parentCidr H Hc) as (En & _).
  cbv zeta in En. rewrite En.
  destruct (calc_span_arith ip cidr Hc) as (HK & An & _ & Hn & Hb).
  cbv zeta in *.
  rewrite calculateSubnet_valid by assumption. cbv zeta.
  cbn [SubnetDetails.binaryMask SubnetDetails.binaryNet SubnetDetails.binaryIp].
  pose proof (ipToLong_range ip) as Ha.
  assert (Vip : binaryValue (toBinaryString (ipToLong ip)) 0 = ipToLong ip).
  { rewrite toBinaryString_value. now apply toUint32_small. }
  assert (Vnet : binaryValue (toBinaryString (calc_networkLong ip cidr)) 0 =
                 calc_networkLong ip cidr).
  { rewrite toBinaryString_value. apply toUint32_small. rewrite An. lia. }
  split; [|split; [|split; [exact Vip | exact Vnet]]].
  - pose proof (prefixes_forallb _ binaryMask_check cidr ltac:(lia)) as Hm.
    cbv beta in Hm. destruct (Z.eqb_spec cidr 0); [lia|].
    cbn [orb] in Hm. now apply String.eqb_eq.
  - destruct (toBinaryString_shape (ipToLong ip)) as [Lip Bip].
    destruct (toBinaryString_shape (calc_networkLong ip cidr)) as [Lnet Bnet].
    assert (Hle : (Z.to_nat cidr <= String.length (toBinaryString (ipToLong ip)))%nat)
      by (rewrite Lip; lia).
    destruct (takeChars_split _ _ Hle) as (t & _ & Lt & _).
    apply binaryValue_inj.
    + rewrite Lnet, string_length_app, Lt, repeatChar_length. lia.
    + exact Bnet.
    + apply allBinary_app; [now apply allBinary_takeChars | apply allBinary_repeat0].
    + rewrite Vnet, binaryValue_app, binaryValue_zeros.
      rewrite binaryValue_takeChars by exact Hle.
      rewrite Vip, Lip, An.
      replace (Z.of_nat (32 - Z.to_nat cidr)) with (32 - cidr) by lia.
      pose proof (Z.div_mod (ipToLong ip) (2 ^ (32 - cidr)) ltac:(lia)). lia.
Qed.

Lemma binary_fields_shape_witness :
  SubnetDetails.binaryMask (calculateSubnet "192.168.1.10" 26 None) =
  repeatChar 26 "1" ++ repeatChar 6 "0".
Proof.
  pose proof (binary_fields_shape "192.168.1.10" 26 None eq_refl ltac:(lia)) as H.
  cbv zeta in H. exact (proj1 H).
Defined.

(** ** The table against the calculation *)

Section TableAndCalculation.

Lemma filter_single {A : Type} (f : A -> bool) (g : nat -> A) (k n : nat) :
  (forall i, (i < n)%nat -> (f (g i) = true <-> i = k)) ->
  List.length (filter f (map g (seq 0 n))) = if (k <? n)%nat then 1%nat else 0%nat.
Proof.
  induction n as [|n IH]; intros H; [reflexivity|].
  rewrite seq_S, map_app, filter_app, length_app, IH
    by (intros i Hi; apply H; lia).
  cbn [Nat.add map filter].
  specialize (H n ltac:(lia)).
  destruct (f (g n)) eqn:E.
  - assert (n = k) by now apply H. subst k.
    destruct (Nat.ltb_spec n n); [lia|].
    destruct (Nat.ltb_spec n (S n)); [reflexivity | lia].
  - assert (n <> k) by (intros Heq; apply H in Heq; congruence).
    cbn [List.length]. rewrite Nat.add_0_r.
    destruct (Nat.ltb_spec k n), (Nat.ltb_spec k (S n)); lia.
Qed.

(** The facts about one table with a base prefix of 1 to 32 that the
    statements below share. *)
Lemma table_geometry ip cidr baseCidr :
  1 <= baseCidr -> baseCidr <= cidr -> cidr <= 32 ->
  let a := ipToLong ip in
  let B := spanStart a baseCidr in
  let inc := 2 ^ (32 - cidr) in
  let T := 2 ^ (cidr - baseCidr) in
  0 < inc /\ 0 < T /\
  B <= a <= B + T * inc - 1 /\ B + T * inc <= JS.two32 /\ 0 <= B /\
  B mod inc = 0 /\
  spanEnd a baseCidr = B + T * inc - 1 /\
  0 <= subnetIndex a baseCidr cidr < T /\
  (forall i, B + i * inc <= a <= B + i * inc + inc - 1 <->
             i = subnetIndex a baseCidr cidr) /\
  spanStart a cidr = B + subnetIndex a baseCidr cidr * inc.
Proof.
  intros Hb Hbc Hc. cbv zeta.
  pose proof (ipToLong_range ip) as Ha.
  set (a := ipToLong ip) in *.
  assert (Hinc : 0 < 2 ^ (32 - cidr)) by (apply Z.pow_pos_nonneg; lia).
  assert (HT : 0 < 2 ^ (cidr - baseCidr)) by (apply Z.pow_pos_nonneg; lia).
  assert (EK : 2 ^ (32 - baseCidr) = 2 ^ (cidr - baseCidr) * 2 ^ (32 - cidr)).
  { rewrite <- pow2_split by lia. f_equal. lia. }
  pose proof (span_bounds a baseCidr Ha ltac:(lia)) as (Hs & He).
  rewrite spanEnd_arith in He by (assumption || lia).
  assert (EB : spanStart a baseCidr = a - a mod 2 ^ (32 - baseCidr))
    by (apply spanStart_arith; assumption || lia).
  assert (Ec : spanStart a cidr = a - a mod 2 ^ (32 - cidr))
    by (apply spanStart_arith; assumption || lia).
  unfold subnetIndex. fold (spanStart a baseCidr).
  set (B := spanStart a baseCidr) in *.
  set (inc := 2 ^ (32 - cidr)) in *. set (T := 2 ^ (cidr - baseCidr)) in *.
  rewrite EK in *.
  assert (HB0 : B mod inc = 0).
  { rewrite EB.
    pose proof (Z.div_mod a (T * inc) ltac:(nia)) as Ed.
    replace (a - a mod (T * inc)) with ((a / (T * inc) * T) * inc) by lia.
    apply Z.mod_mul. lia. }
  pose proof (Z.mod_pos_bound a (T * inc) ltac:(nia)) as Hm.
  pose proof (Z.div_mod (a - B) inc ltac:(lia)) as Ed.
  pose proof (Z.mod_pos_bound (a - B) inc Hinc) as Hr.
  set (k := (a - B) / inc) in *.
  assert (Hk : 0 <= k < T) by nia.
  assert (Hiff : forall i, B + i * inc <= a <= B + i * inc + inc - 1 <-> i = k).
  { intros i. split; [intros Hi; nia | intros ->; nia]. }
  split; [exact Hinc|]. split; [exact HT|]. split; [lia|]. split; [lia|].
  split; [lia|]. split; [exact HB0|].
  split; [rewrite spanEnd_arith by (assumption || lia); fold B; lia|].
  split; [exact Hk|]. split; [exact Hiff|].
  rewrite Ec. symmetry.
  assert (Hmem : (B + k * inc) - (B + k * inc) mod inc <= a
                   <= (B + k * inc) - (B + k * inc) mod inc + inc - 1).
  { rewrite Z.mod_add, HB0 by lia. nia. }
  pose proof (block_of_member (B + k * inc) a inc Hinc Hmem) as E.
  rewrite Z.mod_add, HB0 in E by lia. lia.
Qed.

Lemma table_row_readback ip cidr baseCidr i :
  1 <= baseCidr -> baseCidr <= cidr -> cidr <= 32 ->
  0 <= i < 2 ^ (cidr - baseCidr) ->
  let row := table_row ip cidr baseCidr i in
  rowStart row = spanStart (ipToLong ip) baseCidr + i * 2 ^ (32 - cidr) /\
  rowEnd row = spanStart (ipToLong ip) baseCidr + i * 2 ^ (32 - cidr)
               + 2 ^ (32 - cidr) - 1.
Proof.
  intros Hb Hbc Hc Hi. cbv zeta.
  destruct (table_row_bounds ip cidr baseCidr i Hb Hbc Hc Hi) as (En & Eb & Hlo & Hhi).
  assert (Hinc : 0 < 2 ^ (32 - cidr)) by (apply Z.pow_pos_nonneg; lia).
  unfold rowStart, rowEnd, table_row. cbv zeta.
  cbn [SubnetRow.networkAddress SubnetRow.broadcastAddress].
  rewrite En, Eb. rewrite !ipToLong_longToIp_small by lia. split; reflexivity.
Qed.

Lemma table_rows_index ip cidr baseCidr limit i row :
  isValidIp ip = true -> baseCidr <= cidr ->
  nth_error (SubnetTable.rows (generateSubnetTable ip cidr baseCidr limit)) i
    = Some row ->
  0 <= Z.of_nat i < 2 ^ (cidr - baseCidr) /\
  Z.of_nat i < match limit with Some l => l | None => 256 end /\
  row = table_row ip cidr baseCidr (Z.of_nat i).
Proof.
  intros H Hbc. rewrite generateSubnetTable_valid by assumption. cbv zeta.
  cbn [SubnetTable.rows]. intros Hn.
  apply table_rows_nth_inv in Hn as [Hi ->]. repeat split; lia.
Qed.

End TableAndCalculation.

(** X13.  With a valid address and prefixes [1 <= baseCidr <= cidr <= 32] the
    rows of the table tile the parent network: the first row starts at the
    network address of the address under [baseCidr], every row starts one
    address after the row before it ends, every row lies inside the parent
    network, and when the table is not truncated the last row ends at the
    parent's broadcast address. *)
Theorem table_rows_tile_parent ip cidr baseCidr limit :
  isValidIp ip = true -> 1 <= baseCidr -> baseCidr <= cidr -> cidr <= 32 ->
  let t := generateSubnetTable ip cidr baseCidr limit in
  let rows := SubnetTable.rows t in
  let parent := calculateSubnet ip baseCidr None in
  (forall row, nth_error rows 0 = Some row -> rowStart row = networkOf parent) /\
  (forall i row next,
      nth_error rows i = Some row -> nth_error rows (S i) = Some next ->
      rowStart next = rowEnd row + 1) /\
  (forall i row,
      nth_error rows i = Some row ->
      networkOf parent <= rowStart row /\ rowStart row <= rowEnd row /\
      rowEnd row <= broadcastOf parent) /\
  (SubnetTable.truncated t = false ->
   forall row, nth_error rows (List.length rows - 1) = Some row ->
               rowEnd row = broadcastOf parent).
Proof.
  intros H Hb Hbc Hc. cbv zeta.
  destruct (calc_fields_valid ip baseCidr None H ltac:(lia)) as (En & Eb & _).
  cbv zeta in En, Eb. rewrite En, Eb.
  rewrite calc_networkLong_span, calc_broadcastLong_span by lia.
  destruct (table_geometry ip cidr baseCidr Hb Hbc Hc)
    as (Hinc & HT & Ha & Htop & HB & _ & Eend & _).
  cbv zeta in *. rewrite Eend.
  assert (Hrow : forall i row,
            nth_error (SubnetTable.rows (generateSubnetTable ip cidr baseCidr limit)) i
              = Some row ->
            0 <= Z.of_nat i < 2 ^ (cidr - baseCidr) /\
            rowStart row = spanStart (ipToLong ip) baseCidr
                           + Z.of_nat i * 2 ^ (32 - cidr) /\
            rowEnd row = spanStart (ipToLong ip) baseCidr
                         + Z.of_nat i * 2 ^ (32 - cidr) + 2 ^ (32 - cidr) - 1).
  { intros i row Hn.
    destruct (table_rows_index _ _ _ _ _ _ H Hbc Hn) as (Hi & _ & ->).
    split; [exact Hi|]. now apply table_row_readback. }
  split; [|split; [|split]].
  - intros row Hn. destruct (Hrow _ _ Hn) as (_ & Es & _). rewrite Es. cbn. lia.
  - intros i row next Hn Hs.
    destruct (Hrow _ _ Hn) as (_ & _ & Ee). destruct (Hrow _ _ Hs) as (_ & Es & _).
    rewrite Es, Ee. lia.
  - intros i row Hn. destruct (Hrow _ _ Hn) as (Hi & Es & Ee).
    rewrite Es, Ee. nia.
  - intros Htr row Hn.
    assert (Hlen : List.length (SubnetTable.rows
                     (generateSubnetTable ip cidr baseCidr limit))
                   = Z.to_nat (2 ^ (cidr - baseCidr))).
    { rewrite generateSubnetTable_valid in Htr |- * by assumption.
      cbv zeta in Htr |- *. cbn [SubnetTable.truncated SubnetTable.rows] in Htr |- *.
      rewrite table_rows_length.
      rewrite Z.gtb_ltb in Htr. apply Z.ltb_ge in Htr. now rewrite Z.min_l. }
    rewrite Hlen in Hn. destruct (Hrow _ _ Hn) as (Hi & _ & Ee). rewrite Ee.
    replace (Z.of_nat (Z.to_nat (2 ^ (cidr - baseCidr)) - 1))
      with (2 ^ (cidr - baseCidr) - 1) by lia.
    ring.
Qed.

Lemma table_rows_tile_parent_witness :
  rowStart (table_row "192.168.1.10" 26 24 0) =
  networkOf (calculateSubnet "192.168.1.10" 24 None).
Proof.
  pose proof (table_rows_tile_parent "192.168.1.10" 26 24 None eq_refl
                ltac:(lia) ltac:(lia) ltac:(lia)) as H.
  cbv zeta in H. apply (proj1 H). reflexivity.
Defined.

(** X6.  With a valid address and prefixes [1 <= baseCidr <= cidr <= 32],
    the row marked current is the row at the position of the address's
    subnet, it shows the network address, the broadcast address and the host
    range that [calculateSubnet] reports for the same address and prefix, and
    [totalCount] is the [subnetsCreated] of that calculation.  Exactly one row
    is current when that position is below the limit, and none otherwise. *)
Theorem current_row_is_calculated_subnet ip cidr baseCidr limit :
  isValidIp ip = true -> 1 <= baseCidr -> baseCidr <= cidr -> cidr <= 32 ->
  let lim := match limit with Some l => l | None => 256 end in
  let t := generateSubnetTable ip cidr baseCidr limit in
  let rows := SubnetTable.rows t in
  let d := calculateSubnet ip cidr (Some baseCidr) in
  let k := subnetIndex (ipToLong ip) baseCidr cidr in
  0 <= k < SubnetTable.totalCount t /\
  SubnetTable.totalCount t = SubnetDetails.subnetsCreated d /\
  (forall i row,
      nth_error rows i = Some row ->
      (SubnetRow.isCurrent row = true <-> Z.of_nat i = k) /\
      (SubnetRow.isCurrent row = true ->
       SubnetRow.networkAddress row = SubnetDetails.networkAddress d /\
       SubnetRow.broadcastAddress row = SubnetDetails.broadcastAddress d /\
       SubnetRow.range row =
         (if cidr <? 31
          then SubnetDetails.firstHost d ++ " - " ++ SubnetDetails.lastHost d
          else "N/A"))) /\
  (k < lim -> currentCount rows = 1%nat) /\
  (lim <= k -> currentCount rows = 0%nat).
Proof.
  intros H Hb Hbc Hc. cbv zeta.
  destruct (table_geometry ip cidr baseCidr Hb Hbc Hc)
    as (Hinc & HT & Ha & Htop & HB & _ & _ & Hk & Hiff & Ecur).
  cbv zeta in *.
  set (k := subnetIndex (ipToLong ip) baseCidr cidr) in *.
  assert (Hcur : forall i, 0 <= i < 2 ^ (cidr - baseCidr) ->
            (SubnetRow.isCurrent (table_row ip cidr baseCidr i) = true <-> i = k)).
  { intros i Hi. rewrite table_row_isCurrent.
    destruct (table_row_bounds ip cidr baseCidr i Hb Hbc Hc Hi) as (En & Eb & _).
    rewrite En, Eb. apply Hiff. }
  split; [|split; [|split; [|split]]].
  - rewrite generateSubnetTable_valid by assumption. exact Hk.
  - rewrite generateSubnetTable_valid, calculateSubnet_valid by assumption.
    cbv zeta. cbn [SubnetTable.totalCount SubnetDetails.subnetsCreated].
    rewrite Z.geb_leb.
    destruct (Z.gtb_spec baseCidr 0); [|lia].
    destruct (Z.leb_spec baseCidr cidr); [reflexivity | lia].
  - intros i row Hn.
    destruct (table_rows_index _ _ _ _ _ _ H Hbc Hn) as (Hi & _ & ->).
    split; [now apply Hcur|].
    intros Hc'. apply Hcur in Hc'; [|exact Hi].
    destruct (table_row_bounds ip cidr baseCidr _ Hb Hbc Hc Hi) as (En & Eb & _).
    rewrite Hc' in En, Eb |- *. rewrite <- Ecur in En, Eb.
    destruct (calc_span_arith ip cidr ltac:(lia)) as (_ & An & Ab & _).
    cbv zeta in An, Ab.
    rewrite spanStart_arith in En, Eb by (apply ipToLong_range || lia).
    rewrite calculateSubnet_valid by assumption. cbv zeta.
    cbn [SubnetDetails.networkAddress SubnetDetails.broadcastAddress
         SubnetDetails.firstHost SubnetDetails.lastHost].
    unfold table_row. cbv zeta.
    cbn [SubnetRow.networkAddress SubnetRow.broadcastAddress SubnetRow.range].
    rewrite !ushr_0, !longToIp_toUint32, En, Eb, An, Ab.
    destruct (cidr <? 31); repeat split; reflexivity.
  - intros Hlt. rewrite generateSubnetTable_valid by assumption. cbv zeta.
    cbn [SubnetTable.rows]. unfold currentCount, table_rows.
    rewrite (filter_single _ _ (Z.to_nat k)).
    + destruct (Nat.ltb_spec (Z.to_nat k) (Z.to_nat (Z.min (2 ^ (cidr - baseCidr))
                 match limit with Some l => l | None => 256 end)));
        [reflexivity | lia].
    + intros i Hi. rewrite Hcur by lia. lia.
  - intros Hge. rewrite generateSubnetTable_valid by assumption. cbv zeta.
    cbn [SubnetTable.rows]. unfold currentCount, table_rows.
    rewrite (filter_single _ _ (Z.to_nat k)).
    + destruct (Nat.ltb_spec (Z.to_nat k) (Z.to_nat (Z.min (2 ^ (cidr - baseCidr))
                 match limit with Some l => l | None => 256 end)));
        [lia | reflexivity].
    + intros i Hi. rewrite Hcur by lia. lia.
Qed.

Lemma current_row_is_calculated_subnet_witness :
  currentCount (SubnetTable.rows (generateSubnetTable "192.168.1.10" 26 24 None))
  = 1%nat.
Proof.
  pose proof (current_row_is_calculated_subnet "192.168.1.10" 26 24 None eq_refl
                ltac:(lia) ltac:(lia) ltac:(lia)) as H.
  cbv zeta in H. destruct H as (_ & _ & _ & H1 & _).
  apply H1. vm_compute. reflexivity.
Defined.

(** ** Private ranges, overlap and classes *)

(** Decides every comparison of the goal that linear arithmetic settles. *)
Ltac decide_comparisons :=
  rewrite ?Z.geb_leb, ?Z.gtb_ltb;
  repeat match goal with
         | |- context [?x <=? ?y] =>
             first [ rewrite (proj2 (Z.leb_le x y)) by dlia
                   | rewrite (proj2 (Z.leb_gt x y)) by dlia ]
         | |- context [?x <? ?y] =>
             first [ rewrite (proj2 (Z.ltb_lt x y)) by dlia
                   | rewrite (proj2 (Z.ltb_ge x y)) by dlia ]
         end.

Section PrivateRanges.

Lemma inPrivateRange_cases long :
  inPrivateRange long = true <->
  167772160 <= long <= 184549375 \/ 2886729728 <= long <= 2887778303 \/
  3232235520 <= long <= 3232301055.
Proof.
  unfold inPrivateRange, PRIVATE_RANGES, inRange.
  cbn [existsb PrivateRange.start PrivateRange.end_].
  rewrite !Z.geb_leb.
  destruct (Z.leb_spec 167772160 long), (Z.leb_spec long 184549375),
    (Z.leb_spec 2886729728 long), (Z.leb_spec long 2887778303),
    (Z.leb_spec 3232235520 long), (Z.leb_spec long 3232301055);
    cbn; split; intros Hx; try reflexivity; try discriminate Hx; lia.
Qed.

Lemma getIpCategory_private ip :
  isValidIp ip = true ->
  (IpCategoryInfo.type (getIpCategory ip) = Private <->
   inPrivateRange (ipToLong ip) = true).
Proof.
  intros H. unfold getIpCategory, inPrivateRange. rewrite H. cbn [negb]. cbv zeta.
  unfold PRIVATE_RANGES. cbn [find existsb].
  destruct (inRange (ipToLong ip) _); [cbn; tauto|].
  destruct (inRange (ipToLong ip) _); [cbn; tauto|].
  destruct (inRange (ipToLong ip) _); [cbn; tauto|].
  cbn [orb].
  repeat match goal with
         | |- context [if ?c then _ else _] => destruct c
         end; cbn; split; discriminate.
Qed.

(** The private range an address lies in fixes what [getIpCategory] says. *)
Lemma categoryOf_in_range ip :
  isValidIp ip = true ->
  let a := ipToLong ip in
  (167772160 <= a <= 184549375 ->
     categoryOf ip = (Private, Some "10.0.0.0/8", Some 8)) /\
  (2886729728 <= a <= 2887778303 ->
     categoryOf ip = (Private, Some "172.16.0.0/12", Some 12)) /\
  (3232235520 <= a <= 3232301055 ->
     categoryOf ip = (Private, Some "192.168.0.0/16", Some 16)).
Proof.
  intros H. cbv zeta. unfold categoryOf, getIpCategory. rewrite H. cbn [negb].
  cbv zeta. unfold PRIVATE_RANGES, inRange.
  cbn [find PrivateRange.start PrivateRange.end_].
  repeat split; intros Hr; decide_comparisons; reflexivity.
Qed.

Lemma firstOverlap_unfold s e :
  firstOverlap s e =
  if (s <=? 184549375) && (167772160 <=? e) then Some "10.0.0.0/8"
  else if (s <=? 2887778303) && (2886729728 <=? e) then Some "172.16.0.0/12"
  else if (s <=? 3232301055) && (3232235520 <=? e) then Some "192.168.0.0/16"
  else None.
Proof.
  unfold firstOverlap, rfc1918. cbn [find].
  change (quad 10 0 0 0 + 2 ^ (32 - 8) - 1) with 184549375.
  change (quad 172 16 0 0 + 2 ^ (32 - 12) - 1) with 2887778303.
  change (quad 192 168 0 0 + 2 ^ (32 - 16) - 1) with 3232301055.
  change (quad 10 0 0 0) with 167772160.
  change (quad 172 16 0 0) with 2886729728.
  change (quad 192 168 0 0) with 3232235520.
  rewrite !Z.geb_leb.
  repeat match goal with
         | |- context [if ?c then _ else _] => destruct c
         end; reflexivity.
Qed.

(** No overlap is reported exactly when no address of the span is private. *)
Lemma firstOverlap_none s e :
  s <= e ->
  (firstOverlap s e = None <->
   forall x, s <= x <= e -> inPrivateRange x = false).
Proof.
  intros Hse. rewrite firstOverlap_unfold. split.
  - intros Hn x Hx.
    destruct (inPrivateRange x) eqn:E; [|reflexivity].
    apply inPrivateRange_cases in E. exfalso.
    destruct (Z.leb_spec s 184549375), (Z.leb_spec 167772160 e);
      cbn [andb] in Hn; try discriminate Hn;
      destruct (Z.leb_spec s 2887778303), (Z.leb_spec 2886729728 e);
      cbn [andb] in Hn; try discriminate Hn;
      destruct (Z.leb_spec s 3232301055), (Z.leb_spec 3232235520 e);
      cbn [andb] in Hn; try discriminate Hn; lia.
  - intros Hall.
    assert (Hno : forall lo hi, lo <= hi ->
              (forall x, lo <= x <= hi -> inPrivateRange x = true) ->
              (s <=? hi) && (lo <=? e) = false).
    { intros lo hi Hlh Hin.
      destruct (Z.leb_spec s hi), (Z.leb_spec lo e); try reflexivity.
      specialize (Hall (Z.max s lo) ltac:(lia)).
      rewrite Hin in Hall by lia. discriminate Hall. }
    rewrite (Hno 167772160 184549375), (Hno 2886729728 2887778303),
      (Hno 3232235520 3232301055); try lia; try reflexivity;
      intros x Hx; apply inPrivateRange_cases; lia.
Qed.

Lemma aligned_block_inside a K S E1 :
  0 < K -> S mod K = 0 -> E1 mod K = 0 -> S <= a < E1 ->
  S <= a - a mod K /\ a - a mod K + K <= E1.
Proof.
  intros HK HS HE Ha.
  pose proof (Z.div_mod a K ltac:(lia)) as Ea.
  pose proof (Z.div_mod S K ltac:(lia)) as Es.
  pose proof (Z.div_mod E1 K ltac:(lia)) as Ee.
  pose proof (Z.mod_pos_bound a K HK).
  rewrite HS in Es. rewrite HE in Ee.
  assert (S / K <= a / K) by nia.
  assert (a / K < E1 / K) by nia.
  nia.
Qed.

Lemma pow2_multiple c n j : 0 <= j <= n -> (c * 2 ^ n) mod 2 ^ j = 0.
Proof.
  intros H. replace n with ((n - j) + j) by lia.
  rewrite Z.pow_add_r by lia. rewrite Z.mul_assoc. apply Z.mod_mul.
  apply Z.pow_nonzero; lia.
Qed.

(** The subnet of an address of a private range, under a prefix at least the
    minimum prefix of the range, lies inside the range. *)
Lemma private_subnet_inside a cidr c m :
  0 <= m <= cidr -> cidr <= 32 ->
  c * 2 ^ (32 - m) <= a < (c + 1) * 2 ^ (32 - m) ->
  c * 2 ^ (32 - m) <= a - a mod 2 ^ (32 - cidr) /\
  a - a mod 2 ^ (32 - cidr) + 2 ^ (32 - cidr) - 1 <= (c + 1) * 2 ^ (32 - m) - 1.
Proof.
  intros Hm Hc Ha.
  assert (HK : 0 < 2 ^ (32 - cidr)) by (apply Z.pow_pos_nonneg; lia).
  destruct (aligned_block_inside a (2 ^ (32 - cidr)) (c * 2 ^ (32 - m))
              ((c + 1) * 2 ^ (32 - m)) HK) as [H1 H2];
    try (apply pow2_multiple; lia); try exact Ha.
  lia.
Qed.

Lemma calc_span_member ip cidr :
  0 <= cidr <= 32 ->
  0 <= calc_networkLong ip cidr <= ipToLong ip /\
  ipToLong ip <= calc_broadcastLong ip cidr < JS.two32.
Proof.
  intros Hc. pose proof (ipToLong_range ip) as Ha.
  destruct (Z.eq_dec cidr 0) as [->|Hn].
  - destruct (calc_prefix0 ip) as (_ & -> & ->). lia.
  - destruct (calc_span_arith ip cidr ltac:(lia)) as (_ & -> & -> & H1 & H2).
    cbv zeta in *. lia.
Qed.

(** One private range [lo, hi] = [c * 2^(32-m), (c+1) * 2^(32-m) - 1] with
    name [name]: what holds for an address inside it. *)
Lemma private_range_case ip cidr lo hi c m name :
  isValidIp ip = true -> 0 <= cidr <= 32 -> 1 <= m <= 32 ->
  lo = c * 2 ^ (32 - m) -> hi = (c + 1) * 2 ^ (32 - m) - 1 ->
  lo <= ipToLong ip <= hi ->
  (forall s e, lo <= s -> s <= e -> e <= hi -> firstOverlap s e = Some name) ->
  (forall other, isValidIp other = true -> lo <= ipToLong other <= hi ->
                 categoryOf other = (Private, Some name, Some m)) ->
  checkPrivateOverlap ip cidr <> None /\
  (m <= cidr ->
   checkPrivateOverlap ip cidr = Some name /\
   forall other,
     isValidIp other = true ->
     networkOf (calculateSubnet ip cidr None) <= ipToLong other
       <= broadcastOf (calculateSubnet ip cidr None) ->
     categoryOf other = categoryOf ip).
Proof.
  intros H Hc Hm Elo Ehi Ha Hfirst Hcat.
  rewrite checkPrivateOverlap_valid by assumption.
  destruct (calc_span_member ip cidr Hc) as (Hn & Hb).
  split.
  - intros Hnone. rewrite firstOverlap_none in Hnone by lia.
    specialize (Hnone (ipToLong ip) ltac:(lia)).
    specialize (Hcat ip H Ha).
    assert (Hp : IpCategoryInfo.type (getIpCategory ip) = Private)
      by (unfold categoryOf in Hcat; congruence).
    apply getIpCategory_private in Hp; [congruence | assumption].
  - intros Hmc.
    destruct (calc_span_arith ip cidr ltac:(lia)) as (HK & An & Ab & _).
    cbv zeta in HK, An, Ab.
    destruct (private_subnet_inside (ipToLong ip) cidr c m ltac:(lia) ltac:(lia)
                ltac:(lia)) as [Hin1 Hin2].
    split.
    + apply Hfirst; rewrite ?An, ?Ab; lia.
    + intros other Ho Hr.
      destruct (calc_fields_valid ip cidr None H ltac:(lia)) as (En & Eb & _).
      cbv zeta in En, Eb. rewrite En, Eb, An, Ab in Hr.
      rewrite (Hcat ip H Ha). apply Hcat; [exact Ho | lia].
Qed.

End PrivateRanges.

Lemma private_subnet_core ip cidr :
  isValidIp ip = true ->
  IpCategoryInfo.type (getIpCategory ip) = Private ->
  0 <= cidr <= 32 ->
  checkPrivateOverlap ip cidr <> None /\
  (forall m,
      IpCategoryInfo.minCidr (getIpCategory ip) = Some m -> m <= cidr ->
      checkPrivateOverlap ip cidr = IpCategoryInfo.rangeName (getIpCategory ip) /\
      forall other,
        isValidIp other = true ->
        networkOf (calculateSubnet ip cidr None) <= ipToLong other
          <= broadcastOf (calculateSubnet ip cidr None) ->
        categoryOf other = categoryOf ip).
Proof.
  intros H Hp Hc.
  pose proof (proj1 (getIpCategory_private ip H) Hp) as Hin.
  apply inPrivateRange_cases in Hin.
  assert (Hcat : forall other, isValidIp other = true ->
            (167772160 <= ipToLong other <= 184549375 ->
               categoryOf other = (Private, Some "10.0.0.0/8", Some 8)) /\
            (2886729728 <= ipToLong other <= 2887778303 ->
               categoryOf other = (Private, Some "172.16.0.0/12", Some 12)) /\
            (3232235520 <= ipToLong other <= 3232301055 ->
               categoryOf other = (Private, Some "192.168.0.0/16", Some 16)))
    by (intros other Ho; exact (categoryOf_in_range other Ho)).
  destruct Hin as [Hr|[Hr|Hr]].
  - destruct (private_range_case ip cidr 167772160 184549375 10 8 "10.0.0.0/8"
                H Hc ltac:(lia) eq_refl eq_refl Hr) as [Hnn Hsub].
    + intros s e Hs Hse He. rewrite firstOverlap_unfold. decide_comparisons.
      reflexivity.
    + intros other Ho Hro. now apply (Hcat other Ho).
    + split; [exact Hnn|]. intros m Em Hm.
      pose proof (proj1 (Hcat ip H) Hr) as Ec. unfold categoryOf in Ec.
      injection Ec as Et En Emin. rewrite Em in Emin. injection Emin as ->.
      rewrite En. now apply Hsub.
  - destruct (private_range_case ip cidr 2886729728 2887778303 2753 12
                "172.16.0.0/12" H Hc ltac:(lia) eq_refl eq_refl Hr) as [Hnn Hsub].
    + intros s e Hs Hse He. rewrite firstOverlap_unfold. decide_comparisons.
      reflexivity.
    + intros other Ho Hro. now apply (Hcat other Ho).
    + split; [exact Hnn|]. intros m Em Hm.
      pose proof (proj1 (proj2 (Hcat ip H)) Hr) as Ec. unfold categoryOf in Ec.
      injection Ec as Et En Emin. rewrite Em in Emin. injection Emin as ->.
      rewrite En. now apply Hsub.
  - destruct (private_range_case ip cidr 3232235520 3232301055 49320 16
                "192.168.0.0/16" H Hc ltac:(lia) eq_refl eq_refl Hr) as [Hnn Hsub].
    + intros s e Hs Hse He. rewrite firstOverlap_unfold. decide_comparisons.
      reflexivity.
    + intros other Ho Hro. now apply (Hcat other Ho).
    + split; [exact Hnn|]. intros m Em Hm.
      pose proof (proj2 (proj2 (Hcat ip H)) Hr) as Ec. unfold categoryOf in Ec.
      injection Ec as Et En Emin. rewrite Em in Emin. injection Emin as ->.
      rewrite En. now apply Hsub.
Qed.

(** X14.  For a valid address that [getIpCategory] classifies as Private and
    a prefix of 0 to 32, [checkPrivateOverlap] never answers none.  When the
    prefix is at least the [minCidr] of the category, it answers the range
    name of the category, and every valid address between the network and the
    broadcast address of the subnet has the same category: the subnet stays
    inside the private range. *)
Theorem private_subnet_stays_private ip cidr :
  isValidIp ip = true ->
  IpCategoryInfo.type (getIpCategory ip) = Private ->
  0 <= cidr <= 32 ->
  checkPrivateOverlap ip cidr <> None /\
  (forall m,
      IpCategoryInfo.minCidr (getIpCategory ip) = Some m -> m <= cidr ->
      checkPrivateOverlap ip cidr = IpCategoryInfo.rangeName (getIpCategory ip) /\
      forall other,
        isValidIp other = true ->
        networkOf (calculateSubnet ip cidr None) <= ipToLong other
          <= broadcastOf (calculateSubnet ip cidr None) ->
        categoryOf other = categoryOf ip).
Proof.
  intros H Hp Hc. exact (private_subnet_core ip cidr H Hp Hc).
Qed.

Lemma private_subnet_stays_private_witness :
  checkPrivateOverlap "10.5.0.1" 24 = Some "10.0.0.0/8".
Proof.
  destruct (private_subnet_stays_private "10.5.0.1" 24 eq_refl eq_refl ltac:(lia))
    as [_ H].
  destruct (H 8 eq_refl ltac:(lia)) as [E _]. rewrite E. reflexivity.
Defined.

Lemma overlap_none_core ip cidr :
  isValidIp ip = true -> 1 <= cidr <= 32 ->
  let d := calculateSubnet ip cidr None in
  checkPrivateOverlap ip cidr = None <->
  (forall other,
      isValidIp other = true ->
      networkOf d <= ipToLong other <= broadcastOf d ->
      IpCategoryInfo.type (getIpCategory other) <> Private).
Proof.
  intros H Hc. cbv zeta.
  destruct (calc_fields_valid ip cidr None H Hc) as (En & Eb & _).
  cbv zeta in En, Eb. rewrite En, Eb.
  destruct (calc_span_member ip cidr ltac:(lia)) as (Hn & Hb).
  rewrite checkPrivateOverlap_valid by assumption.
  rewrite firstOverlap_none by lia. split.
  - intros Hall other Ho Hr Hp.
    apply (getIpCategory_private other Ho) in Hp.
    rewrite Hall in Hp by exact Hr. discriminate Hp.
  - intros Hall x Hx.
    destruct (inPrivateRange x) eqn:E; [|reflexivity]. exfalso.
    destruct (longToIp_valid x) as [Hv Hl].
    rewrite toUint32_small in Hl by lia.
    apply (Hall (longToIp x) Hv); [rewrite Hl; exact Hx|].
    apply getIpCategory_private; [exact Hv | now rewrite Hl].
Qed.

(** X15.  For a valid address and a prefix of 1 to 32, [checkPrivateOverlap]
    answers none exactly when no valid address between the network and the
    broadcast address of the subnet is classified Private by
    [getIpCategory]. *)
Theorem checkPrivateOverlap_none_iff_no_private ip cidr :
  isValidIp ip = true -> 1 <= cidr <= 32 ->
  let d := calculateSubnet ip cidr None in
  checkPrivateOverlap ip cidr = None <->
  (forall other,
      isValidIp other = true ->
      networkOf d <= ipToLong other <= broadcastOf d ->
      IpCategoryInfo.type (getIpCategory other) <> Private).
Proof.
  intros H Hc. exact (overlap_none_core ip cidr H Hc).
Qed.

Lemma checkPrivateOverlap_none_iff_no_private_witness :
  IpCategoryInfo.type (getIpCategory "8.8.8.200") <> Private.
Proof.
  apply (proj1 (checkPrivateOverlap_none_iff_no_private "8.8.8.8" 24 eq_refl
                  ltac:(lia)) eq_refl "8.8.8.200" eq_refl).
  vm_compute. split; discriminate.
Defined.

(** Splits the 32-bit range of [a] at the listed bounds. *)
Ltac split_at a bounds :=
  lazymatch bounds with
  | nil => idtac
  | cons ?b ?rest => destruct (Z_lt_ge_dec a b); [|split_at a rest]
  end.

(** X7.  The legacy class and the category of a valid address agree: the
    category is Multicast exactly for class D and Reserved exactly for class
    E, loopback and CGNAT addresses are class A, link-local addresses class B,
    and for a private address the default prefix of its class is at least the
    [minCidr] of its range. *)
Theorem class_agrees_with_category ip cidr parentCidr :
  isValidIp ip = true ->
  let d := calculateSubnet ip cidr parentCidr in
  let c := getIpCategory ip in
  (IpCategoryInfo.type c = Multicast <-> SubnetDetails.networkClass d = "D") /\
  (IpCategoryInfo.type c = Reserved <-> SubnetDetails.networkClass d = "E") /\
  (IpCategoryInfo.type c = Loopback -> SubnetDetails.networkClass d = "A") /\
  (IpCategoryInfo.type c = CGNAT -> SubnetDetails.networkClass d = "A") /\
  (IpCategoryInfo.type c = LinkLocal -> SubnetDetails.networkClass d = "B") /\
  (forall m, IpCategoryInfo.minCidr c = Some m ->
             IpCategoryInfo.type c = Private /\ m <= SubnetDetails.defaultCidr d).
Proof.
  intros H. cbv zeta. rewrite calculateSubnet_valid by assumption. cbv zeta.
  cbn [SubnetDetails.networkClass SubnetDetails.defaultCidr].
  destruct (calc_netClass_valid ip H) as [-> _].
  unfold getIpCategory. rewrite H. cbn [negb]. cbv zeta.
  unfold PRIVATE_RANGES, inRange, getNetworkClass, firstOctet.
  cbn [find PrivateRange.start PrivateRange.end_ PrivateRange.name
       PrivateRange.minCidr].
  pose proof (ipToLong_range ip) as Ha. unfold JS.two32 in Ha.
  set (a := ipToLong ip) in *. clearbody a.
  split_at a (167772160 :: 184549376 :: 1681915904 :: 1686110208 :: 2130706432
              :: 2147483648 :: 2851995648 :: 2852061184 :: 2886729728
              :: 2887778304 :: 3221225472 :: 3232235520 :: 3232301056
              :: 3758096384 :: 4026531840 :: nil);
    decide_comparisons;
    cbn [andb IpCategoryInfo.type IpCategoryInfo.minCidr NetworkClass.char
         NetworkClass.defaultCidr];
    repeat split; intros; try reflexivity; try discriminate;
    match goal with
    | Hm : Some _ = Some _ |- _ => injection Hm as <-; lia
    end.
Qed.

Lemma class_agrees_with_category_witness :
  SubnetDetails.networkClass (calculateSubnet "224.0.0.1" 24 None) = "D".
Proof.
  destruct (class_agrees_with_category "224.0.0.1" 24 None eq_refl) as (H & _).
  apply H. reflexivity.
Defined.

(** ** The calculator component *)

Section Component.

Lemma component_result_valid st :
  SubnetDetails.isValid (SubnetCalculatorComponent.result st) =
  isValidIp (SubnetCalculatorComponent.ipInput st).
Proof.
  unfold SubnetCalculatorComponent.result, calculateSubnet.
  destruct (isValidIp _); reflexivity.
Qed.

Lemma component_result_baseCidr st :
  isValidIp (SubnetCalculatorComponent.ipInput st) = true ->
  SubnetDetails.baseCidr (SubnetCalculatorComponent.result st) =
  SubnetCalculatorComponent.parentCidrInput st.
Proof.
  intros H. unfold SubnetCalculatorComponent.result.
  rewrite calculateSubnet_valid by assumption. reflexivity.
Qed.

Lemma private_minCidr ip :
  isValidIp ip = true -> IpCategoryInfo.type (getIpCategory ip) = Private ->
  exists m, IpCategoryInfo.minCidr (getIpCategory ip) = Some m /\ 8 <= m.
Proof.
  intros H Hp. apply (getIpCategory_private ip H) in Hp.
  apply inPrivateRange_cases in Hp.
  destruct (categoryOf_in_range ip H) as (C1 & C2 & C3). cbv zeta in *.
  unfold categoryOf in *.
  destruct Hp as [Hr|[Hr|Hr]].
  - specialize (C1 Hr). injection C1 as _ _ E. rewrite E.
    eexists; split; [reflexivity | lia].
  - specialize (C2 Hr). injection C2 as _ _ E. rewrite E.
    eexists; split; [reflexivity | lia].
  - specialize (C3 Hr). injection C3 as _ _ E. rewrite E.
    eexists; split; [reflexivity | lia].
Qed.

(** The names [checkPrivateOverlap] returns are not empty, so the test
    [if (overlap)] of the component is the test for an overlap. *)
Lemma overlap_truthy ip cidr :
  SubnetCalculatorComponent.truthyString (checkPrivateOverlap ip cidr) = false ->
  checkPrivateOverlap ip cidr = None.
Proof.
  unfold checkPrivateOverlap. destruct (negb (isValidIp ip)); [reflexivity|].
  cbv zeta. unfold PRIVATE_RANGES. cbn [find].
  repeat match goal with
         | |- context [if ?c then _ else _] => destruct c
         end; cbn; intros E; try discriminate E; reflexivity.
Qed.

Lemma component_isValid_inv st :
  SubnetCalculatorComponent.isValid st = true ->
  isValidIp (SubnetCalculatorComponent.ipInput st) = true /\
  SubnetCalculatorComponent.configError st = None /\
  SubnetCalculatorComponent.parentCidrInput st
    <= SubnetCalculatorComponent.cidrInput st.
Proof.
  unfold SubnetCalculatorComponent.isValid. cbv zeta.
  rewrite component_result_valid.
  destruct (isValidIp _); cbn [negb]; [|discriminate].
  destruct (SubnetCalculatorComponent.configError st); [discriminate|].
  rewrite Z.geb_leb, Z.leb_le. auto.
Qed.

Lemma configError_none_private st m :
  isValidIp (SubnetCalculatorComponent.ipInput st) = true ->
  SubnetCalculatorComponent.configError st = None ->
  IpCategoryInfo.type (getIpCategory (SubnetCalculatorComponent.ipInput st)) = Private ->
  IpCategoryInfo.minCidr (getIpCategory (SubnetCalculatorComponent.ipInput st)) = Some m ->
  m <= SubnetCalculatorComponent.parentCidrInput st.
Proof.
  intros H He Hp Hm.
  destruct (private_minCidr _ H Hp) as (m' & Hm' & H8).
  rewrite Hm in Hm'. injection Hm' as <-.
  unfold SubnetCalculatorComponent.configError in He. cbv zeta in He.
  unfold SubnetCalculatorComponent.ipInfo in He. rewrite Hp, Hm in He.
  cbn [SubnetCalculatorComponent.isPrivateType
       SubnetCalculatorComponent.truthyNumber andb] in He.
  destruct (Z.eqb_spec m 0); [lia|]. cbn [negb andb] in He.
  destruct (Z.ltb_spec (SubnetCalculatorComponent.parentCidrInput st) m);
    [discriminate He | lia].
Qed.

Lemma configError_none_public st :
  SubnetCalculatorComponent.configError st = None ->
  IpCategoryInfo.type (getIpCategory (SubnetCalculatorComponent.ipInput st)) = Public ->
  checkPrivateOverlap (SubnetCalculatorComponent.ipInput st)
    (SubnetCalculatorComponent.parentCidrInput st) = None.
Proof.
  intros He Hp.
  unfold SubnetCalculatorComponent.configError in He. cbv zeta in He.
  unfold SubnetCalculatorComponent.ipInfo in He. rewrite Hp in He.
  cbn [SubnetCalculatorComponent.isPrivateType
       SubnetCalculatorComponent.isPublicType andb] in He.
  apply overlap_truthy.
  destruct (SubnetCalculatorComponent.truthyString _); [discriminate He | reflexivity].
Qed.

Lemma table_row_inside_parent ip cidr baseCidr limit i row :
  isValidIp ip = true -> 1 <= baseCidr -> baseCidr <= cidr -> cidr <= 32 ->
  nth_error (SubnetTable.rows (generateSubnetTable ip cidr baseCidr limit)) i
    = Some row ->
  networkOf (calculateSubnet ip baseCidr None) <= rowStart row /\
  rowStart row <= rowEnd row /\
  rowEnd row <= broadcastOf (calculateSubnet ip baseCidr None).
Proof.
  intros H Hb Hbc Hc Hn.
  destruct (calc_fields_valid ip baseCidr None H ltac:(lia)) as (En & Eb & _).
  cbv zeta in En, Eb. rewrite En, Eb.
  rewrite calc_networkLong_span, calc_broadcastLong_span by lia.
  destruct (table_geometry ip cidr baseCidr Hb Hbc Hc)
    as (Hinc & HT & _ & _ & _ & _ & Eend & _).
  cbv zeta in *. rewrite Eend.
  destruct (table_rows_index _ _ _ _ _ _ H Hbc Hn) as (Hi & _ & ->).
  destruct (table_row_readback ip cidr baseCidr _ Hb Hbc Hc Hi) as [Es Ee].
  cbv zeta in Es, Ee. rewrite Es, Ee. nia.
Qed.

End Component.

(** X16.  When the component accepts a state ([isValid]) whose two prefixes
    are among its selectable values (parent at least 1, target at most 32),
    the table it shows is [generateSubnetTable] under the parent prefix, with
    as many subnets as [subnetsCreated] of the result.  Every valid address
    inside any listed row has the category of the input address when that is
    Private, and is not Private when the input address is Public. *)
Theorem accepted_state_keeps_category st :
  SubnetCalculatorComponent.isValid st = true ->
  1 <= SubnetCalculatorComponent.parentCidrInput st ->
  SubnetCalculatorComponent.cidrInput st <= 32 ->
  let ip := SubnetCalculatorComponent.ipInput st in
  let cidr := SubnetCalculatorComponent.cidrInput st in
  let parent := SubnetCalculatorComponent.parentCidrInput st in
  let t := SubnetCalculatorComponent.subnetTable st in
  t = generateSubnetTable ip cidr parent None /\
  SubnetTable.totalCount t =
    SubnetDetails.subnetsCreated (SubnetCalculatorComponent.result st) /\
  (forall i row other,
      nth_error (SubnetTable.rows t) i = Some row ->
      isValidIp other = true ->
      rowStart row <= ipToLong other <= rowEnd row ->
      (IpCategoryInfo.type (getIpCategory ip) = Private ->
       categoryOf other = categoryOf ip) /\
      (IpCategoryInfo.type (getIpCategory ip) = Public ->
       IpCategoryInfo.type (getIpCategory other) <> Private)).
Proof.
  intros Hv Hp Hc. cbv zeta.
  destruct (component_isValid_inv st Hv) as (Hip & Herr & Hord).
  assert (Et : SubnetCalculatorComponent.subnetTable st =
               generateSubnetTable (SubnetCalculatorComponent.ipInput st)
                 (SubnetCalculatorComponent.cidrInput st)
                 (SubnetCalculatorComponent.parentCidrInput st) None).
  { unfold SubnetCalculatorComponent.subnetTable. cbv zeta.
    rewrite Hv, component_result_baseCidr by assumption. reflexivity. }
  rewrite Et. split; [reflexivity|]. split.
  - unfold SubnetCalculatorComponent.result.
    rewrite generateSubnetTable_valid, calculateSubnet_valid by assumption.
    cbv zeta. cbn [SubnetTable.totalCount SubnetDetails.subnetsCreated].
    rewrite Z.geb_leb.
    destruct (Z.gtb_spec (SubnetCalculatorComponent.parentCidrInput st) 0); [|lia].
    destruct (Z.leb_spec (SubnetCalculatorComponent.parentCidrInput st)
                (SubnetCalculatorComponent.cidrInput st)); [reflexivity | lia].
  - intros i row other Hn Ho Hr.
    destruct (table_row_inside_parent _ _ _ _ _ _ Hip Hp Hord Hc Hn)
      as (H1 & H2 & H3).
    split.
    + intros Hpriv.
      destruct (private_minCidr _ Hip Hpriv) as (m & Em & _).
      pose proof (configError_none_private st m Hip Herr Hpriv Em) as Hm.
      destruct (private_subnet_core _ (SubnetCalculatorComponent.parentCidrInput st)
                  Hip Hpriv ltac:(lia)) as [_ Hsub].
      destruct (Hsub m Em Hm) as [_ Hall]. apply Hall; [exact Ho | lia].
    + intros Hpub.
      pose proof (configError_none_public st Herr Hpub) as Hnone.
      assert (Hpr : 1 <= SubnetCalculatorComponent.parentCidrInput st <= 32) by lia.
      apply (proj1 (overlap_none_core _ _ Hip Hpr) Hnone other Ho). lia.
Qed.

Lemma accepted_state_keeps_category_witness :
  SubnetCalculatorComponent.subnetTable
    (SubnetCalculatorComponent.mkState "192.168.1.10" 26 24) =
  generateSubnetTable "192.168.1.10" 26 24 None.
Proof.
  pose proof (accepted_state_keeps_category
                (SubnetCalculatorComponent.mkState "192.168.1.10" 26 24)
                eq_refl ltac:(cbn; lia) ltac:(cbn; lia)) as H.
  cbv zeta in H. exact (proj1 H).
Defined.

Section ComponentBits.

Lemma splitChars_length s :
  List.length (SubnetCalculatorComponent.splitChars s) = String.length s.
Proof. induction s; cbn; congruence. Qed.

Lemma bitDetails_values chars : forall i cidr base,
  map SubnetCalculatorComponent.value
    (SubnetCalculatorComponent.bitDetails chars i cidr base) = chars.
Proof. induction chars as [|c r IH]; intros; cbn; [reflexivity | now rewrite IH]. Qed.

Lemma bitDetails_app l1 l2 : forall i cidr base,
  SubnetCalculatorComponent.bitDetails (l1 ++ l2) i cidr base =
  (SubnetCalculatorComponent.bitDetails l1 i cidr base ++
   SubnetCalculatorComponent.bitDetails l2 (i + Z.of_nat (List.length l1)) cidr base)%list.
Proof.
  induction l1 as [|c r IH]; intros i cidr base.
  - cbn. now rewrite Z.add_0_r.
  - cbn [app SubnetCalculatorComponent.bitDetails List.length].
    rewrite IH.
    replace (i + 1 + Z.of_nat (List.length r))
      with (i + Z.of_nat (S (List.length r))) by lia.
    reflexivity.
Qed.

Lemma bitDetails_uniform chars : forall i cidr base,
  (i + Z.of_nat (List.length chars) <= base ->
   map SubnetCalculatorComponent.type
     (SubnetCalculatorComponent.bitDetails chars i cidr base) =
   repeat SubnetCalculatorComponent.network (List.length chars)) /\
  (base <= i -> i + Z.of_nat (List.length chars) <= cidr ->
   map SubnetCalculatorComponent.type
     (SubnetCalculatorComponent.bitDetails chars i cidr base) =
   repeat SubnetCalculatorComponent.subnet (List.length chars)) /\
  (base <= i -> cidr <= i ->
   map SubnetCalculatorComponent.type
     (SubnetCalculatorComponent.bitDetails chars i cidr base) =
   repeat SubnetCalculatorComponent.host (List.length chars)).
Proof.
  induction chars as [|c r IH]; intros i cidr base; [cbn; auto|].
  destruct (IH (i + 1) cidr base) as (I1 & I2 & I3).
  cbn [SubnetCalculatorComponent.bitDetails map List.length repeat
       SubnetCalculatorComponent.type].
  rewrite Nat2Z.inj_succ.
  split; [|split].
  - intros Hb. destruct (Z.ltb_spec i base); [|lia]. f_equal. apply I1. lia.
  - intros Hb Hc. destruct (Z.ltb_spec i base); [lia|].
    destruct (Z.ltb_spec i cidr); [|lia]. f_equal. apply I2; lia.
  - intros Hb Hc. destruct (Z.ltb_spec i base); [lia|].
    destruct (Z.ltb_spec i cidr); [lia|]. f_equal. apply I3; lia.
Qed.

Lemma bitDetails_layout chars cidr base :
  List.length chars = 32%nat -> 0 <= base -> base <= cidr -> cidr <= 32 ->
  map SubnetCalculatorComponent.type
    (SubnetCalculatorComponent.bitDetails chars 0 cidr base) =
  bitLayout base cidr.
Proof.
  intros Hl Hb Hbc Hc. unfold bitLayout.
  set (nb := Z.to_nat base). set (ns := Z.to_nat (cidr - base)).
  rewrite <- (firstn_skipn nb chars).
  rewrite <- (firstn_skipn ns (skipn nb chars)).
  assert (L1 : List.length (firstn nb chars) = nb)
    by (rewrite length_firstn; subst nb; lia).
  assert (L2 : List.length (firstn ns (skipn nb chars)) = ns)
    by (rewrite length_firstn, length_skipn; subst nb ns; lia).
  assert (L3 : List.length (skipn ns (skipn nb chars)) = Z.to_nat (32 - cidr))
    by (rewrite !length_skipn; subst nb ns; lia).
  rewrite !bitDetails_app, !map_app, L1, L2.
  destruct (bitDetails_uniform (firstn nb chars) 0 cidr base) as (U1 & _).
  destruct (bitDetails_uniform (firstn ns (skipn nb chars)) (0 + Z.of_nat nb)
              cidr base) as (_ & U2 & _).
  destruct (bitDetails_uniform (skipn ns (skipn nb chars))
              (0 + Z.of_nat nb + Z.of_nat ns) cidr base) as (_ & _ & U3).
  rewrite U1, U2, U3, L1, L2, L3 by (rewrite ?L1, ?L2; subst nb ns; lia).
  reflexivity.
Qed.

End ComponentBits.

(** X17.  For a valid address and prefixes [1 <= parent <= cidr <= 32] the
    component colours the 32 digits of [binaryIp] in order: [baseCidr]
    network bits, then [borrowedBits] subnet bits, then [hostBits] host bits.
    The bit row and the mask row both have 32 entries and are shown as two
    halves of 16. *)
Theorem bitVisuals_layout st :
  isValidIp (SubnetCalculatorComponent.ipInput st) = true ->
  1 <= SubnetCalculatorComponent.parentCidrInput st ->
  SubnetCalculatorComponent.parentCidrInput st
    <= SubnetCalculatorComponent.cidrInput st ->
  SubnetCalculatorComponent.cidrInput st <= 32 ->
  let res := SubnetCalculatorComponent.result st in
  let bits := SubnetCalculatorComponent.bitVisuals st in
  let mask := SubnetCalculatorComponent.maskVisuals st in
  map SubnetCalculatorComponent.value bits =
    SubnetCalculatorComponent.splitChars (SubnetDetails.binaryIp res) /\
  map SubnetCalculatorComponent.type bits =
    (repeat SubnetCalculatorComponent.network (Z.to_nat (SubnetDetails.baseCidr res))
     ++ repeat SubnetCalculatorComponent.subnet
          (Z.to_nat (SubnetDetails.borrowedBits res))
     ++ repeat SubnetCalculatorComponent.host
          (Z.to_nat (SubnetDetails.hostBits res)))%list /\
  List.length bits = 32%nat /\ List.length mask = 32%nat /\
  SubnetCalculatorComponent.visualRows st =
    Some ([firstn 16 bits; skipn 16 bits], [firstn 16 mask; skipn 16 mask]).
Proof.
  intros H Hp Hord Hc. cbv zeta.
  assert (Lip : List.length (SubnetCalculatorComponent.splitChars
                  (SubnetDetails.binaryIp (SubnetCalculatorComponent.result st)))
                = 32%nat).
  { rewrite splitChars_length. unfold SubnetCalculatorComponent.result.
    rewrite calculateSubnet_valid by assumption. apply toBinaryString_shape. }
  assert (Eb : SubnetCalculatorComponent.bitVisuals st =
               SubnetCalculatorComponent.bitDetails
                 (SubnetCalculatorComponent.splitChars
                    (SubnetDetails.binaryIp (SubnetCalculatorComponent.result st)))
                 0 (SubnetCalculatorComponent.cidrInput st)
                 (SubnetCalculatorComponent.parentCidrInput st)).
  { unfold SubnetCalculatorComponent.bitVisuals. cbv zeta.
    rewrite component_result_valid, H, component_result_baseCidr by assumption.
    reflexivity. }
  assert (Em : SubnetCalculatorComponent.maskVisuals st =
               SubnetCalculatorComponent.splitChars
                 (SubnetDetails.binaryMask (SubnetCalculatorComponent.result st))).
  { unfold SubnetCalculatorComponent.maskVisuals. cbv zeta.
    now rewrite component_result_valid, H. }
  assert (Lb : List.length (SubnetCalculatorComponent.bitVisuals st) = 32%nat).
  { rewrite <- (length_map SubnetCalculatorComponent.value), Eb, bitDetails_values.
    exact Lip. }
  assert (Lm : List.length (SubnetCalculatorComponent.maskVisuals st) = 32%nat).
  { rewrite Em, splitChars_length. unfold SubnetCalculatorComponent.result.
    rewrite calculateSubnet_valid by assumption. apply toBinaryString_shape. }
  split; [rewrite Eb; apply bitDetails_values|].
  split; [|split; [exact Lb|split; [exact Lm|]]].
  - rewrite Eb, bitDetails_layout by (assumption || lia).
    unfold bitLayout, SubnetCalculatorComponent.result.
    rewrite calculateSubnet_valid by assumption. cbv zeta.
    cbn [SubnetDetails.baseCidr SubnetDetails.borrowedBits SubnetDetails.hostBits].
    rewrite Z.geb_leb.
    destruct (Z.gtb_spec (SubnetCalculatorComponent.parentCidrInput st) 0); [|lia].
    destruct (Z.leb_spec (SubnetCalculatorComponent.parentCidrInput st)
                (SubnetCalculatorComponent.cidrInput st)); [reflexivity | lia].
  - unfold SubnetCalculatorComponent.visualRows. cbv zeta.
    rewrite Lb, Lm. cbn [Nat.ltb Nat.leb orb].
    unfold SubnetCalculatorComponent.slice. cbn [Nat.sub]. rewrite !skipn_O.
    assert (F : forall (A : Type) (l : list A), List.length l = 32%nat ->
              firstn 16 (skipn 16 l) = skipn 16 l).
    { intros A l Hl. apply firstn_all2. rewrite length_skipn, Hl. cbn. lia. }
    rewrite !F by assumption. reflexivity.
Qed.

Lemma bitVisuals_layout_witness :
  List.length (SubnetCalculatorComponent.bitVisuals
                 (SubnetCalculatorComponent.mkState "192.168.1.10" 26 24)) = 32%nat.
Proof.
  pose proof (bitVisuals_layout
                (SubnetCalculatorComponent.mkState "192.168.1.10" 26 24)
                eq_refl ltac:(cbn; lia) ltac:(cbn; lia) ltac:(cbn; lia)) as H.
  cbv zeta in H. destruct H as (_ & _ & H & _). exact H.
Defined.

(** X18.  [updateParentCidr] stores the parsed value as parent prefix, leaves
    the address alone and raises the target prefix to the parent when it was
    below it: afterwards the target is the larger of the old target and the
    new parent, so the order test of [isValid] holds and the state is accepted
    exactly when the address is valid and [configError] reports nothing. *)
Theorem updateParentCidr_keeps_order st value st' :
  SubnetCalculatorComponent.updateParentCidr st value = Some st' ->
  JS.parseInt value = Some (SubnetCalculatorComponent.parentCidrInput st') /\
  SubnetCalculatorComponent.ipInput st' = SubnetCalculatorComponent.ipInput st /\
  SubnetCalculatorComponent.cidrInput st' =
    Z.max (SubnetCalculatorComponent.cidrInput st)
          (SubnetCalculatorComponent.parentCidrInput st') /\
  SubnetCalculatorComponent.parentCidrInput st'
    <= SubnetCalculatorComponent.cidrInput st' /\
  (SubnetCalculatorComponent.isValid st' = true <->
   isValidIp (SubnetCalculatorComponent.ipInput st') = true /\
   SubnetCalculatorComponent.configError st' = None).
Proof.
  unfold SubnetCalculatorComponent.updateParentCidr.
  destruct (JS.parseInt value) as [v|]; [|discriminate].
  cbv zeta. cbn [SubnetCalculatorComponent.cidrInput
                 SubnetCalculatorComponent.ipInput
                 SubnetCalculatorComponent.parentCidrInput].
  intros E. injection E as <-.
  assert (Hfields :
    SubnetCalculatorComponent.parentCidrInput
      (if SubnetCalculatorComponent.cidrInput st <? v
       then SubnetCalculatorComponent.mkState (SubnetCalculatorComponent.ipInput st) v v
       else SubnetCalculatorComponent.mkState (SubnetCalculatorComponent.ipInput st)
              (SubnetCalculatorComponent.cidrInput st) v) = v /\
    SubnetCalculatorComponent.ipInput
      (if SubnetCalculatorComponent.cidrInput st <? v
       then SubnetCalculatorComponent.mkState (SubnetCalculatorComponent.ipInput st) v v
       else SubnetCalculatorComponent.mkState (SubnetCalculatorComponent.ipInput st)
              (SubnetCalculatorComponent.cidrInput st) v)
      = SubnetCalculatorComponent.ipInput st /\
    SubnetCalculatorComponent.cidrInput
      (if SubnetCalculatorComponent.cidrInput st <? v
       then SubnetCalculatorComponent.mkState (SubnetCalculatorComponent.ipInput st) v v
       else SubnetCalculatorComponent.mkState (SubnetCalculatorComponent.ipInput st)
              (SubnetCalculatorComponent.cidrInput st) v)
      = Z.max (SubnetCalculatorComponent.cidrInput st) v).
  { destruct (Z.ltb_spec (SubnetCalculatorComponent.cidrInput st) v); cbn;
      repeat split; lia. }
  destruct Hfields as (Fp & Fi & Fc).
  set (st' := if SubnetCalculatorComponent.cidrInput st <? v then _ else _) in *.
  rewrite Fp, Fi, Fc.
  split; [reflexivity|]. split; [reflexivity|]. split; [reflexivity|].
  split; [lia|].
  unfold SubnetCalculatorComponent.isValid. cbv zeta.
  rewrite component_result_valid, Fi, Fp, Fc.
  destruct (isValidIp (SubnetCalculatorComponent.ipInput st)); cbn [negb];
    [|split; [discriminate | intros [Hx _]; discriminate Hx]].
  destruct (SubnetCalculatorComponent.configError st');
    [split; [discriminate | intros [_ Hx]; discriminate Hx]|].
  rewrite Z.geb_leb. destruct (Z.leb_spec v (Z.max (SubnetCalculatorComponent.cidrInput st) v));
    [tauto | lia].
Qed.

Lemma updateParentCidr_keeps_order_witness :
  SubnetCalculatorComponent.cidrInput
    (SubnetCalculatorComponent.mkState "192.168.1.10" 28 28) =
  Z.max 26 28.
Proof.
  destruct (updateParentCidr_keeps_order
              (SubnetCalculatorComponent.mkState "192.168.1.10" 26 24) "28"
              (SubnetCalculatorComponent.mkState "192.168.1.10" 28 28) eq_refl)
    as (_ & _ & H & _).
  exact H.
Defined.

(** X19.  [ipToLong] returns an unsigned 32-bit integer on every text, valid
    or not, and two valid texts with the same integer are the same text. *)
Theorem ipToLong_unsigned_and_injective :
  (forall text, 0 <= ipToLong text < 4294967296) /\
  (forall s t, isValidIp s = true -> isValidIp t = true ->
               ipToLong s = ipToLong t -> s = t).
Proof.
  split; [exact ipToLong_range|].
  intros s t Hs Ht E.
  rewrite <- (longToIp_ipToLong s Hs), <- (longToIp_ipToLong t Ht).
  now rewrite E.
Qed.

(** X20.  [getIpCategory] answers Unknown exactly for the texts the parser
    rejects, and only then gives no description; it gives a range name and a
    minimum prefix exactly for the Private category. *)
Theorem unknown_iff_invalid ip :
  let c := getIpCategory ip in
  (IpCategoryInfo.type c = Unknown <-> isValidIp ip = false) /\
  (IpCategoryInfo.description c = None <-> isValidIp ip = false) /\
  (IpCategoryInfo.rangeName c <> None <-> IpCategoryInfo.type c = Private) /\
  (IpCategoryInfo.minCidr c <> None <-> IpCategoryInfo.type c = Private).
Proof.
  cbv zeta. unfold getIpCategory.
  destruct (isValidIp ip); cbn [negb].
  - unfold PRIVATE_RANGES. cbn [find].
    repeat match goal with
           | |- context [if ?c then _ else _] => destruct c
           end; cbn;
      repeat split; intros Hx; try discriminate Hx; try reflexivity;
      try discriminate; try (exfalso; apply Hx; reflexivity).
  - cbn. repeat split; intros Hx; try discriminate Hx; try reflexivity;
      try discriminate; try (exfalso; apply Hx; reflexivity).
Qed.

(** X21.  On every input [generateSubnetTable] returns no row when the limit
    is negative and at most [limit] rows otherwise, never more than
    [totalCount] rows, and numbers the rows 1, 2, 3, ... in order; for a limit
    that is not negative, [truncated] is set exactly when fewer rows than
    [totalCount] are returned. *)
Theorem generateSubnetTable_row_count ip cidr baseCidr limit :
  let lim := match limit with Some l => l | None => 256 end in
  let t := generateSubnetTable ip cidr baseCidr limit in
  let rows := SubnetTable.rows t in
  (lim < 0 -> rows = []) /\
  (0 <= lim -> Z.of_nat (List.length rows) <= lim) /\
  Z.of_nat (List.length rows) <= SubnetTable.totalCount t /\
  (forall i row, nth_error rows i = Some row ->
                 SubnetRow.index row = Z.of_nat i + 1) /\
  (0 <= lim ->
   (SubnetTable.truncated t = true <->
    Z.of_nat (List.length rows) < SubnetTable.totalCount t)).
Proof.
  cbv zeta. unfold generateSubnetTable. cbv zeta.
  destruct (negb (isValidIp ip) || (cidr <? baseCidr)) eqn:G.
  - cbn [SubnetTable.rows SubnetTable.totalCount SubnetTable.truncated List.length].
    split; [reflexivity|]. split; [intros; cbn; lia|]. split; [cbn; lia|].
    split; [intros [|i] row Hn; discriminate Hn|].
    intros _. cbn. split; [discriminate | lia].
  - apply orb_false_elim in G as [_ G]. apply Z.ltb_ge in G.
    cbn [SubnetTable.rows SubnetTable.totalCount SubnetTable.truncated].
    unfold JS.pow2.
    assert (HT : 0 < 2 ^ (cidr - baseCidr)) by (apply Z.pow_pos_nonneg; lia).
    rewrite table_rows_length.
    split; [|split; [lia|split; [lia|split]]].
    + intros Hneg. unfold table_rows.
      replace (Z.to_nat _) with 0%nat by lia. reflexivity.
    + intros i row Hn. apply table_rows_nth_inv in Hn as [_ ->]. reflexivity.
    + intros Hl. rewrite Z.gtb_ltb, Z.ltb_lt. lia.
Qed.

(** X22.  A state the component does not accept shows an empty table.  A
    target prefix below the parent prefix is never accepted, although the
    calculation itself is still shown as valid for a valid address; an invalid
    address text is never accepted either and leaves no bit row, no mask row
    and no visual rows. *)
Theorem rejected_state_shows_nothing st :
  (SubnetCalculatorComponent.isValid st = false ->
   SubnetCalculatorComponent.subnetTable st = emptyTable) /\
  (SubnetCalculatorComponent.cidrInput st
     < SubnetCalculatorComponent.parentCidrInput st ->
   SubnetCalculatorComponent.isValid st = false /\
   SubnetDetails.isValid (SubnetCalculatorComponent.result st) =
     isValidIp (SubnetCalculatorComponent.ipInput st)) /\
  (isValidIp (SubnetCalculatorComponent.ipInput st) = false ->
   SubnetCalculatorComponent.isValid st = false /\
   SubnetCalculatorComponent.bitVisuals st = [] /\
   SubnetCalculatorComponent.maskVisuals st = [] /\
   SubnetCalculatorComponent.visualRows st = None).
Proof.
  split; [|split].
  - intros Hv. unfold SubnetCalculatorComponent.subnetTable. cbv zeta.
    now rewrite Hv.
  - intros Hlt. split; [|apply component_result_valid].
    unfold SubnetCalculatorComponent.isValid. cbv zeta.
    destruct (negb _); [reflexivity|].
    destruct (SubnetCalculatorComponent.configError st); [reflexivity|].
    rewrite Z.geb_leb. apply Z.leb_gt. exact Hlt.
  - intros Hinv.
    assert (Eb : SubnetCalculatorComponent.bitVisuals st = []).
    { unfold SubnetCalculatorComponent.bitVisuals. cbv zeta.
      now rewrite component_result_valid, Hinv. }
    assert (Em : SubnetCalculatorComponent.maskVisuals st = []).
    { unfold SubnetCalculatorComponent.maskVisuals. cbv zeta.
      now rewrite component_result_valid, Hinv. }
    split; [|split; [exact Eb|split; [exact Em|]]].
    + unfold SubnetCalculatorComponent.isValid. cbv zeta.
      now rewrite component_result_valid, Hinv.
    + unfold SubnetCalculatorComponent.visualRows. cbv zeta.
      now rewrite Eb, Em.
Qed.
